(** * BioQuest paper generator: mark-distribution solver, bank sampling and
      AI orchestration

    A shallow embedding of the generation logic of the [PaperGenerator]
    component (src/components/ExamArchive.tsx, second document of the file):
    [findDistribution], the distribution-string parser, [generateFromBank]
    and the AI branch of [handleGenerate].

    Conventions of the embedding.
    - JavaScript numbers that hold integers are [Z]; [NaN] is [None] in an
      [option Z].  Values stay inside the exactly representable integer range
      and arrays inside the engine's length limit.
    - JavaScript strings are [string]; a character is one code unit below 256.
    - [Math.random()] is a value of [unit_sample], a rational in [0,1); the
      random streams, the shuffles, the clock and the external AI service are
      the fields of an [Oracle] record, over which all theorems quantify.
    - Arrays of questions live in a heap of arrays when the state monad of
      the second half is used; [Array.prototype.filter] and [slice] allocate,
      [sort] and [push] update in place.

    Around the generator, the development also covers the settings panel
    and the export of a paper (same document), the archive (first document
    of the file), the handlers of [App] that save and delete papers and
    questions (src/unnamed/part_000) and the question form
    (src/components/QuestionForm.tsx). *)

From Stdlib Require Import ZArith Lia Ascii Permutation DecimalString DecimalPos DecimalZ Sorted.
From stdpp Require Import base list strings.

Local Open Scope Z_scope.

(* ===================================================================== *)
(** * JavaScript primitives used by the component                         *)
(* ===================================================================== *)

Module JS.

(** White space as recognised by [String.prototype.trim] and [parseInt],
    restricted to code units below 256: TAB, LF, VT, FF, CR, SP, NBSP. *)
Definition is_ws (c : ascii) : bool :=
  let n := Ascii.nat_of_ascii c in
  ((9 <=? n)%nat && (n <=? 13)%nat) || (n =? 32)%nat || (n =? 160)%nat.

Fixpoint trim_start (s : string) : string :=
  match s with
  | EmptyString => EmptyString
  | String c r => if is_ws c then trim_start r else s
  end.

Fixpoint trim_end (s : string) : string :=
  match s with
  | EmptyString => EmptyString
  | String c r =>
      match trim_end r with
      | EmptyString => if is_ws c then EmptyString else String c EmptyString
      | r' => String c r'
      end
  end.

(** [s.trim()] *)
Definition trim (s : string) : string := trim_end (trim_start s).

(** [s.split(sep)] for a one-character separator: never the empty list,
    [''.split(',')] is [['']]. *)
Fixpoint split (sep : ascii) (s : string) : list string :=
  match s with
  | EmptyString => [EmptyString]
  | String c r =>
      if Ascii.eqb c sep then EmptyString :: split sep r
      else match split sep r with
           | x :: xs => String c x :: xs
           | [] => [String c EmptyString]
           end
  end.

Definition digit_of (c : ascii) : option Z :=
  let n := Ascii.nat_of_ascii c in
  if ((48 <=? n)%nat && (n <=? 57)%nat) then Some (Z.of_nat (n - 48)) else None.

(** The longest prefix of decimal digits, most significant first. *)
Fixpoint leading_digits (s : string) : list Z :=
  match s with
  | EmptyString => []
  | String c r =>
      match digit_of c with
      | Some d => d :: leading_digits r
      | None => []
      end
  end.

Definition digits_value (ds : list Z) : Z :=
  fold_left (fun acc d => 10 * acc + d) ds 0.

(** [parseInt(s, 10)]: skip leading white space, read an optional sign,
    then the longest run of decimal digits; [NaN] ([None]) when there is no
    digit. *)
Definition parseInt (s : string) : option Z :=
  let s1 := trim_start s in
  let '(sign, s2) :=
    match s1 with
    | String "-"%char r => (-1, r)
    | String "+"%char r => (1, r)
    | _ => (1, s1)
    end in
  match leading_digits s2 with
  | [] => None
  | ds => Some (sign * digits_value ds)
  end.

(** Template-literal rendering of an integer number, [`${n}`]. *)
Definition show (n : Z) : string :=
  NilEmpty.string_of_int (Z.to_int n).

(** [xs.join(sep)] *)
Fixpoint join (sep : string) (xs : list string) : string :=
  match xs with
  | [] => ""
  | [x] => x
  | x :: rest => x +:+ sep +:+ join sep rest
  end.

(** [o || 0] for a number that may be [undefined]. *)
Definition or_zero (o : option Z) : Z :=
  match o with
  | Some v => v
  | None => 0
  end.

(** A value of [Math.random()]: the rational [us_num / (us_num + us_gap + 1)],
    which ranges over all rationals of [0,1). *)
Record unit_sample := { us_num : nat; us_gap : nat }.

(** [Math.floor(Math.random() * n)] *)
Definition random_index (u : unit_sample) (n : nat) : nat :=
  ((us_num u * n) / (us_num u + us_gap u + 1))%nat.

(** An insertion-ordered [Map<number, number>]: keys keep the order of
    their first [set]. *)
Definition NumMap := list (Z * Z).

Fixpoint map_get (m : NumMap) (k : Z) : option Z :=
  match m with
  | [] => None
  | (k', v) :: r => if k' =? k then Some v else map_get r k
  end.

Fixpoint map_set (m : NumMap) (k v : Z) : NumMap :=
  match m with
  | [] => [(k, v)]
  | (k', v') :: r => if k' =? k then (k', v) :: r else (k', v') :: map_set r k v
  end.

(** [[...new Set(xs)]]: duplicates removed, first occurrences kept in order. *)
Fixpoint unique_from (seen : list Z) (xs : list Z) : list Z :=
  match xs with
  | [] => []
  | x :: r =>
      if existsb (Z.eqb x) seen then unique_from seen r
      else x :: unique_from (x :: seen) r
  end.

Definition unique (xs : list Z) : list Z := unique_from [] xs.

End JS.


(* ===================================================================== *)
(** * Data model (src/types.ts and the generator's settings)              *)
(* ===================================================================== *)

Inductive Difficulty := Easy | Moderate | Hard.
Inductive Semester := First | Second | Third.
Inductive QuestionSource := Manual | Upload | Scan | Generated.
Inductive Language := en | bn | hi.
Inductive GenerationMode := distribution_mode | totalMarks_mode.

Record UsedIn := {
  ui_year : Z;
  ui_semester : Semester;
  ui_paperId : string
}.

Record Question := {
  q_id : string;
  q_class : Z;
  q_chapter : string;
  q_text : string;
  q_answer : option string;
  q_marks : Z;
  q_difficulty : Difficulty;
  q_usedIn : list UsedIn;
  q_source : QuestionSource;
  q_year : Z;
  q_semester : Semester;
  q_tags : list string;
  q_imageDataURL : option string
}.

Record Paper := {
  p_id : string;
  p_title : string;
  p_year : Z;
  p_class : Z;
  p_semester : Semester;
  p_source : QuestionSource;
  p_questions : list Question;
  p_createdAt : string
}.

Record GeneratorSettings := {
  markDistribution : string;
  aiChapter : string;
  aiDifficulty : Difficulty;
  aiKeywords : string;
  aiQuestionType : list string;
  aiGenerateAnswers : bool;
  wbbseSyllabusOnly : bool;
  generationMode : GenerationMode;
  totalMarks : string;
  allowedMarks : string
}.

(** A distribution is the array of [[count, marks]] pairs. *)
Definition Distribution := list (Z * Z).

(** [sum(count * markValue)] over a distribution. *)
Definition total_of (d : Distribution) : Z :=
  fold_right (fun '(count, marks) acc => count * marks + acc) 0 d.

(** The argument of [showToast]: a literal, or a key looked up by
    [t(key, lang)] in the localisation table, which is outside src/. *)
Inductive Message :=
| Lit (s : string)
| Tr (key : string) (lang : Language).

Inductive ToastType := success | error.

(** The criteria object handed to [generateQuestionsAI]. *)
Record Criteria := {
  c_class : Z;
  c_chapter : string;
  c_marks : Z;
  c_difficulty : Difficulty;
  c_count : Z;
  c_questionType : option string;
  c_keywords : string;
  c_generateAnswer : bool;
  c_wbbseSyllabusOnly : bool;
  c_lang : Language
}.

(** One element of the batch resolved by [generateQuestionsAI]
    ([Partial<Question>], of which the component reads three fields). *)
Record GeneratedItem := {
  g_text : string;
  g_answer : option string;
  g_imageDataURL : option string
}.

(** The part of a thrown value that the [catch] clause inspects:
    [error?.error?.status], [error?.error?.code] and [error.message]. *)
Record ErrorView := {
  ev_status : option string;
  ev_code : option Z;
  ev_message : option string
}.

(** A thrown value: [null]/[undefined], or anything else seen through
    [ErrorView]. *)
Inductive Thrown :=
| ThrownNullish
| ThrownValue (v : ErrorView).

Inductive AIResult :=
| Resolved (batch : list GeneratedItem)
| Rejected (e : Thrown).

(** Observable effects of one run of [handleGenerate], in program order. *)
Inductive Event :=
| ShowToast (m : Message) (ty : ToastType)
| ConsoleError (s : string)
| SetIsGenerating (b : bool)
| SetGeneratedPaper (p : option Paper)
| Timeout (ms : Z)
| AICall (c : Criteria) (existing : list Question) (r : AIResult).

(* ===================================================================== *)
(** * [findDistribution] (total-marks mode)                               *)
(* ===================================================================== *)

Module Solver.

(** [dp[j]]: reading outside the array gives [undefined], which is falsy. *)
Definition dp_get (dp : list bool) (j : Z) : bool :=
  if j <? 0 then false else default false (dp !! Z.to_nat j).

(** The inner [for (const mark of uniqueMarks)] with its [break]. *)
Fixpoint dp_row (dp : list bool) (i : Z) (marks : list Z) : list bool :=
  match marks with
  | [] => dp
  | mark :: rest =>
      if (i >=? mark) && dp_get dp (i - mark)
      then <[Z.to_nat i := true]> dp
      else dp_row dp i rest
  end.

(** [new Array(target + 1).fill(false)], [dp[0] = true], then the outer
    [for (let i = 1; i <= target; i++)]. *)
Definition build_dp (target : Z) (marks : list Z) : list bool :=
  fold_left (fun dp i => dp_row dp (Z.of_nat i) marks)
            (seq 1 (Z.to_nat target))
            (<[0%nat := true]> (replicate (Z.to_nat (target + 1)) false)).

(** The table after the first [k] rounds of the outer loop. *)
Definition dp_prefix (target : Z) (marks : list Z) (k : nat) : list bool :=
  fold_left (fun dp i => dp_row dp (Z.of_nat i) marks)
            (seq 1 k)
            (<[0%nat := true]> (replicate (Z.to_nat (target + 1)) false)).

Definition sumZ (l : list Z) : Z := fold_right Z.add 0 l.

(** [sum(count * mark)] over the entries of a [Map] from mark to count. *)
Definition map_total (m : JS.NumMap) : Z :=
  fold_right (fun '(mark, count) acc => count * mark + acc) 0 m.

Definition possibleMoves (dp : list bool) (marks : list Z) (currentTotal : Z) : list Z :=
  List.filter (fun mark => (currentTotal >=? mark) && dp_get dp (currentTotal - mark)) marks.

Inductive Walk :=
| Finished (resultMarks : list Z)
| StuckAt (currentTotal : Z)
| OutOfFuel.

(** The [while (currentTotal > 0)] loop.  [k] counts the calls of
    [Math.random()] made so far; [fuel] bounds the number of iterations. *)
Fixpoint walk (fuel : nat) (dp : list bool) (marks : list Z)
         (rnd : nat -> JS.unit_sample) (k : nat)
         (currentTotal : Z) (resultMarks : list Z) : Walk :=
  if currentTotal >? 0 then
    match fuel with
    | O => OutOfFuel
    | S fuel' =>
        let moves := possibleMoves dp marks currentTotal in
        if (length moves =? 0)%nat then StuckAt currentTotal
        else
          let randomMove := nth (JS.random_index (rnd k) (length moves)) moves 0 in
          walk fuel' dp marks rnd (S k) (currentTotal - randomMove)
               (resultMarks ++ [randomMove])
    end
  else Finished resultMarks.

(** [distributionMap]: one [set] per element of [resultMarks]. *)
Definition tally (resultMarks : list Z) : JS.NumMap :=
  fold_left (fun m mark => JS.map_set m mark (JS.or_zero (JS.map_get m mark) + 1))
            resultMarks [].

(** [Array.from(distributionMap.entries()).map(([mark, count]) => [count, mark])] *)
Definition to_distribution (m : JS.NumMap) : Distribution :=
  map (fun '(mark, count) => (count, mark)) m.

(** The parsed inputs: [target] and [uniqueMarks]. *)
Definition parsedMarks (s : GeneratorSettings) : list (option Z) :=
  map (fun p => JS.parseInt (JS.trim p)) (JS.split ","%char (allowedMarks s)).

Definition keep_positive (ms : list (option Z)) : list Z :=
  omap (fun m => match m with
                 | Some v => if v >? 0 then Some v else None
                 | None => None
                 end) ms.

Definition uniqueMarks (s : GeneratorSettings) : list Z :=
  JS.unique (keep_positive (parsedMarks s)).

Definition target (s : GeneratorSettings) : option Z :=
  JS.parseInt (totalMarks s).

Inductive Outcome :=
| Solved (d : Distribution)
| Invalid
| Infeasible
| Stuck
| Diverged.

(** The body of [findDistribution], with the reason of each [return null]
    kept apart.  [Diverged] is the loop running past its fuel. *)
Definition run (s : GeneratorSettings) (rnd : nat -> JS.unit_sample) : Outcome :=
  match target s with
  | None => Invalid
  | Some target =>
      if (target <=? 0) || (length (uniqueMarks s) =? 0)%nat then Invalid
      else
        let dp := build_dp target (uniqueMarks s) in
        if negb (dp_get dp target) then Infeasible
        else
          match walk (Z.to_nat target) dp (uniqueMarks s) rnd 0 target [] with
          | Finished resultMarks => Solved (to_distribution (tally resultMarks))
          | StuckAt _ => Stuck
          | OutOfFuel => Diverged
          end
  end.

(** What the caller of [findDistribution] observes: the returned value
    ([null] is [None]) and the effects performed inside the function. *)
Definition findDistribution (s : GeneratorSettings) (rnd : nat -> JS.unit_sample)
  : option Distribution * list Event :=
  match run s rnd with
  | Solved d => (Some d, [])
  | Invalid => (None, [ShowToast (Lit "Invalid total marks or allowed marks.") error])
  | Infeasible => (None, [])
  | Stuck => (None, [ConsoleError "Stuck in distribution generation, this should not happen."])
  | Diverged => (None, [])
  end.

(** The independent reachability notion: [t] is a sum of a multiset of
    positive members of [marks]. *)
Inductive reachable (marks : list Z) : Z -> Prop :=
| reach_zero : reachable marks 0
| reach_add t m : In m marks -> 0 < m -> reachable marks t -> reachable marks (t + m).

End Solver.

(** The default settings of the component, with chosen solver inputs. *)
Definition settings_with (mode : GenerationMode) (dist total allowed : string)
  : GeneratorSettings :=
  {| markDistribution := dist; aiChapter := ""; aiDifficulty := Moderate;
     aiKeywords := ""; aiQuestionType := []; aiGenerateAnswers := false;
     wbbseSyllabusOnly := true; generationMode := mode;
     totalMarks := total; allowedMarks := allowed |}.

(** Random sources used in examples. *)
Definition always_first : nat -> JS.unit_sample :=
  fun _ => {| JS.us_num := 0; JS.us_gap := 0 |}.
Definition always_last : nat -> JS.unit_sample :=
  fun _ => {| JS.us_num := 99; JS.us_gap := 0 |}.

(* ===================================================================== *)
(** * The distribution string (explicit-distribution mode)                *)
(* ===================================================================== *)

Module Parser.

(** [s.trim().split('x').map(p => parseInt(p, 10))] for one segment. *)
Definition parts_of (segment : string) : list (option Z) :=
  map JS.parseInt (JS.split "x"%char (JS.trim segment)).

(** The type guard of the [filter]:
    [parts.length === 2 && !isNaN(parts[0]) && !isNaN(parts[1])]. *)
Definition keep (parts : list (option Z)) : option (Z * Z) :=
  match parts with
  | [Some count; Some marks] => Some (count, marks)
  | _ => None
  end.

(** [settings.markDistribution.split(',').map(...).filter(...)] *)
Definition parse (markDistribution : string) : Distribution :=
  omap (fun segment => keep (parts_of segment)) (JS.split ","%char markDistribution).

(** The parsed distribution, or [None] when the format toast is shown:
    [distribution.length === 0 && settings.markDistribution.trim() !== '']. *)
Definition parseDistribution (markDistribution : string) : option Distribution :=
  let distribution := parse markDistribution in
  if (length distribution =? 0)%nat && negb (String.eqb (JS.trim markDistribution) "")
  then None
  else Some distribution.

End Parser.

(* ===================================================================== *)
(** * Partition of one requirement group over the question types          *)
(* ===================================================================== *)

Module Partition.

(** One element of [requestsToMake].  [selectedTypes[0]] and
    [selectedTypes[i]] are array reads, [undefined] being [None]. *)
Record Request := {
  r_count : Z;
  r_type : option string
}.

(** [settings.aiQuestionType.length > 0 ? settings.aiQuestionType : ['Short Answer']] *)
Definition selectedTypes (s : GeneratorSettings) : list string :=
  if (0 <? length (aiQuestionType s))%nat then aiQuestionType s
  else ["Short Answer"].

(** [baseCount + (i < remainder ? 1 : 0)] *)
Definition subCount (count numTypes : Z) (i : nat) : Z :=
  let baseCount := count / numTypes in
  let remainder := Z.rem count numTypes in
  baseCount + (if Z.of_nat i <? remainder then 1 else 0).

(** The list [requestsToMake] built for one group. *)
Definition requestsToMake (count : Z) (types : list string) : list Request :=
  if (length types <=? 1)%nat then
    [ {| r_count := count; r_type := types !! 0%nat |} ]
  else
    let numTypes := Z.of_nat (length types) in
    flat_map (fun i =>
                let c := subCount count numTypes i in
                if c >? 0 then [ {| r_count := c; r_type := types !! i |} ] else [])
             (seq 0 (length types)).

(** The requests of one [[count, marks]] group, with the guard
    [if (count <= 0) continue] that precedes the partition. *)
Definition group_requests (s : GeneratorSettings) (count : Z) : list Request :=
  if count <=? 0 then [] else requestsToMake count (selectedTypes s).

(** The partition in the words of the specification: [floor(count / n)]
    for each of the [n] categories, plus one for each of the first
    [count mod n]. *)
Definition even_split (count : Z) (n : nat) : list Z :=
  map (fun i => count / Z.of_nat n +
                (if Z.of_nat i <? count mod Z.of_nat n then 1 else 0))
      (seq 0 n).

(** One request per category whose share is positive, in category order. *)
Definition requests_of_shares (shares : list Z) (types : list string) : list Request :=
  omap (fun '(c, ty) =>
          if c >? 0 then Some {| r_count := c; r_type := Some ty |} else None)
       (zip shares types).

End Partition.

(* ===================================================================== *)
(** * [generateFromBank]                                                  *)
(* ===================================================================== *)

Module Bank.

(** [l.slice(0, count)]: a negative end counts from the end of the array. *)
Definition slice0 {A} (l : list A) (count : Z) : list A :=
  if count <? 0 then take (Z.to_nat (Z.of_nat (length l) + count)) l
  else take (Z.to_nat count) l.

Definition insert_at {A} (n : nat) (x : A) (l : list A) : list A :=
  take n l ++ x :: drop n l.

(** The outcome of [sort(() => 0.5 - Math.random())]: some rearrangement of
    the array, named by a code; every rearrangement has a code. *)
Fixpoint permute {A} (code : list nat) (l : list A) : list A :=
  match l with
  | [] => []
  | x :: r =>
      match code with
      | [] => x :: r
      | c :: code' =>
          let r' := permute code' r in
          insert_at (c mod (S (length r'))) x r'
      end
  end.

Definition class_filter (selectedClass : Z) (q : Question) : bool :=
  q_class q =? selectedClass.

Definition unused (q : Question) : bool :=
  (length (q_usedIn q) =? 0)%nat.

Definition has_marks (marks : Z) (q : Question) : bool :=
  q_marks q =? marks.

(** [q => !selected.some(s => s.id === q.id)] *)
Definition not_selected (selected : list Question) (q : Question) : bool :=
  negb (existsb (fun s => String.eqb (q_id s) (q_id q)) selected).

(** The initial [sourcePool]. *)
Definition sourcePool (questions : list Question) (selectedClass : Z)
           (avoidPrevious : bool) : list Question :=
  let pool := List.filter (class_filter selectedClass) questions in
  if avoidPrevious then List.filter unused pool else pool.

(** [requiredCounts]: total count per mark value, in first-seen order. *)
Definition requiredCounts (distribution : Distribution) : JS.NumMap :=
  fold_left (fun m '(count, marks) =>
               JS.map_set m marks (JS.or_zero (JS.map_get m marks) + count))
            distribution [].

Definition availableCount (pool : list Question) (marks : Z) : Z :=
  Z.of_nat (length (List.filter (has_marks marks) pool)).

(** [`need ${requiredCount} for ${marks} marks (found ${availableCount})`] *)
Definition missingMessage (requiredCount marks availableCount : Z) : string :=
  "need " +:+ JS.show requiredCount +:+ " for " +:+ JS.show marks +:+
  " marks (found " +:+ JS.show availableCount +:+ ")".

Definition missingMessages (pool : list Question) (required : JS.NumMap) : list string :=
  flat_map (fun '(marks, requiredCount) =>
              let available := availableCount pool marks in
              if available <? requiredCount
              then [missingMessage requiredCount marks available]
              else [])
           required.

(** The second loop: [k] numbers the calls of [sort]. *)
Fixpoint select_groups (shuffle : nat -> list nat) (k : nat)
         (distribution : Distribution) (pool finalQuestions : list Question)
  : list Question :=
  match distribution with
  | [] => finalQuestions
  | (count, marks) :: rest =>
      let suitableQuestions := List.filter (has_marks marks) pool in
      let selected := slice0 (permute (shuffle k) suitableQuestions) count in
      select_groups shuffle (S k) rest
                    (List.filter (not_selected selected) pool)
                    (finalQuestions ++ selected)
  end.

Inductive Result :=
| Error (error : string)
| Questions (questions : list Question).

Definition generateFromBank (questions : list Question) (selectedClass : Z)
           (avoidPrevious : bool) (shuffle : nat -> list nat)
           (distribution : Distribution) : Result :=
  let pool := sourcePool questions selectedClass avoidPrevious in
  let missing := missingMessages pool (requiredCounts distribution) in
  if (0 <? length missing)%nat then
    Error ("Not enough questions in bank: " +:+ JS.join "; " missing +:+ ".")
  else
    Questions (select_groups shuffle 0 distribution pool []).

(** The total count a distribution asks for one mark value. *)
Definition required_for (distribution : Distribution) (marks : Z) : Z :=
  fold_right (fun '(count, m) acc => if m =? marks then count + acc else acc)
             0 distribution.

(** [needle] occurs in [hay] as a contiguous substring. *)
Definition occurs_in (needle hay : string) : Prop :=
  exists before after, hay = before +:+ needle +:+ after.

End Bank.

(** A bank question with the fields the generator reads. *)
Definition mkq (id : string) (cls marks : Z) (used : list UsedIn) : Question :=
  {| q_id := id; q_class := cls; q_chapter := ""; q_text := id; q_answer := None;
     q_marks := marks; q_difficulty := Moderate; q_usedIn := used;
     q_source := Manual; q_year := 2024; q_semester := First; q_tags := [];
     q_imageDataURL := None |}.

Definition used_once : list UsedIn :=
  [ {| ui_year := 2023; ui_semester := First; ui_paperId := "p1" |} ].

Definition identity_shuffle : nat -> list nat := fun _ => [].
Definition rotating_shuffle : nat -> list nat := fun _ => [1; 1; 1; 1]%nat.

Module BankSpec.

(** A question that counts for a mark value: of the selected class, never
    used when reuse is avoided, and worth [marks]. *)
Definition eligible (selectedClass : Z) (avoidPrevious : bool) (marks : Z)
           (q : Question) : bool :=
  (q_class q =? selectedClass) &&
  (if avoidPrevious then (length (q_usedIn q) =? 0)%nat else true) &&
  (q_marks q =? marks).

(** The number of bank questions that count for a mark value. *)
Definition available (questions : list Question) (selectedClass : Z)
           (avoidPrevious : bool) (marks : Z) : Z :=
  Z.of_nat (length (List.filter (eligible selectedClass avoidPrevious marks) questions)).

(** The count the claim of C4 speaks of: no restriction to the class. *)
Definition available_any_class (questions : list Question)
           (avoidPrevious : bool) (marks : Z) : Z :=
  Z.of_nat (length (List.filter
                      (fun q => (if avoidPrevious then (length (q_usedIn q) =? 0)%nat else true) &&
                                (q_marks q =? marks)) questions)).

(** [marks] is the mark value of some group of the distribution. *)
Definition asked (distribution : Distribution) (marks : Z) : bool :=
  existsb (fun '(_, m) => m =? marks) distribution.

End BankSpec.

(** What one group of the distribution contributes: exactly [count]
    questions, each worth [marks]. *)
Definition group_ok (group : Z * Z) (g : list Question) : Prop :=
  Z.of_nat (length g) = fst group /\ Forall (fun q => q_marks q = snd group) g.

Definition nonneg_counts (d : Distribution) : Prop :=
  Forall (fun group : Z * Z => 0 <= fst group) d.

(* ===================================================================== *)
(** * Effects: a heap of question arrays, exceptions and an event log     *)
(* ===================================================================== *)

Module Run.

(** An array of questions is a location of the heap.  The functions
    modelled here never assign to a property of a question object, so
    questions themselves are values.  [ai_calls] counts the requests sent to
    the AI service during the run. *)
Abbreviation loc := nat (only parsing).

Record Store := {
  heap : list (list Question);
  ai_calls : nat
}.

Definition set_heap (s : Store) (h : list (list Question)) : Store :=
  {| heap := h; ai_calls := ai_calls s |}.

Inductive Res (A : Type) :=
| Val (a : A)
| Exn (e : Thrown).
Arguments Val {A} a.
Arguments Exn {A} e.

(** A computation returns or throws, updates the store and emits events. *)
Definition M (A : Type) : Type := Store -> Res A * Store * list Event.

Definition ret {A} (a : A) : M A := fun s => (Val a, s, []).

Definition bind {A B} (m : M A) (k : A -> M B) : M B :=
  fun s =>
    match m s with
    | (Val a, s1, ev1) =>
        match k a s1 with
        | (r, s2, ev2) => (r, s2, ev1 ++ ev2)
        end
    | (Exn e, s1, ev1) => (Exn e, s1, ev1)
    end.

Definition throw {A} (e : Thrown) : M A := fun s => (Exn e, s, []).

Definition emit (e : Event) : M unit := fun s => (Val tt, s, [e]).

Definition emit_all (es : list Event) : M unit := fun s => (Val tt, s, es).

(** [try { m } catch (e) { h e }] *)
Definition try_catch {A} (m : M A) (h : Thrown -> M A) : M A :=
  fun s =>
    match m s with
    | (Val a, s1, ev1) => (Val a, s1, ev1)
    | (Exn e, s1, ev1) =>
        match h e s1 with
        | (r, s2, ev2) => (r, s2, ev1 ++ ev2)
        end
    end.

(** [try { m } finally { f }] *)
Definition try_finally {A} (m : M A) (f : M unit) : M A :=
  fun s =>
    match m s with
    | (r, s1, ev1) =>
        match f s1 with
        | (Val _, s2, ev2) => (r, s2, ev1 ++ ev2)
        | (Exn e, s2, ev2) => (Exn e, s2, ev1 ++ ev2)
        end
    end.

Notation "'let*' x ':=' m 'in' k" := (bind m (fun x => k))
  (at level 10, x pattern, m at level 100, k at level 200).
Notation "m '>>' k" := (bind m (fun _ => k))
  (at level 100, k at level 200, right associativity).

Fixpoint for_each {A} (l : list A) (body : A -> M unit) : M unit :=
  match l with
  | [] => ret tt
  | x :: rest => body x >> for_each rest body
  end.

(** ** Arrays *)

Definition arr_read (l : loc) : M (list Question) :=
  fun s => (Val (default [] (heap s !! l)), s, []).

(** A new array: [[]], or the result of [filter] or [slice]. *)
Definition arr_new (a : list Question) : M loc :=
  fun s => (Val (length (heap s)), set_heap s (heap s ++ [a]), []).

Definition arr_write (l : loc) (a : list Question) : M unit :=
  fun s => (Val tt, set_heap s (<[l := a]> (heap s)), []).

(** [l.filter(p)] *)
Definition arr_filter (p : Question -> bool) (l : loc) : M loc :=
  let* a := arr_read l in arr_new (List.filter p a).

(** [l.sort(() => 0.5 - Math.random())]: sorts in place, returns [l]. *)
Definition arr_sort (code : list nat) (l : loc) : M loc :=
  let* a := arr_read l in arr_write l (Bank.permute code a) >> ret l.

(** [l.slice(0, count)] *)
Definition arr_slice0 (l : loc) (count : Z) : M loc :=
  let* a := arr_read l in arr_new (Bank.slice0 a count).

(** [l.push(...xs)] *)
Definition arr_push (l : loc) (xs : list Question) : M unit :=
  let* a := arr_read l in arr_write l (a ++ xs).

(** [l.length] *)
Definition arr_length (l : loc) : M nat :=
  let* a := arr_read l in ret (length a).

(** The number of AI requests made so far. *)
Definition get_calls : M nat := fun s => (Val (ai_calls s), s, []).

(** The result, the final store and the events of a computation. *)
Definition result_of {A} (x : Res A * Store * list Event) : Res A := fst (fst x).
Definition store_of {A} (x : Res A * Store * list Event) : Store := snd (fst x).
Definition events_of {A} (x : Res A * Store * list Event) : list Event := snd x.

(** Frame condition at level [n]: the arrays below [n] are untouched and
    the computation returns a value satisfying [Q]. *)
Definition safe {A} (n : nat) (m : M A) (Q : A -> Prop) : Prop :=
  forall s, (n <= length (heap s))%nat ->
    (n <= length (heap (store_of (m s))))%nat /\
    (forall l, (l < n)%nat -> heap (store_of (m s)) !! l = heap s !! l) /\
    (forall a, result_of (m s) = Val a -> Q a).

End Run.

(** Weakest-precondition reading of a run: [Q] holds of the result, the
    final store and the emitted events. *)
Definition wp {A} (m : Run.M A) (s : Run.Store)
           (Q : Run.Res A -> Run.Store -> list Event -> Prop) : Prop :=
  Q (Run.result_of (m s)) (Run.store_of (m s)) (Run.events_of (m s)).

(** A computation that emits no event. *)
Definition silent {A} (m : Run.M A) : Prop :=
  forall s, Run.events_of (m s) = [].

(* ===================================================================== *)
(** * The component: [generateFromBank], [createPaper], [handleGenerate]  *)
(* ===================================================================== *)

(** Props and state captured by the closures of one render. *)
Record Component := {
  questions : Run.loc;
  selectedClass : Z;
  avoidPrevious : bool;
  title : string;
  year : Z;
  semester : Semester;
  settings : GeneratorSettings;
  lang : Language;
  userApiKey : string
}.

(** What the run does not decide: the random draws, the rearrangement made
    by each random [sort], the AI service (its answer to the [n]-th request),
    the identifiers given to generated questions, the clock, and
    [JSON.parse] seen through [?.error?.status] and [?.error?.code]
    ([None] when it throws). *)
Record Oracle := {
  rnd_move : nat -> JS.unit_sample;
  shuffle : nat -> list nat;
  rnd_chapter : nat -> JS.unit_sample;
  ai_service : nat -> Criteria -> list Question -> AIResult;
  gen_id : nat -> nat -> string;
  now : nat -> string;
  json_parse : string -> option (option string * option Z)
}.

Module Generator.
Import Run.

Definition showToast (m : Message) (ty : ToastType) : M unit :=
  emit (ShowToast m ty).

(** What [generateFromBank] returns: [{ error }] or [{ questions }], the
    latter holding the array [finalQuestions]. *)
Inductive BankRef :=
| ErrorRef (error : string)
| QuestionsRef (questions : loc).

(** The first loop of [generateFromBank]; each [filter] is a new array. *)
Fixpoint missing_loop (entries : JS.NumMap) (sourcePool : loc)
         (missingMessages : list string) : M (list string) :=
  match entries with
  | [] => ret missingMessages
  | (marks, requiredCount) :: rest =>
      let* matching := arr_filter (Bank.has_marks marks) sourcePool in
      let* n := arr_length matching in
      let availableCount := Z.of_nat n in
      missing_loop rest sourcePool
        (if availableCount <? requiredCount
         then missingMessages ++ [Bank.missingMessage requiredCount marks availableCount]
         else missingMessages)
  end.

(** The second loop: [sort] rearranges [suitableQuestions] in place,
    [slice] copies, [push] extends [finalQuestions] in place, and
    [sourcePool] is rebound to the array returned by [filter]. *)
Fixpoint select_loop (o : Oracle) (k : nat) (distribution : Distribution)
         (sourcePool finalQuestions : loc) : M unit :=
  match distribution with
  | [] => ret tt
  | (count, marks) :: rest =>
      let* suitableQuestions := arr_filter (Bank.has_marks marks) sourcePool in
      let* sorted := arr_sort (shuffle o k) suitableQuestions in
      let* selected := arr_slice0 sorted count in
      let* sel := arr_read selected in
      arr_push finalQuestions sel >>
      let* sourcePool' := arr_filter (Bank.not_selected sel) sourcePool in
      select_loop o (S k) rest sourcePool' finalQuestions
  end.

Definition generateFromBank (c : Component) (o : Oracle) (distribution : Distribution)
  : M BankRef :=
  let* byClass := arr_filter (Bank.class_filter (selectedClass c)) (questions c) in
  let* sourcePool :=
    (if avoidPrevious c then arr_filter Bank.unused byClass else ret byClass) in
  let requiredCounts := Bank.requiredCounts distribution in
  let* missingMessages := missing_loop requiredCounts sourcePool [] in
  if (0 <? length missingMessages)%nat then
    ret (ErrorRef ("Not enough questions in bank: " +:+
                   JS.join "; " missingMessages +:+ "."))
  else
    let* finalQuestions := arr_new [] in
    select_loop o 0 distribution sourcePool finalQuestions >>
    ret (QuestionsRef finalQuestions).

(** [title.trim() || `Class ${selectedClass} Paper - ${year}`] *)
Definition paper_title (c : Component) : string :=
  if String.eqb (JS.trim (title c)) ""
  then "Class " +:+ JS.show (selectedClass c) +:+ " Paper - " +:+ JS.show (year c)
  else JS.trim (title c).

Definition paper_of (c : Component) (o : Oracle) (qs : list Question)
           (source : QuestionSource) : Paper :=
  {| p_id := now o 0; p_title := paper_title c; p_year := year c;
     p_class := selectedClass c; p_semester := semester c; p_source := source;
     p_questions := qs; p_createdAt := now o 1 |}.

(** [createPaper(questions, source)]: the paper holds the array. *)
Definition createPaper (c : Component) (o : Oracle) (qs : loc)
           (source : QuestionSource) : M Paper :=
  let* content := arr_read qs in
  ret (paper_of c o content source).

(** [s.split(',').map(c => c.trim()).filter(Boolean)] *)
Definition nonempty_items (s : string) : list string :=
  List.filter (fun x => negb (String.eqb x ""))
              (map JS.trim (JS.split ","%char s)).

(** [generatedBatch.map((g): Question => ({ ... }))] for request [call]. *)
Definition newQuestions (c : Component) (o : Oracle) (call : nat)
           (chapterForThisGroup : string) (marks : Z)
           (generatedBatch : list GeneratedItem) : list Question :=
  imap (fun j g =>
          {| q_id := gen_id o call j;
             q_text := g_text g;
             q_answer := g_answer g;
             q_imageDataURL := g_imageDataURL g;
             q_class := selectedClass c;
             q_chapter := chapterForThisGroup;
             q_marks := marks;
             q_difficulty := aiDifficulty (settings c);
             q_usedIn := [];
             q_source := Generated;
             q_year := year c;
             q_semester := semester c;
             q_tags := nonempty_items (aiKeywords (settings c)) |})
       generatedBatch.

(** [await generateQuestionsAI(criteria, existingQuestionPool, userApiKey)]:
    the service reads the pool, and resolves or rejects. *)
Definition generateQuestionsAI (o : Oracle) (criteria : Criteria) (existing : loc)
  : M (list GeneratedItem) :=
  fun s =>
    let call := ai_calls s in
    let pool := default [] (heap s !! existing) in
    let r := ai_service o call criteria pool in
    let s' := {| heap := heap s; ai_calls := S call |} in
    match r with
    | Resolved batch => (Val batch, s', [AICall criteria pool r])
    | Rejected e => (Exn e, s', [AICall criteria pool r])
    end.

(** The body of [for (const request of requestsToMake)]. *)
Definition ai_request (c : Component) (o : Oracle) (aiChapters : list string)
           (marks : Z) (existingQuestionPool finalQuestions : loc)
           (request : Partition.Request) : M unit :=
  let* produced := arr_length finalQuestions in
  (if (0 <? produced)%nat then emit (Timeout 1500) else ret tt) >>
  let* call := get_calls in
  let chapterForThisGroup :=
    nth (JS.random_index (rnd_chapter o call) (length aiChapters)) aiChapters "" in
  let criteria :=
    {| c_class := selectedClass c;
       c_chapter := chapterForThisGroup;
       c_marks := marks;
       c_difficulty := aiDifficulty (settings c);
       c_count := Partition.r_count request;
       c_questionType := Partition.r_type request;
       c_keywords := aiKeywords (settings c);
       c_generateAnswer := aiGenerateAnswers (settings c);
       c_wbbseSyllabusOnly := wbbseSyllabusOnly (settings c);
       c_lang := lang c |} in
  let* generatedBatch := generateQuestionsAI o criteria existingQuestionPool in
  if (0 <? length generatedBatch)%nat then
    let fresh := newQuestions c o call chapterForThisGroup marks generatedBatch in
    arr_push finalQuestions fresh >>
    arr_push existingQuestionPool fresh
  else ret tt.

(** The body of the inner [try]. *)
Definition ai_try (c : Component) (o : Oracle) (distribution : Distribution) : M unit :=
  let aiChapters := nonempty_items (aiChapter (settings c)) in
  if (length aiChapters =? 0)%nat then
    showToast (Lit "Please provide at least one chapter for AI generation.") error
  else
    let* existingQuestionPool :=
      arr_filter (fun q => (q_class q =? selectedClass c) &&
                           (if avoidPrevious c then Bank.unused q else true))
                 (questions c) in
    let* finalQuestions := arr_new [] in
    for_each distribution (fun '(count, marks) =>
      for_each (Partition.group_requests (settings c) count)
               (ai_request c o aiChapters marks existingQuestionPool finalQuestions)) >>
    let* paper := createPaper c o finalQuestions Generated in
    emit (SetGeneratedPaper (Some paper)).

(** [status === 'RESOURCE_EXHAUSTED' || code === 429] *)
Definition quota_shape (status : option string) (code : option Z) : bool :=
  match status with
  | Some st => String.eqb st "RESOURCE_EXHAUSTED"
  | None => false
  end ||
  match code with
  | Some n => n =? 429
  | None => false
  end.

(** [hay.includes(needle)] *)
Fixpoint includes (needle hay : string) : bool :=
  String.prefix needle hay ||
  match hay with
  | EmptyString => false
  | String _ rest => includes needle rest
  end.

(** [msg.substring(msg.indexOf('{'))]: from the first brace on, the whole
    string when there is none ([indexOf] is then -1, clamped to 0). *)
Fixpoint from_brace (msg : string) : option string :=
  match msg with
  | EmptyString => None
  | String ch rest =>
      if Ascii.eqb ch "{"%char then Some msg else from_brace rest
  end.

Definition from_first_brace (msg : string) : string :=
  match from_brace msg with
  | Some tail => tail
  | None => msg
  end.

(** The classification made by the [catch] clause on a thrown value that
    is neither [null] nor [undefined]. *)
Definition quota_view (o : Oracle) (v : ErrorView) : bool :=
  if quota_shape (ev_status v) (ev_code v) then true
  else
    match ev_message v with
    | Some msg =>
        if includes "429" msg then
          match json_parse o (from_first_brace msg) with
          | Some (status, code) => quota_shape status code
          | None => false
          end
        else false
    | None => false
    end.

(** The engine's [TypeError] for [error.message] on [null]/[undefined]. *)
Definition type_error : Thrown :=
  ThrownValue {| ev_status := None; ev_code := None;
                 ev_message := Some "Cannot read properties of undefined (reading 'message')" |}.

Definition isQuotaError (o : Oracle) (e : Thrown) : M bool :=
  match e with
  | ThrownNullish => throw type_error
  | ThrownValue v => ret (quota_view o v)
  end.

(** The inner [catch (error: any)] clause. *)
Definition ai_catch (c : Component) (o : Oracle) (distribution : Distribution)
           (e : Thrown) : M unit :=
  emit (ConsoleError "Error generating paper with AI:") >>
  let* quota := isQuotaError o e in
  (if quota then showToast (Tr "apiQuotaError" (lang c)) error
   else showToast (Tr "apiError" (lang c)) error) >>
  showToast (Tr "fallbackToBank" (lang c)) success >>
  let* fallbackResult := generateFromBank c o distribution in
  match fallbackResult with
  | ErrorRef err => showToast (Lit err) error
  | QuestionsRef qs =>
      let* paper := createPaper c o qs Manual in
      emit (SetGeneratedPaper (Some paper)) >>
      showToast (Tr "fallbackSuccess" (lang c)) success
  end.

(** The first part of the outer [try]: the distribution, or [None] when
    the function returns early. *)
Definition computeDistribution (c : Component) (o : Oracle) : M (option Distribution) :=
  match generationMode (settings c) with
  | distribution_mode =>
      match Parser.parseDistribution (markDistribution (settings c)) with
      | None =>
          showToast (Lit "Invalid mark distribution format.") error >>
          emit (SetIsGenerating false) >>
          ret None
      | Some distribution => ret (Some distribution)
      end
  | totalMarks_mode =>
      let found := Solver.findDistribution (settings c) (rnd_move o) in
      emit_all (snd found) >>
      match fst found with
      | None =>
          showToast (Tr "distributionGenerationFailed" (lang c)) error >>
          emit (SetIsGenerating false) >>
          ret None
      | Some distribution => ret (Some distribution)
      end
  end.

(** The non-AI branch. *)
Definition bank_branch (c : Component) (o : Oracle) (distribution : Distribution) : M unit :=
  let* result := generateFromBank c o distribution in
  match result with
  | ErrorRef err => showToast (Lit err) error
  | QuestionsRef qs =>
      let* paper := createPaper c o qs Manual in
      emit (SetGeneratedPaper (Some paper))
  end.

(** The AI branch: the inner [try]/[catch]. *)
Definition ai_branch (c : Component) (o : Oracle) (distribution : Distribution) : M unit :=
  try_catch (ai_try c o distribution) (ai_catch c o distribution).

Definition handleGenerate (c : Component) (o : Oracle) (useAI : bool) : M unit :=
  emit (SetIsGenerating true) >>
  emit (SetGeneratedPaper None) >>
  try_finally
    (try_catch
       (let* distribution := computeDistribution c o in
        match distribution with
        | None => ret tt
        | Some distribution =>
            if useAI then ai_branch c o distribution
            else bank_branch c o distribution
        end)
       (fun _ =>
          emit (ConsoleError "Error generating paper:") >>
          showToast (Lit "Paper generation failed. Check your settings.") error))
    (emit (SetIsGenerating false)).

(** What the fallback shows for an outcome of the bank sampling. *)
Definition fallback_events (c : Component) (o : Oracle) (r : Bank.Result) : list Event :=
  match r with
  | Bank.Error err => [ShowToast (Lit err) error]
  | Bank.Questions qs =>
      [SetGeneratedPaper (Some (paper_of c o qs Manual));
       ShowToast (Tr "fallbackSuccess" (lang c)) success]
  end.

End Generator.

(** The toasts and the papers shown by a run, in order. *)
Definition toasts_of (ev : list Event) : list (Message * ToastType) :=
  omap (fun e => match e with ShowToast m ty => Some (m, ty) | _ => None end) ev.

Definition papers_of (ev : list Event) : list (option (list Question)) :=
  omap (fun e => match e with
                 | SetGeneratedPaper p => Some (option_map p_questions p)
                 | _ => None
                 end) ev.

(* ===================================================================== *)
(** * The delay before AI requests                                        *)
(* ===================================================================== *)

Module Delay.

(** The request resolved with at least one question. *)
Definition produced_by (e : Event) : bool :=
  match e with
  | AICall _ _ (Resolved (_ :: _)) => true
  | _ => false
  end.

(** At least one question was produced by a request of [ev]. *)
Definition produced (ev : list Event) : bool := existsb produced_by ev.

Definition is_request (e : Event) : bool :=
  match e with
  | AICall _ _ _ => true
  | _ => false
  end.

(** The events end with the wait of 1500 ms. *)
Definition delayed (pre : list Event) : Prop :=
  exists pre', pre = pre' ++ [Timeout 1500].

(** Neither a wait nor a request. *)
Definition neutral (e : Event) : bool :=
  match e with
  | Timeout _ | AICall _ _ _ => false
  | _ => true
  end.

(** An observer of the run.  Its state: whether a question was produced so
    far, and whether a wait was just made.  It rejects a wait that is not
    of 1500 ms, that comes before any question was produced, or that is not
    followed at once by a request; and a request that is delayed when
    nothing was produced, or not delayed when something was. *)
Definition step (st : bool * bool) (e : Event) : option (bool * bool) :=
  match e with
  | Timeout ms =>
      if negb (snd st) && fst st && (ms =? 1500) then Some (fst st, true) else None
  | AICall _ _ _ =>
      if Bool.eqb (snd st) (fst st) then Some (fst st || produced_by e, false) else None
  | _ => if snd st then None else Some st
  end.

Fixpoint observe (st : bool * bool) (ev : list Event) : option (bool * bool) :=
  match ev with
  | [] => Some st
  | e :: rest =>
      match step st e with
      | Some st' => observe st' rest
      | None => None
      end
  end.

(** The waits and the requests of a run, in order: the length of a wait,
    or the count asked by a request and whether it produced a question. *)
Definition skeleton (ev : list Event) : list (Z + Z * bool) :=
  omap (fun e => match e with
                 | Timeout ms => Some (inl ms)
                 | AICall cr _ _ => Some (inr (c_count cr, produced_by e))
                 | _ => None
                 end) ev.

(** The events are accepted from the state "[p], no pending wait" and end
    in the state "[p'], no pending wait". *)
Definition accepted (p : bool) (ev : list Event) (p' : bool) : Prop :=
  observe (p, false) ev = Some (p', false).

End Delay.

(* ===================================================================== *)
(** * Concrete banks, settings and services used by the examples          *)
(* ===================================================================== *)

Definition demo_bank : list Question :=
  [mkq "a" 10 5 []; mkq "b" 10 5 []; mkq "c" 10 10 []; mkq "d" 9 5 []].

Definition demo_store : Run.Store :=
  {| Run.heap := [demo_bank]; Run.ai_calls := 0 |}.

Definition ai_settings (dist chapters : string) (types : list string) : GeneratorSettings :=
  {| markDistribution := dist; aiChapter := chapters; aiDifficulty := Moderate;
     aiKeywords := ""; aiQuestionType := types; aiGenerateAnswers := false;
     wbbseSyllabusOnly := true; generationMode := distribution_mode;
     totalMarks := "25"; allowedMarks := "1, 2, 3, 5" |}.

Definition demo_component (s : GeneratorSettings) : Component :=
  {| questions := 0%nat; selectedClass := 10; avoidPrevious := true; title := "";
     year := 2025; semester := First; settings := s; lang := en;
     userApiKey := "key" |}.

Definition oracle_with (ai : nat -> Criteria -> list Question -> AIResult) : Oracle :=
  {| rnd_move := always_first; shuffle := identity_shuffle;
     rnd_chapter := always_first; ai_service := ai;
     gen_id := fun call j => "gen-" +:+ JS.show (Z.of_nat call) +:+ "-" +:+ JS.show (Z.of_nat j);
     now := fun _ => "2025-01-01T00:00:00.000Z";
     json_parse := fun _ => None |}.

Definition one_item : GeneratedItem :=
  {| g_text := "What is a cell?"; g_answer := None; g_imageDataURL := None |}.

(** A service that answers every request with one question. *)
Definition ai_one : nat -> Criteria -> list Question -> AIResult :=
  fun _ _ _ => Resolved [one_item].

(** A service whose first answer is the empty batch. *)
Definition ai_empty_first : nat -> Criteria -> list Question -> AIResult :=
  fun call _ _ => match call with O => Resolved [] | _ => Resolved [one_item] end.

(** A failure that carries no quota signature. *)
Definition network_down : ErrorView :=
  {| ev_status := None; ev_code := None; ev_message := Some "Failed to fetch" |}.

Definition quota_exceeded : ErrorView :=
  {| ev_status := Some "RESOURCE_EXHAUSTED"; ev_code := Some 429;
     ev_message := Some "quota" |}.

Definition ai_down : nat -> Criteria -> list Question -> AIResult :=
  fun _ _ _ => Rejected (ThrownValue network_down).

Definition three_types : list string :=
  ["Short Answer"; "Multiple Choice"; "True/False"].

(** The events of a run that asks seven 2-mark questions over three types
    from a service that always answers. *)
Definition demo_events : list Event :=
  Run.events_of
    (Generator.handleGenerate (demo_component (ai_settings "7x2" "Cell" three_types))
       (oracle_with ai_one) true demo_store).

(* ===================================================================== *)
(** * The settings panel of the generator                                 *)
(* ===================================================================== *)

Module Panel.

(** [xs.includes(x)] on an array of strings. *)
Definition includes (xs : list string) (x : string) : bool :=
  existsb (String.eqb x) xs.

(** [['Multiple Choice', 'Fill in the Blanks', 'True/False'].includes(type)] *)
Definition requiresAnswer (type : string) : bool :=
  includes ["Multiple Choice"; "Fill in the Blanks"; "True/False"] type.

(** [handleQuestionTypeChange(type)]: the object handed to [setSettings]. *)
Definition handleQuestionTypeChange (s : GeneratorSettings) (type : string)
  : GeneratorSettings :=
  let isAdding := negb (includes (aiQuestionType s) type) in
  let newTypes :=
    if isAdding then aiQuestionType s ++ [type]
    else List.filter (fun t => negb (String.eqb t type)) (aiQuestionType s) in
  if isAdding && requiresAnswer type then
    {| markDistribution := markDistribution s; aiChapter := aiChapter s;
       aiDifficulty := aiDifficulty s; aiKeywords := aiKeywords s;
       aiQuestionType := newTypes; aiGenerateAnswers := true;
       wbbseSyllabusOnly := wbbseSyllabusOnly s; generationMode := generationMode s;
       totalMarks := totalMarks s; allowedMarks := allowedMarks s |}
  else
    {| markDistribution := markDistribution s; aiChapter := aiChapter s;
       aiDifficulty := aiDifficulty s; aiKeywords := aiKeywords s;
       aiQuestionType := newTypes; aiGenerateAnswers := aiGenerateAnswers s;
       wbbseSyllabusOnly := wbbseSyllabusOnly s; generationMode := generationMode s;
       totalMarks := totalMarks s; allowedMarks := allowedMarks s |}.

(** [handleClearAISettings()]: the object handed to [setSettings] and the
    toast. *)
Definition handleClearAISettings (s : GeneratorSettings) (lang : Language)
  : GeneratorSettings * list Event :=
  ({| markDistribution := markDistribution s; aiChapter := "";
      aiDifficulty := Moderate; aiKeywords := "";
      aiQuestionType := []; aiGenerateAnswers := false;
      wbbseSyllabusOnly := wbbseSyllabusOnly s; generationMode := generationMode s;
      totalMarks := totalMarks s; allowedMarks := allowedMarks s |},
   [ShowToast (Tr "aiSettingsCleared" lang) success]).

(** What [calculatedTotal] holds: the text of the total-marks field, or a
    number. *)
Inductive Total :=
| TotalText (text : string)
| TotalNumber (n : Z).

(** [calculatedTotal]: in total-marks mode the field as typed; otherwise the
    [reduce] over the parsed pairs.  Nothing in the [try] block throws, so
    the ['N/A'] of the [catch] is never the value. *)
Definition calculatedTotal (s : GeneratorSettings) : Total :=
  match generationMode s with
  | totalMarks_mode => TotalText (totalMarks s)
  | distribution_mode =>
      TotalNumber (fold_left (fun acc '(count, marks) => acc + count * marks)
                             (Parser.parse (markDistribution s)) 0)
  end.

End Panel.

(* ===================================================================== *)
(** * Export of a generated paper                                         *)
(* ===================================================================== *)

Module Exporter.

(** A string that may be [undefined], used as a condition. *)
Definition truthy (o : option string) : bool :=
  match o with
  | Some a => negb (String.eqb a "")
  | None => false
  end.

(** [qs.findIndex(pq => pq.id === id)], counted from [i]; [-1] when no
    element matches. *)
Fixpoint findIndex_from (i : Z) (id : string) (qs : list Question) : Z :=
  match qs with
  | [] => -1
  | pq :: rest =>
      if String.eqb (q_id pq) id then i else findIndex_from (i + 1) id rest
  end.

Definition findIndex (id : string) (qs : list Question) : Z :=
  findIndex_from 0 id qs.

Record QuestionRow := {
  qr_No : Z;
  qr_Question : string;
  qr_Marks : Z
}.

Record AnswerRow := {
  ar_No : Z;
  ar_Answer : option string
}.

(** [paper.questions.map((q, index) => ({ 'No.': index + 1, ... }))] *)
Definition questionData (paper : Paper) : list QuestionRow :=
  imap (fun index q =>
          {| qr_No := Z.of_nat index + 1;
             qr_Question := if truthy (q_imageDataURL q)
                            then "[Image-based question] " +:+ q_text q
                            else q_text q;
             qr_Marks := q_marks q |})
       (p_questions paper).

(** [paper.questions.filter(q => q.answer).map(q => ({ 'No.': ..., 'Answer': q.answer }))] *)
Definition answerData (paper : Paper) : list AnswerRow :=
  map (fun q => {| ar_No := findIndex (q_id q) (p_questions paper) + 1;
                   ar_Answer := q_answer q |})
      (List.filter (fun q => truthy (q_answer q)) (p_questions paper)).

(** [title.replace(/ /g, '_')] *)
Fixpoint replace_spaces (s : string) : string :=
  match s with
  | EmptyString => EmptyString
  | String ch rest =>
      String (if Ascii.eqb ch " "%char then "_"%char else ch) (replace_spaces rest)
  end.

Inductive Sheet :=
| QuestionSheet (rows : list QuestionRow)
| AnswerSheet (rows : list AnswerRow).

Record Workbook := {
  wb_sheets : list (string * Sheet);
  wb_fileName : string
}.

(** [handleExportXLSX(paper)]: the sheets appended to the workbook, in
    order, and the name of the file written. *)
Definition handleExportXLSX (paper : Paper) : Workbook :=
  let questionData := questionData paper in
  let answerData := answerData paper in
  {| wb_sheets :=
       ("Questions", QuestionSheet questionData) ::
       (if (0 <? length answerData)%nat
        then [("Answer Key", AnswerSheet answerData)] else []);
     wb_fileName := replace_spaces (p_title paper) +:+ ".xlsx" |}.

End Exporter.

(* ===================================================================== *)
(** * The application state behind the generator: bank and archive        *)
(* ===================================================================== *)

Module App.

(** The state read by the handlers of [App]: [session?.user] ([None] when
    signed out), [questions], [papers] and [lang]. *)
Record State := {
  session_user : option string;
  bank : list Question;
  papers : list Paper;
  language : Language
}.

(** What a handler does besides updating the state: a toast, a line on the
    console, or a request to the database that is not awaited,
    [supabase.from('questions').update({ used_in }).eq('id', id)]. *)
Inductive Effect :=
| Toast (m : Message) (ty : ToastType)
| Console (s : string)
| UpdateUsedIn (id : string) (used_in : list UsedIn).

(** The reply [{ data, error }] to [insert(...).select()] or
    [update(...).select()]: a failure ([error] set or [data] null), or the
    rows written, of which there is at least one; [data[0]] is [first]. *)
Inductive Rows (A : Type) :=
| Failed
| Written (first : A) (more : list A).
Arguments Failed {A}.
Arguments Written {A} first more.

(** The reply [{ error }] to [delete().match(...)]. *)
Inductive Deletion :=
| DeleteFailed
| Deleted.

(** [{ ...q, usedIn }] *)
Definition with_usedIn (q : Question) (usedIn : list UsedIn) : Question :=
  {| q_id := q_id q; q_class := q_class q; q_chapter := q_chapter q;
     q_text := q_text q; q_answer := q_answer q; q_marks := q_marks q;
     q_difficulty := q_difficulty q; q_usedIn := usedIn; q_source := q_source q;
     q_year := q_year q; q_semester := q_semester q; q_tags := q_tags q;
     q_imageDataURL := q_imageDataURL q |}.

Definition set_bank (st : State) (qs : list Question) : State :=
  {| session_user := session_user st; bank := qs; papers := papers st;
     language := language st |}.

Definition set_papers (st : State) (ps : list Paper) : State :=
  {| session_user := session_user st; bank := bank st; papers := ps;
     language := language st |}.

(** [questions.map(q => ids.includes(q.id) ? { ...q, usedIn: f(q) } : q)],
    each changed question being also sent to the database. *)
Definition update_usedIn (ids : list string) (f : Question -> list UsedIn)
           (qs : list Question) : list Question * list Effect :=
  (map (fun q => if Panel.includes ids (q_id q) then with_usedIn q (f q) else q) qs,
   omap (fun q => if Panel.includes ids (q_id q)
                  then Some (UpdateUsedIn (q_id q) (f q)) else None) qs).

(** [handleSavePaper(paper)], given the reply to the insertion. *)
Definition handleSavePaper (st : State) (paper : Paper) (reply : Rows Paper)
  : State * list Effect :=
  match session_user st with
  | None => (st, [])
  | Some _ =>
      match reply with
      | Failed =>
          (st, [Toast (Lit "Error saving paper.") error; Console "Error saving paper:"])
      | Written savedPaper _ =>
          let questionIdsToUpdate := map q_id (p_questions paper) in
          let updated :=
            update_usedIn questionIdsToUpdate
              (fun q => q_usedIn q ++
                        [ {| ui_year := p_year paper; ui_semester := p_semester paper;
                             ui_paperId := p_id savedPaper |} ])
              (bank st) in
          (set_papers (set_bank st (fst updated)) (savedPaper :: papers st),
           snd updated ++ [Toast (Tr "paperGenerated" (language st)) success])
      end
  end.

(** [papers.find(p => p.id === id)] *)
Definition find_paper (id : string) (ps : list Paper) : option Paper :=
  List.find (fun p => String.eqb (p_id p) id) ps.

(** [handleDeletePaper(id)], given the reply to the deletion. *)
Definition handleDeletePaper (st : State) (id : string) (reply : Deletion)
  : State * list Effect :=
  match session_user st with
  | None => (st, [])
  | Some _ =>
      match find_paper id (papers st) with
      | None => (st, [])
      | Some paperToDelete =>
          match reply with
          | DeleteFailed => (st, [Toast (Lit "Error deleting paper.") error])
          | Deleted =>
              let questionIdsToUpdate := map q_id (p_questions paperToDelete) in
              let updated :=
                update_usedIn questionIdsToUpdate
                  (fun q => List.filter
                              (fun use => negb (String.eqb (ui_paperId use) id))
                              (q_usedIn q))
                  (bank st) in
              (set_papers (set_bank st (fst updated))
                          (List.filter (fun p => negb (String.eqb (p_id p) id)) (papers st)),
               snd updated ++ [Toast (Tr "paperDeleted" (language st)) error])
          end
      end
  end.

(** [handleDeleteQuestion(id)], given the reply to the deletion. *)
Definition handleDeleteQuestion (st : State) (id : string) (reply : Deletion)
  : State * list Effect :=
  match session_user st with
  | None => (st, [])
  | Some _ =>
      match reply with
      | DeleteFailed => (st, [Toast (Lit "Error deleting question.") error])
      | Deleted =>
          (set_bank st (List.filter (fun q => negb (String.eqb (q_id q) id)) (bank st)),
           [Toast (Tr "questionDeleted" (language st)) error])
      end
  end.

(** [handleQuestionSubmit(questionData)], given [editingQuestion] and the
    reply to the update or to the insertion. *)
Definition handleQuestionSubmit (st : State) (editingQuestion : option Question)
           (questionData : Question) (reply : Rows Question) : State * list Effect :=
  match session_user st with
  | None => (st, [])
  | Some _ =>
      match editingQuestion with
      | Some _ =>
          match reply with
          | Failed => (st, [Toast (Lit "Error updating question.") error])
          | Written row _ =>
              (set_bank st (map (fun q => if String.eqb (q_id q) (q_id questionData)
                                          then row else q) (bank st)),
               [Toast (Tr "questionUpdated" (language st)) success])
          end
      | None =>
          match reply with
          | Failed =>
              (st, [Toast (Lit "Error adding question.") error;
                    Console "Error adding question:"])
          | Written row _ =>
              (set_bank st (row :: bank st),
               [Toast (Tr "questionAdded" (language st)) success])
          end
      end
  end.

(** A question with an entry of [usedIn] that names the paper [id]. *)
Definition refers_to (id : string) (q : Question) : bool :=
  existsb (fun use => String.eqb (ui_paperId use) id) (q_usedIn q).

End App.

(* ===================================================================== *)
(** * The archive: papers grouped by year, class and semester             *)
(* ===================================================================== *)

Module Archive.

(** The value of the enumeration [Semester] as it is rendered in a
    template literal. *)
Definition semester_text (s : Semester) : string :=
  match s with
  | First => "1"
  | Second => "2"
  | Third => "3"
  end.

Record PaperGroup := {
  pg_year : Z;
  pg_classNum : Z;
  pg_semester : Semester;
  pg_papers : list Paper
}.

(** [`${year}-${classNum}-${semester}`] *)
Definition key_of (year classNum : Z) (semester : Semester) : string :=
  JS.show year +:+ "-" +:+ JS.show classNum +:+ "-" +:+ semester_text semester.

Definition paper_key (paper : Paper) : string :=
  key_of (p_year paper) (p_class paper) (p_semester paper).

(** A [Record<string, PaperGroup>]: the keys, which hold two dashes and so
    are never array indices, are enumerated in the order of their first
    assignment. *)
Definition Groups := list (string * PaperGroup).

(** [acc[key]] *)
Fixpoint get (acc : Groups) (key : string) : option PaperGroup :=
  match acc with
  | [] => None
  | (k, g) :: rest => if String.eqb k key then Some g else get rest key
  end.

(** [acc[key] = g] *)
Fixpoint set (acc : Groups) (key : string) (g : PaperGroup) : Groups :=
  match acc with
  | [] => [(key, g)]
  | (k, g') :: rest =>
      if String.eqb k key then (k, g) :: rest else (k, g') :: set rest key g
  end.

(** [g.papers.push(paper)] *)
Definition push_paper (g : PaperGroup) (paper : Paper) : PaperGroup :=
  {| pg_year := pg_year g; pg_classNum := pg_classNum g;
     pg_semester := pg_semester g; pg_papers := pg_papers g ++ [paper] |}.

(** The callback of [papers.reduce]. *)
Definition add_paper (acc : Groups) (paper : Paper) : Groups :=
  let key := paper_key paper in
  let acc1 :=
    match get acc key with
    | None => set acc key {| pg_year := p_year paper; pg_classNum := p_class paper;
                             pg_semester := p_semester paper; pg_papers := [] |}
    | Some _ => acc
    end in
  match get acc1 key with
  | Some g => set acc1 key (push_paper g paper)
  | None => acc1
  end.

Definition groupedPapers (papers : list Paper) : Groups :=
  fold_left add_paper papers [].

(** The comparator [(a, b) => b.year - a.year || b.classNum - a.classNum]. *)
Definition compare (a b : PaperGroup) : Z :=
  if pg_year b - pg_year a =? 0 then pg_classNum b - pg_classNum a
  else pg_year b - pg_year a.

(** [xs.sort(cmp)] for a comparator that orders consistently: the sort is
    stable, so its result is the one arrangement in comparator order that
    keeps equal elements in their original order; here it is built by
    insertion from the right. *)
Fixpoint insert_sorted {A} (cmp : A -> A -> Z) (x : A) (l : list A) : list A :=
  match l with
  | [] => [x]
  | y :: rest =>
      if cmp x y <=? 0 then x :: y :: rest else y :: insert_sorted cmp x rest
  end.

Definition sort {A} (cmp : A -> A -> Z) (l : list A) : list A :=
  fold_right (insert_sorted cmp) [] l.

(** [Object.values(groupedPapers).sort(...)] *)
Definition sortedGroups (papers : list Paper) : list PaperGroup :=
  sort compare (map snd (groupedPapers papers)).

(** [expandAll]: the keys set to [true], one per sorted group. *)
Definition expandAll (papers : list Paper) : list string :=
  map (fun g => key_of (pg_year g) (pg_classNum g) (pg_semester g))
      (sortedGroups papers).

(** [uploadData.title.trim() ||
     (file.name.split('.').slice(0, -1).join('.') || file.name)] *)
Definition titleToUse (title fileName : string) : string :=
  if negb (String.eqb (JS.trim title) "") then JS.trim title
  else
    let stem := JS.join "." (Bank.slice0 (JS.split "."%char fileName) (-1)) in
    if negb (String.eqb stem "") then stem else fileName.

(** The group that belongs under the key [k] for the papers [seen]: the
    papers of [seen] with that key, in their order, under the year, class
    and semester of the first of them; no group when there is none. *)
Definition group_of (seen : list Paper) (k : string) : option PaperGroup :=
  match List.filter (fun p => String.eqb (paper_key p) k) seen with
  | [] => None
  | p :: rest =>
      Some {| pg_year := p_year p; pg_classNum := p_class p;
              pg_semester := p_semester p; pg_papers := p :: rest |}
  end.

Definition same_semester (a b : Semester) : bool :=
  match a, b with
  | First, First | Second, Second | Third, Third => true
  | _, _ => false
  end.

(** The paper has the year, the class and the semester of the group. *)
Definition belongs_to (g : PaperGroup) (p : Paper) : bool :=
  (p_year p =? pg_year g) && (p_class p =? pg_classNum g) &&
  same_semester (p_semester p) (pg_semester g).

(** Only decimal digits. *)
Fixpoint digits_only (s : string) : bool :=
  match s with
  | EmptyString => true
  | String ch rest =>
      match JS.digit_of ch with
      | Some _ => digits_only rest
      | None => false
      end
  end.

(** The distinct keys of a sequence in the order of their first
    occurrence: the head, then the first occurrences of the rest without the
    head. *)
Fixpoint first_keys (keys : list string) : list string :=
  match keys with
  | [] => []
  | k :: rest => k :: List.filter (fun k' => negb (String.eqb k' k)) (first_keys rest)
  end.

(** Both groups stand at the same place of the order. *)
Definition same_rank (a b : PaperGroup) : bool :=
  (pg_year a =? pg_year b) && (pg_classNum a =? pg_classNum b).

End Archive.

(* ===================================================================== *)
(** * The question form (src/components/QuestionForm.tsx)                 *)
(* ===================================================================== *)

Module QuestionForm.

(** The state [formData]; the numeric fields hold the numbers chosen in
    the selects. *)
Record FormData := {
  f_class : Z;
  f_chapter : string;
  f_text : string;
  f_answer : string;
  f_marks : Z;
  f_difficulty : Difficulty;
  f_year : Z;
  f_semester : Semester;
  f_tags : string
}.

(** [x || ''] *)
Definition or_empty (o : option string) : string :=
  match o with
  | Some a => a
  | None => ""
  end.

(** [x || null], [x || undefined] *)
Definition or_nothing (o : option string) : option string :=
  if Exporter.truthy o then o else None.

(** The form filled by the effect that runs when [initialData] is set:
    [formData] and [imageDataURL]. *)
Definition fill (initialData : Question) : FormData * option string :=
  ({| f_class := q_class initialData; f_chapter := q_chapter initialData;
      f_text := q_text initialData; f_answer := or_empty (q_answer initialData);
      f_marks := q_marks initialData; f_difficulty := q_difficulty initialData;
      f_year := q_year initialData; f_semester := q_semester initialData;
      f_tags := JS.join ", " (q_tags initialData) |},
   or_nothing (q_imageDataURL initialData)).

(** [handleSubmit]: the question handed to [onSubmit]; [now] is
    [new Date().toISOString()]. *)
Definition handleSubmit (formData : FormData) (imageDataURL : option string)
           (initialData : option Question) (now : string) : Question :=
  {| q_class := f_class formData; q_chapter := f_chapter formData;
     q_text := f_text formData; q_answer := Some (f_answer formData);
     q_marks := f_marks formData; q_difficulty := f_difficulty formData;
     q_year := f_year formData; q_semester := f_semester formData;
     q_id := match initialData with
             | Some q => if String.eqb (q_id q) "" then now else q_id q
             | None => now
             end;
     q_usedIn := match initialData with
                 | Some q => q_usedIn q
                 | None => []
                 end;
     q_source := match initialData with
                 | Some q => q_source q
                 | None => Manual
                 end;
     q_tags := Generator.nonempty_items (f_tags formData);
     q_imageDataURL := or_nothing imageDataURL |}.

(** [s.includes(ch)] for one character. *)
Fixpoint has_char (ch : ascii) (s : string) : bool :=
  match s with
  | EmptyString => false
  | String c rest => Ascii.eqb c ch || has_char ch rest
  end.

(** A tag as the form can give it back: not empty, without a comma, and
    with no white space at either end. *)
Definition clean_tag (t : string) : Prop :=
  t <> EmptyString /\ JS.trim t = t /\ has_char ","%char t = false.

End QuestionForm.

(* ===================================================================== *)
(** * Vocabulary for the events and the requests of a run                 *)
(* ===================================================================== *)

(** Neither a wait, nor a request, nor a paper. *)
Definition quiet (e : Event) : bool :=
  match e with
  | Timeout _ | AICall _ _ _ | SetGeneratedPaper _ => false
  | _ => true
  end.

(** The papers shown by a run, in order. *)
Definition shown_papers (ev : list Event) : list Paper :=
  omap (fun e => match e with
                 | SetGeneratedPaper (Some p) => Some p
                 | _ => None
                 end) ev.

Module Requests.

(** [aiChapters[Math.floor(Math.random() * aiChapters.length)]] as drawn
    for the request numbered [call]. *)
Definition chapter_for (o : Oracle) (aiChapters : list string) (call : nat) : string :=
  nth (JS.random_index (rnd_chapter o call) (length aiChapters)) aiChapters "".

(** The criteria object of the request numbered [call]. *)
Definition criteria_for (c : Component) (o : Oracle) (aiChapters : list string)
           (call : nat) (marks : Z) (request : Partition.Request) : Criteria :=
  {| c_class := selectedClass c;
     c_chapter := chapter_for o aiChapters call;
     c_marks := marks;
     c_difficulty := aiDifficulty (settings c);
     c_count := Partition.r_count request;
     c_questionType := Partition.r_type request;
     c_keywords := aiKeywords (settings c);
     c_generateAnswer := aiGenerateAnswers (settings c);
     c_wbbseSyllabusOnly := wbbseSyllabusOnly (settings c);
     c_lang := lang c |}.

(** The questions made from the answer to the request numbered [call]:
    none when the request is rejected. *)
Definition fresh_of (c : Component) (o : Oracle) (aiChapters : list string)
           (call : nat) (marks : Z) (r : AIResult) : list Question :=
  match r with
  | Resolved batch =>
      Generator.newQuestions c o call (chapter_for o aiChapters call) marks batch
  | Rejected _ => []
  end.

(** The events of one request made when [finalQuestions] holds [acc]. *)
Definition request_events (acc : list Question) (cr : Criteria)
           (pl : list Question) (r : AIResult) : list Event :=
  (if (0 <? length acc)%nat then [Timeout 1500] else []) ++ [AICall cr pl r].

(** The requests of a run, in order, each with the mark value of its
    group. *)
Definition all_requests (s : GeneratorSettings) (d : Distribution)
  : list (Z * Partition.Request) :=
  flat_map (fun '(count, marks) => map (pair marks) (Partition.group_requests s count)) d.

(** The request belongs to a group of the distribution worth [marks]. *)
Definition from_a_group (s : GeneratorSettings) (d : Distribution)
           (marks : Z) (request : Partition.Request) : Prop :=
  exists count, In (count, marks) d /\ In request (Partition.group_requests s count).

(** The initial [existingQuestionPool] of the AI path. *)
Definition initial_pool (c : Component) (bank : list Question) : list Question :=
  List.filter (fun q => (q_class q =? selectedClass c) &&
                        (if avoidPrevious c then Bank.unused q else true)) bank.

(** The number of questions in the answer to a request. *)
Definition batch_size (r : AIResult) : nat :=
  match r with
  | Resolved batch => length batch
  | Rejected _ => 0%nat
  end.

(** The number of questions that the requests of [ev] produced. *)
Fixpoint produced_count (ev : list Event) : nat :=
  match ev with
  | [] => 0%nat
  | AICall _ _ r :: rest => (batch_size r + produced_count rest)%nat
  | _ :: rest => produced_count rest
  end.

(** Each request of [ev] is handed the pool of the bank followed by the
    first questions of [qs], as many as the requests before it produced;
    [n] counts those produced before [ev]. *)
Fixpoint pools_grow (pool0 qs : list Question) (n : nat) (ev : list Event) : Prop :=
  match ev with
  | [] => True
  | AICall _ existing r :: rest =>
      existing = pool0 ++ take n qs /\ pools_grow pool0 qs (n + batch_size r) rest
  | _ :: rest => pools_grow pool0 qs n rest
  end.

(** The last event is the request rejected with [e]. *)
Definition rejected_last (e : Thrown) (ev : list Event) : Prop :=
  exists pre cr pl, ev = pre ++ [AICall cr pl (Rejected e)].

(** No request of [ev] was rejected. *)
Definition all_resolved (ev : list Event) : Prop :=
  Forall (fun e => match e with
                   | AICall _ _ (Rejected _) => False
                   | _ => True
                   end) ev.

(** What a question of a generated paper is, for the distribution [d] and
    the chapters [aiChapters]. *)
Definition generated_for (c : Component) (aiChapters : list string) (d : Distribution)
           (q : Question) : Prop :=
  q_class q = selectedClass c /\ q_usedIn q = [] /\ q_source q = Generated /\
  In (q_chapter q) aiChapters /\
  (exists count, In (count, q_marks q) d /\ 0 < count) /\
  q_difficulty q = aiDifficulty (settings c) /\
  q_year q = year c /\ q_semester q = semester c /\
  q_tags q = Generator.nonempty_items (aiKeywords (settings c)).

(** What the criteria of a request are, for the distribution [d] and the
    chapters [aiChapters]. *)
Definition criteria_follow (c : Component) (aiChapters : list string) (d : Distribution)
           (cr : Criteria) : Prop :=
  c_class cr = selectedClass c /\
  In (c_chapter cr) aiChapters /\
  (exists count, In (count, c_marks cr) d /\ 0 < c_count cr <= count) /\
  (exists ty, c_questionType cr = Some ty /\
              In ty (Partition.selectedTypes (settings c))) /\
  c_difficulty cr = aiDifficulty (settings c) /\
  c_keywords cr = aiKeywords (settings c) /\
  c_generateAnswer cr = aiGenerateAnswers (settings c) /\
  c_wbbseSyllabusOnly cr = wbbseSyllabusOnly (settings c) /\
  c_lang cr = lang c.

End Requests.

(** A service that answers every request with as many questions as it
    asks for. *)
Definition ai_exact : nat -> Criteria -> list Question -> AIResult :=
  fun _ cr _ => Resolved (replicate (Z.to_nat (c_count cr)) one_item).

(** An archive of three papers, two of them of the same year, class and
    semester. *)
Definition archived (id : string) (year cls : Z) (sem : Semester) : Paper :=
  {| p_id := id; p_title := id; p_year := year; p_class := cls; p_semester := sem;
     p_source := Manual; p_questions := []; p_createdAt := "2025-01-01T00:00:00.000Z" |}.

Definition demo_archive : list Paper :=
  [archived "p1" 2024 10 First; archived "p2" 2023 9 Second; archived "p3" 2024 10 First].

Example parseInt_examples :
  JS.parseInt "25" = Some 25 /\ JS.parseInt " -1" = Some (-1) /\
  JS.parseInt "garbage" = None /\ JS.parseInt "" = None /\
  JS.parseInt "12px" = Some 12 /\ JS.parseInt "+7" = Some 7 /\
  JS.parseInt "-" = None.
Proof. repeat split; reflexivity. Qed.

Example split_examples :
  JS.split ","%char "" = [""] /\ JS.split ","%char "a,b" = ["a"; "b"] /\
  JS.split ","%char "a," = ["a"; ""] /\ JS.split "x"%char "3x-1" = ["3"; "-1"].
Proof. repeat split; reflexivity. Qed.

Example show_examples :
  JS.show 0 = "0" /\ JS.show 12 = "12" /\ JS.show (-5) = "-5".
Proof. repeat split; reflexivity. Qed.

Example solver_examples :
  Solver.run (settings_with totalMarks_mode "" "7" "2,5") always_first = Solver.Solved [(1, 2); (1, 5)] /\
  Solver.run (settings_with totalMarks_mode "" "7" "2,5") always_last = Solver.Solved [(1, 5); (1, 2)] /\
  Solver.run (settings_with totalMarks_mode "" "3" "2") always_first = Solver.Infeasible /\
  Solver.run (settings_with totalMarks_mode "" "10" "1, 2, 5") always_last = Solver.Solved [(2, 5)] /\
  Solver.run (settings_with totalMarks_mode "" "10" "1, 2, 5") always_first = Solver.Solved [(10, 1)] /\
  Solver.run (settings_with totalMarks_mode "" "0" "1, 2, 5") always_first = Solver.Invalid /\
  Solver.run (settings_with totalMarks_mode "" "5" "0, 5") always_first = Solver.Solved [(1, 5)].
Proof. repeat split; vm_compute; reflexivity. Qed.

(* ===================================================================== *)
(** * The solver: table construction, walk and tally                      *)
(* ===================================================================== *)

Section SolverFacts.
Import Solver.

Lemma unique_from_In seen xs x :
  In x (JS.unique_from seen xs) -> In x xs.
Proof.
  revert seen. induction xs as [|y r IH]; intros seen; simpl; [tauto|].
  destruct (existsb (Z.eqb y) seen); simpl; intros H.
  - right. eauto.
  - destruct H as [->|H]; [now left | right; eauto].
Qed.

Lemma unique_from_complete seen xs x :
  In x xs -> existsb (Z.eqb x) seen = false -> In x (JS.unique_from seen xs).
Proof.
  revert seen. induction xs as [|y r IH]; intros seen; simpl; [tauto|].
  intros [->|Hin] Hseen.
  - rewrite Hseen. now left.
  - destruct (existsb (Z.eqb y) seen) eqn:E; [now apply IH|].
    destruct (Z.eq_dec x y) as [->|Hne]; [now left|].
    right. apply IH; [assumption|]. simpl.
    destruct (Z.eqb_spec x y); [contradiction|]. assumption.
Qed.

Lemma unique_In xs x : In x (JS.unique xs) <-> In x xs.
Proof.
  split; [apply unique_from_In|].
  intros H. now apply unique_from_complete.
Qed.

Lemma keep_positive_In ms v :
  In v (keep_positive ms) <-> In (Some v) ms /\ 0 < v.
Proof.
  unfold keep_positive. induction ms as [|[w|] r IH]; simpl.
  - tauto.
  - destruct (Z.gtb_spec w 0); simpl; rewrite IH; split.
    + intros [->|[? ?]]; [split; [now left|lia] | split; [now right|assumption]].
    + intros [[E|?] ?]; [left; congruence | right; tauto].
    + intros [? ?]; split; [now right | assumption].
    + intros [[E|?] ?]; [inversion E; subst; lia | tauto].
  - rewrite IH. split; [intros [? ?]; split; [now right|assumption]|].
    intros [[E|?] ?]; [discriminate | tauto].
Qed.

Lemma uniqueMarks_positive s m : In m (uniqueMarks s) -> 0 < m.
Proof.
  unfold uniqueMarks. rewrite unique_In, keep_positive_In. tauto.
Qed.

Lemma reachable_same marks marks' t :
  (forall m, In m marks -> In m marks') ->
  reachable marks t -> reachable marks' t.
Proof.
  intros Hsub H. induction H; [constructor|].
  apply reach_add; auto.
Qed.

Lemma reachable_nonneg marks t : reachable marks t -> 0 <= t.
Proof. induction 1; lia. Qed.

(** A positive total is reachable exactly when a last mark can be removed. *)
Lemma reachable_step marks t :
  0 < t ->
  (reachable marks t <->
   exists m, In m marks /\ 0 < m /\ m <= t /\ reachable marks (t - m)).
Proof.
  intros Ht. split.
  - intros H. inversion H as [E | t0 m Hin Hm Hr E]; [lia|].
    exists m. pose proof (reachable_nonneg _ _ Hr).
    repeat split; try assumption; try lia.
    replace (t0 + m - m) with t0 by lia. assumption.
  - intros (m & Hin & Hm & Hle & Hr).
    replace t with ((t - m) + m) by lia. now apply reach_add.
Qed.

(** ** The table *)

Lemma dp_row_length dp i marks : length (dp_row dp i marks) = length dp.
Proof.
  induction marks as [|m r IH]; simpl; [reflexivity|].
  destruct ((i >=? m) && dp_get dp (i - m)); [apply length_insert | exact IH].
Qed.

Lemma dp_get_insert_ne dp (i : nat) j b :
  j <> Z.of_nat i -> dp_get (<[i := b]> dp) j = dp_get dp j.
Proof.
  intros Hne. unfold dp_get. destruct (j <? 0) eqn:E; [reflexivity|].
  apply Z.ltb_ge in E. rewrite list_lookup_insert_ne; [reflexivity|lia].
Qed.

Lemma dp_get_insert_eq dp (i : nat) b :
  (i < length dp)%nat -> dp_get (<[i := b]> dp) (Z.of_nat i) = b.
Proof.
  intros Hlt. unfold dp_get.
  destruct (Z.ltb_spec (Z.of_nat i) 0); [lia|].
  rewrite Nat2Z.id, list_lookup_insert_eq; [reflexivity | assumption].
Qed.

Lemma dp_row_other dp i marks j :
  0 <= i -> j <> i -> dp_get (dp_row dp i marks) j = dp_get dp j.
Proof.
  intros Hi Hne. induction marks as [|m r IH]; simpl; [reflexivity|].
  destruct ((i >=? m) && dp_get dp (i - m)); [|exact IH].
  apply dp_get_insert_ne. lia.
Qed.

Lemma dp_row_at dp i marks :
  0 <= i -> (Z.to_nat i < length dp)%nat ->
  dp_get (dp_row dp i marks) i =
  dp_get dp i || existsb (fun m => (i >=? m) && dp_get dp (i - m)) marks.
Proof.
  intros Hi Hlen. induction marks as [|m r IH]; simpl.
  - now rewrite orb_false_r.
  - destruct ((i >=? m) && dp_get dp (i - m)) eqn:E; simpl.
    + rewrite orb_true_r.
      rewrite <- (Z2Nat.id i) at 2 by assumption.
      now apply dp_get_insert_eq.
    + exact IH.
Qed.

Lemma dp_prefix_S target marks k :
  dp_prefix target marks (S k) =
  dp_row (dp_prefix target marks k) (Z.of_nat (S k)) marks.
Proof.
  unfold dp_prefix. rewrite seq_S, fold_left_app. reflexivity.
Qed.

Lemma dp_prefix_length target marks k :
  length (dp_prefix target marks k) = Z.to_nat (target + 1).
Proof.
  induction k as [|k IH].
  - unfold dp_prefix. simpl. now rewrite length_insert, length_replicate.
  - rewrite dp_prefix_S, dp_row_length. exact IH.
Qed.

Lemma dp_get_init target j :
  0 <= target ->
  dp_get (<[0%nat := true]> (replicate (Z.to_nat (target + 1)) false)) j =
  (j =? 0).
Proof.
  intros Ht. destruct (Z.eqb_spec j 0) as [->|Hne].
  - apply (dp_get_insert_eq _ 0 true). rewrite length_replicate. lia.
  - rewrite dp_get_insert_ne by (simpl; lia).
    unfold dp_get. destruct (j <? 0); [reflexivity|].
    destruct (replicate _ _ !! _) as [b|] eqn:E; [|reflexivity].
    apply lookup_replicate in E. simpl. tauto.
Qed.

(** After [k] rounds of the outer loop the table is exact up to [k] and
    still [false] above. *)
Lemma dp_prefix_spec target marks k :
  0 <= target -> (forall m, In m marks -> 0 < m) ->
  Z.of_nat k <= target ->
  (forall j, 0 <= j <= Z.of_nat k ->
     (dp_get (dp_prefix target marks k) j = true <-> reachable marks j)) /\
  (forall j, Z.of_nat k < j -> dp_get (dp_prefix target marks k) j = false).
Proof.
  intros Ht Hpos. induction k as [|k IH]; intros Hk.
  - unfold dp_prefix. simpl. split.
    + intros j Hj. assert (j = 0) as -> by lia.
      rewrite dp_get_init by assumption. simpl. split; [constructor | reflexivity].
    + intros j Hj. rewrite dp_get_init by assumption.
      destruct (Z.eqb_spec j 0); [lia | reflexivity].
  - destruct IH as [IHlo IHhi]; [lia|].
    rewrite dp_prefix_S. set (i := Z.of_nat (S k)) in *.
    assert (Hi : 0 < i) by (unfold i; lia).
    split.
    + intros j Hj. destruct (Z.eq_dec j i) as [->|Hne].
      * rewrite dp_row_at; [|lia|rewrite dp_prefix_length; lia].
        rewrite IHhi by lia. simpl.
        rewrite reachable_step by assumption. rewrite existsb_exists.
        split.
        -- intros (m & Hin & Hm). apply andb_true_iff in Hm as [Hge Hdp].
           apply Z.geb_le in Hge. pose proof (Hpos m Hin).
           exists m. repeat split; try assumption.
           apply IHlo; [lia | assumption].
        -- intros (m & Hin & Hm & Hle & Hr). exists m. split; [assumption|].
           apply andb_true_iff. split; [apply Z.geb_le; lia|].
           apply IHlo; [lia | assumption].
      * rewrite dp_row_other by lia. apply IHlo. lia.
    + intros j Hj. rewrite dp_row_other by lia. apply IHhi. lia.
Qed.

Lemma build_dp_spec target marks j :
  0 <= target -> (forall m, In m marks -> 0 < m) -> 0 <= j <= target ->
  (dp_get (build_dp target marks) j = true <-> reachable marks j).
Proof.
  intros Ht Hpos Hj.
  destruct (dp_prefix_spec target marks (Z.to_nat target) Ht Hpos) as [H _]; [lia|].
  apply H. lia.
Qed.

End SolverFacts.

Section WalkFacts.
Import Solver.

Lemma sumZ_app l1 l2 : sumZ (l1 ++ l2) = sumZ l1 + sumZ l2.
Proof. induction l1 as [|x r IH]; simpl; [reflexivity | rewrite IH; lia]. Qed.

Lemma possibleMoves_In dp marks cur m :
  In m (possibleMoves dp marks cur) <->
  In m marks /\ m <= cur /\ dp_get dp (cur - m) = true.
Proof.
  unfold possibleMoves. rewrite filter_In, andb_true_iff, Z.geb_le. tauto.
Qed.

Lemma random_index_lt u n : (0 < n)%nat -> (JS.random_index u n < n)%nat.
Proof.
  intros Hn. unfold JS.random_index.
  apply Nat.Div0.div_lt_upper_bound. nia.
Qed.

(** Every index of the array can be drawn. *)
Lemma random_index_complete i n :
  (i < n)%nat -> exists u, JS.random_index u n = i.
Proof.
  intros Hi. exists {| JS.us_num := i; JS.us_gap := n - i - 1 |}.
  unfold JS.random_index. simpl.
  replace (i + (n - i - 1) + 1)%nat with n by lia.
  apply Nat.div_mul. lia.
Qed.

(** The move drawn at a step is one of the possible moves. *)
Lemma randomMove_In u moves :
  moves <> [] -> In (nth (JS.random_index u (length moves)) moves 0) moves.
Proof.
  intros Hne. apply nth_In. apply random_index_lt.
  destruct moves; [contradiction | simpl; lia].
Qed.

Lemma length_eqb_0 {A} (l : list A) : (length l =? 0)%nat = true <-> l = [].
Proof. destruct l; simpl; split; congruence. Qed.

(** Whatever the walk returns sums, with what is left, to the start. *)
Lemma walk_sum fuel dp marks rnd k cur acc res :
  0 <= cur ->
  walk fuel dp marks rnd k cur acc = Finished res ->
  sumZ res = sumZ acc + cur.
Proof.
  revert k cur acc. induction fuel as [|fuel IH]; intros k cur acc Hcur; simpl.
  - destruct (Z.gtb_spec cur 0); [discriminate|].
    intros [= <-]. lia.
  - destruct (Z.gtb_spec cur 0).
    + destruct (length (possibleMoves dp marks cur) =? 0)%nat eqn:E; [discriminate|].
      assert (Hne : possibleMoves dp marks cur <> []).
      { intros H0. apply length_eqb_0 in H0. congruence. }
      pose proof (randomMove_In (rnd k) _ Hne) as Hin.
      apply possibleMoves_In in Hin as (_ & Hle & _).
      intros Hw. apply IH in Hw; [|lia].
      rewrite Hw, sumZ_app. simpl. lia.
    + intros [= <-]. lia.
Qed.

(** With an exact table and a reachable start, the walk finishes: it is
    never stuck and never runs past [cur] iterations. *)
Lemma walk_finishes target marks dp :
  (forall m, In m marks -> 0 < m) ->
  (forall j, 0 <= j <= target -> (dp_get dp j = true <-> reachable marks j)) ->
  forall fuel rnd k cur acc,
    0 <= cur <= target -> cur <= Z.of_nat fuel ->
    dp_get dp cur = true ->
    exists res, walk fuel dp marks rnd k cur acc = Finished res.
Proof.
  intros Hpos Hdp. induction fuel as [|fuel IH]; intros rnd k cur acc Hcur Hfuel Hreach.
  - simpl. destruct (Z.gtb_spec cur 0); [lia | eauto].
  - simpl. destruct (Z.gtb_spec cur 0); [|eauto].
    assert (Hne : possibleMoves dp marks cur <> []).
    { apply Hdp in Hreach; [|lia].
      apply reachable_step in Hreach as (m & Hin & Hm & Hle & Hr); [|lia].
      intros H0. assert (Hm' : In m (possibleMoves dp marks cur)).
      { apply possibleMoves_In. repeat split; try assumption.
        apply Hdp; [lia | assumption]. }
      rewrite H0 in Hm'. contradiction. }
    destruct (length (possibleMoves dp marks cur) =? 0)%nat eqn:E.
    { apply length_eqb_0 in E. contradiction. }
    pose proof (randomMove_In (rnd k) _ Hne) as Hin.
    apply possibleMoves_In in Hin as (Hin & Hle & Hget).
    pose proof (Hpos _ Hin).
    apply IH; [lia | lia | assumption].
Qed.

(** ** The tally *)

Lemma map_total_set m k :
  map_total (JS.map_set m k (JS.or_zero (JS.map_get m k) + 1)) = map_total m + k.
Proof.
  induction m as [|[k' v] r IH]; simpl; [lia|].
  destruct (Z.eqb_spec k' k) as [->|Hne]; simpl; [lia|].
  rewrite IH. lia.
Qed.

Lemma tally_total_from l m :
  map_total (fold_left (fun m mark =>
               JS.map_set m mark (JS.or_zero (JS.map_get m mark) + 1)) l m)
  = map_total m + sumZ l.
Proof.
  revert m. induction l as [|x r IH]; intros m; simpl; [lia|].
  rewrite IH, map_total_set. lia.
Qed.

Lemma to_distribution_total m : total_of (to_distribution m) = map_total m.
Proof.
  induction m as [|[k v] r IH]; simpl; [reflexivity|]. now rewrite IH.
Qed.

Lemma tally_total l : total_of (to_distribution (tally l)) = sumZ l.
Proof.
  rewrite to_distribution_total. unfold tally. now rewrite tally_total_from.
Qed.

Lemma run_Solved_inv s rnd d :
  run s rnd = Solved d ->
  exists t res,
    target s = Some t /\ 0 < t /\
    walk (Z.to_nat t) (build_dp t (uniqueMarks s)) (uniqueMarks s) rnd 0 t [] = Finished res /\
    d = to_distribution (tally res).
Proof.
  unfold run. destruct (target s) as [t|]; [|discriminate].
  destruct (Z.leb_spec t 0); simpl; [discriminate|].
  destruct (length (uniqueMarks s) =? 0)%nat; [discriminate|].
  destruct (negb _); [discriminate|].
  destruct (walk _ _ _ _ _ _ _) as [res| |] eqn:E; try discriminate.
  intros [= <-]. exists t, res. auto.
Qed.

Lemma findDistribution_Some s rnd d :
  fst (findDistribution s rnd) = Some d <-> run s rnd = Solved d.
Proof.
  unfold findDistribution. destruct (run s rnd); simpl; split; congruence.
Qed.

(** On well-formed inputs the run is decided by reachability alone. *)
Lemma run_wellformed s rnd t :
  target s = Some t -> 0 < t -> uniqueMarks s <> [] ->
  (reachable (uniqueMarks s) t -> exists d, run s rnd = Solved d) /\
  (~ reachable (uniqueMarks s) t -> run s rnd = Infeasible) /\
  ((exists d, run s rnd = Solved d) \/ run s rnd = Infeasible).
Proof.
  intros Ht Hpos Hne. unfold run. rewrite Ht.
  destruct (Z.leb_spec t 0); [lia|]. simpl.
  destruct (length (uniqueMarks s) =? 0)%nat eqn:E.
  { apply length_eqb_0 in E. contradiction. }
  pose proof (fun j => build_dp_spec t (uniqueMarks s) j ltac:(lia)
                         (uniqueMarks_positive s)) as Hdp.
  destruct (dp_get (build_dp t (uniqueMarks s)) t) eqn:Hget; simpl.
  - destruct (walk_finishes t (uniqueMarks s) _ (uniqueMarks_positive s) Hdp
                (Z.to_nat t) rnd 0%nat t []) as [res ->]; [lia|lia|assumption|].
    split; [eauto|]. split; [|eauto].
    intros Hn. exfalso. apply Hn, Hdp; [lia|assumption].
  - split; [|split; [reflexivity | now right]].
    intros Hr. apply Hdp in Hr; [congruence | lia].
Qed.

End WalkFacts.

(** C1 (solver feasibility soundness): whenever [findDistribution] returns a
    distribution rather than [null], the total-marks field parses to a
    positive target and the sum of [count * markValue] over the returned
    pairs equals that target exactly. *)
Theorem findDistribution_sound (s : GeneratorSettings) (rnd : nat -> JS.unit_sample)
    (d : Distribution) :
  fst (Solver.findDistribution s rnd) = Some d ->
  exists target, Solver.target s = Some target /\ 0 < target /\ total_of d = target.
Proof.
  intros H. apply findDistribution_Some, run_Solved_inv in H.
  destruct H as (t & res & Ht & Hpos & Hw & ->).
  exists t. repeat split; try assumption.
  rewrite tally_total. apply walk_sum in Hw; [|lia]. simpl in Hw. lia.
Qed.

Lemma findDistribution_sound_witness :
  exists target,
    Solver.target (settings_with totalMarks_mode "" "7" "2,5") = Some target /\
    0 < target /\ total_of [(1, 2); (1, 5)] = target.
Proof.
  apply (findDistribution_sound (settings_with totalMarks_mode "" "7" "2,5")
           always_first [(1, 2); (1, 5)]).
  vm_compute. reflexivity.
Defined.

(** C2 (solver completeness, unreachable stuck branch): on every input the
    run is neither stuck in the reconstruction loop nor past its iteration
    bound; and when the target is positive and is a sum of positive allowed
    marks, [findDistribution] returns a distribution, with no effect. *)
Theorem findDistribution_complete (s : GeneratorSettings) (rnd : nat -> JS.unit_sample) :
  (Solver.run s rnd <> Solver.Stuck /\ Solver.run s rnd <> Solver.Diverged) /\
  (forall target,
      Solver.target s = Some target -> 0 < target ->
      Solver.reachable (Solver.keep_positive (Solver.parsedMarks s)) target ->
      exists d, Solver.findDistribution s rnd = (Some d, [])).
Proof.
  split.
  - destruct (Solver.target s) as [t|] eqn:Ht;
      [|unfold Solver.run; rewrite Ht; split; discriminate].
    destruct (Z.leb_spec t 0) as [Hle|Hpos].
    { unfold Solver.run. rewrite Ht.
      destruct (Z.leb_spec t 0); [simpl; split; discriminate | lia]. }
    destruct (Solver.uniqueMarks s) as [|m0 r] eqn:Hu.
    { unfold Solver.run. rewrite Ht, Hu. simpl. rewrite orb_true_r.
      split; discriminate. }
    assert (Hne : Solver.uniqueMarks s <> []) by (rewrite Hu; discriminate).
    destruct (run_wellformed s rnd t Ht Hpos Hne) as (_ & _ & [[d ->] | ->]);
      split; discriminate.
  - intros t Ht Hpos Hr.
    assert (Hr' : Solver.reachable (Solver.uniqueMarks s) t).
    { eapply reachable_same; [|exact Hr]. intros m. unfold Solver.uniqueMarks.
      now rewrite unique_In. }
    assert (Hne : Solver.uniqueMarks s <> []).
    { intros H0. rewrite H0 in Hr'.
      apply reachable_step in Hr' as (m & [] & _); lia. }
    destruct (run_wellformed s rnd t Ht Hpos Hne) as (Hyes & _ & _).
    destruct (Hyes Hr') as [d Hd]. exists d.
    unfold Solver.findDistribution. now rewrite Hd.
Qed.

Lemma findDistribution_complete_witness :
  exists d,
    Solver.findDistribution (settings_with totalMarks_mode "" "7" "2,5") always_first
    = (Some d, []).
Proof.
  apply (proj2 (findDistribution_complete
                  (settings_with totalMarks_mode "" "7" "2,5") always_first) 7).
  - reflexivity.
  - lia.
  - change 7 with (0 + 2 + 5).
    apply Solver.reach_add; [vm_compute; tauto | lia |].
    apply Solver.reach_add; [vm_compute; tauto | lia |].
    apply Solver.reach_zero.
Defined.

Lemma unique_nil xs : JS.unique xs = [] <-> xs = [].
Proof.
  destruct xs as [|x r]; [tauto|]. unfold JS.unique. simpl.
  split; discriminate.
Qed.

(** C8, as the code has it (invalid-input contract of the solver): the run is
    [Invalid] exactly when the total does not parse, or is not positive, or
    no allowed entry is a positive number; that outcome shows the toast
    "Invalid total marks or allowed marks." and returns [null], while the
    infeasible outcome returns [null] with no effect of its own and is, on
    well-formed inputs, exactly unreachability of the target.  Entries that
    are not positive numbers are dropped before solving: two settings with
    the same target and the same positive entries run alike. *)
Theorem invalid_input_contract (s : GeneratorSettings) (rnd : nat -> JS.unit_sample) :
  (Solver.run s rnd = Solver.Invalid <->
     Solver.target s = None \/
     (exists t, Solver.target s = Some t /\ t <= 0) \/
     Solver.keep_positive (Solver.parsedMarks s) = []) /\
  (Solver.run s rnd = Solver.Invalid ->
     Solver.findDistribution s rnd =
     (None, [ShowToast (Lit "Invalid total marks or allowed marks.") error])) /\
  (Solver.run s rnd = Solver.Infeasible -> Solver.findDistribution s rnd = (None, [])) /\
  (forall t, Solver.target s = Some t -> 0 < t ->
     Solver.keep_positive (Solver.parsedMarks s) <> [] ->
     (Solver.run s rnd = Solver.Infeasible <->
      ~ Solver.reachable (Solver.keep_positive (Solver.parsedMarks s)) t)) /\
  (forall s', Solver.target s' = Solver.target s ->
     Solver.keep_positive (Solver.parsedMarks s') =
     Solver.keep_positive (Solver.parsedMarks s) ->
     Solver.run s' rnd = Solver.run s rnd).
Proof.
  assert (Hwf : Solver.keep_positive (Solver.parsedMarks s) <> [] ->
                Solver.uniqueMarks s <> []).
  { intros Hne Hu. unfold Solver.uniqueMarks in Hu.
    apply (proj1 (unique_nil _)) in Hu. contradiction. }
  split; [|split; [|split; [|split]]].
  - split.
    + intros Hrun. destruct (Solver.target s) as [t|] eqn:Ht; [|now left].
      right. destruct (Z.leb_spec t 0) as [Hle|Hpos]; [left; eauto|].
      right.
      assert (Hdec : Solver.keep_positive (Solver.parsedMarks s) = [] \/
                     Solver.keep_positive (Solver.parsedMarks s) <> []).
      { destruct (Solver.keep_positive (Solver.parsedMarks s)); [now left | now right]. }
      destruct Hdec as [Hk|Hk]; [assumption|]. exfalso.
      destruct (run_wellformed s rnd t Ht Hpos (Hwf Hk))
        as (_ & _ & [[d Hd] | Hd]); congruence.
    + unfold Solver.run. intros [Hnone | [(t & Ht & Hle) | Hk]].
      * now rewrite Hnone.
      * rewrite Ht. destruct (Z.leb_spec t 0); [reflexivity | lia].
      * destruct (Solver.target s); [|reflexivity].
        unfold Solver.uniqueMarks. rewrite Hk. simpl. now rewrite orb_true_r.
  - intros Hrun. unfold Solver.findDistribution. now rewrite Hrun.
  - intros Hrun. unfold Solver.findDistribution. now rewrite Hrun.
  - intros t Ht Hpos Hne.
    destruct (run_wellformed s rnd t Ht Hpos (Hwf Hne)) as (Hyes & Hno & _).
    assert (Heq : Solver.reachable (Solver.uniqueMarks s) t <->
                  Solver.reachable (Solver.keep_positive (Solver.parsedMarks s)) t).
    { split; apply reachable_same; intros m; unfold Solver.uniqueMarks;
        rewrite unique_In; tauto. }
    split.
    + intros Hinf Hr. apply Heq, Hyes in Hr as [d Hd]. congruence.
    + intros Hn. apply Hno. now rewrite Heq.
  - intros s' Ht Hk. unfold Solver.run, Solver.uniqueMarks. now rewrite Ht, Hk.
Qed.

Lemma invalid_input_contract_witness :
  Solver.run (settings_with totalMarks_mode "" "3" "2") always_first = Solver.Infeasible <->
  ~ Solver.reachable
      (Solver.keep_positive (Solver.parsedMarks (settings_with totalMarks_mode "" "3" "2"))) 3.
Proof.
  apply (proj1 (proj2 (proj2 (proj2
           (invalid_input_contract (settings_with totalMarks_mode "" "3" "2") always_first))))).
  - reflexivity.
  - lia.
  - vm_compute. discriminate.
Defined.

(** C8 as stated fails: with allowed marks "0, 5" one allowed value is not
    positive, yet the solver drops it and returns the distribution [1 x 5]
    for the target 5. *)
Lemma nonpositive_allowed_mark_is_dropped :
  Solver.target (settings_with totalMarks_mode "" "5" "0, 5") = Some 5 /\
  In (Some 0) (Solver.parsedMarks (settings_with totalMarks_mode "" "5" "0, 5")) /\
  Solver.run (settings_with totalMarks_mode "" "5" "0, 5") always_first
  = Solver.Solved [(1, 5)] /\
  Solver.findDistribution (settings_with totalMarks_mode "" "5" "0, 5") always_first
  = (Some [(1, 5)], []).
Proof. vm_compute. repeat split; auto. Qed.

(* ===================================================================== *)
(** * The distribution string                                             *)
(* ===================================================================== *)

Example parse_examples :
  Parser.parseDistribution "5x1, 5x2, 2x5" = Some [(5, 1); (5, 2); (2, 5)] /\
  Parser.parseDistribution "" = Some [] /\
  Parser.parseDistribution "  " = Some [] /\
  Parser.parseDistribution "garbage" = None /\
  Parser.parseDistribution "2x5x" = None /\
  Parser.parseDistribution "2X5" = None /\
  Parser.parseDistribution "0x5" = Some [(0, 5)] /\
  Parser.parseDistribution "-2x0" = Some [(-2, 0)].
Proof. repeat split; reflexivity. Qed.

Example partition_examples :
  map Partition.r_count (Partition.requestsToMake 7 ["a"; "b"; "c"]) = [3; 2; 2] /\
  map Partition.r_count (Partition.requestsToMake 2 ["a"; "b"; "c"]) = [1; 1] /\
  map Partition.r_type (Partition.requestsToMake 2 ["a"; "b"; "c"]) = [Some "a"; Some "b"] /\
  Partition.requestsToMake 4 ["a"] = [ {| Partition.r_count := 4; Partition.r_type := Some "a" |} ].
Proof. repeat split; reflexivity. Qed.

Example bank_examples :
  Bank.generateFromBank
    [mkq "a" 10 5 []; mkq "b" 10 5 []; mkq "c" 10 10 []; mkq "d" 10 5 used_once]
    10 true identity_shuffle [(2, 5); (1, 10)]
  = Bank.Questions [mkq "a" 10 5 []; mkq "b" 10 5 []; mkq "c" 10 10 []] /\
  Bank.generateFromBank
    [mkq "a" 10 5 []; mkq "c" 10 10 []; mkq "d" 10 5 used_once]
    10 true identity_shuffle [(2, 5); (1, 10)]
  = Bank.Error "Not enough questions in bank: need 2 for 5 marks (found 1)." /\
  Bank.generateFromBank
    [mkq "a" 10 5 []; mkq "b" 10 5 []; mkq "c" 10 5 []]
    10 false rotating_shuffle [(2, 5)]
  = Bank.Questions [mkq "c" 10 5 []; mkq "a" 10 5 []].
Proof. repeat split; vm_compute; reflexivity. Qed.

Lemma keep_Some segment count marks :
  Parser.keep (Parser.parts_of segment) = Some (count, marks) <->
  exists a b, JS.split "x"%char (JS.trim segment) = [a; b] /\
              JS.parseInt a = Some count /\ JS.parseInt b = Some marks.
Proof.
  unfold Parser.parts_of.
  destruct (JS.split "x"%char (JS.trim segment)) as [|a [|b [|c r]]]; simpl.
  - split; [discriminate | intros (? & ? & ? & _); discriminate].
  - split; [destruct (JS.parseInt a); discriminate | intros (? & ? & ? & _); discriminate].
  - split.
    + destruct (JS.parseInt a) as [x|] eqn:Ea; [|discriminate].
      destruct (JS.parseInt b) as [y|] eqn:Eb; [|discriminate].
      intros [= <- <-]. exists a, b. auto.
    + intros (a' & b' & [= <- <-] & -> & ->). reflexivity.
  - split; [|intros (? & ? & ? & _); discriminate].
    destruct (JS.parseInt a); [|discriminate].
    destruct (JS.parseInt b); discriminate.
Qed.

(** C10 (lenient distribution parser): a pair is kept exactly when some
    comma-separated segment, once trimmed, splits on 'x' into exactly two
    parts that both parse as integers, whatever their sign; the format error
    is reported exactly when no pair is kept and the input is not blank;
    otherwise the kept pairs are the distribution.  "2x5,garbage,3x-1" is
    accepted as [(2,5); (3,-1)], and a zero count is accepted as well. *)
Theorem parseDistribution_lenient :
  (forall md count marks,
      In (count, marks) (Parser.parse md) <->
      exists segment a b,
        In segment (JS.split ","%char md) /\
        JS.split "x"%char (JS.trim segment) = [a; b] /\
        JS.parseInt a = Some count /\ JS.parseInt b = Some marks) /\
  (forall md, Parser.parseDistribution md = None <->
              Parser.parse md = [] /\ JS.trim md <> "") /\
  (forall md d, Parser.parseDistribution md = Some d -> d = Parser.parse md) /\
  Parser.parseDistribution "2x5,garbage,3x-1" = Some [(2, 5); (3, -1)] /\
  Parser.parseDistribution "0x5" = Some [(0, 5)].
Proof.
  split; [|split; [|split; [|split; reflexivity]]].
  - intros md count marks. unfold Parser.parse.
    rewrite <- list_elem_of_In, list_elem_of_omap. split.
    + intros (segment & Hin & Hk). apply keep_Some in Hk as (a & b & ? & ? & ?).
      exists segment, a, b. rewrite <- list_elem_of_In. auto.
    + intros (segment & a & b & Hin & ? & ? & ?). exists segment.
      rewrite list_elem_of_In. split; [assumption|].
      apply keep_Some. eauto.
  - intros md. unfold Parser.parseDistribution.
    destruct (Parser.parse md) as [|p r]; simpl.
    + destruct (String.eqb_spec (JS.trim md) ""); simpl.
      * split; [discriminate | intros [_ ?]; contradiction].
      * split; auto.
    + split; [discriminate | intros [? _]; discriminate].
  - intros md d. unfold Parser.parseDistribution.
    destruct (_ && _); [discriminate | congruence].
Qed.

Lemma parseDistribution_lenient_witness :
  [(2, 5); (3, -1)] = Parser.parse "2x5,garbage,3x-1".
Proof.
  apply (proj1 (proj2 (proj2 parseDistribution_lenient))). reflexivity.
Defined.

(* ===================================================================== *)
(** * Partition over question types                                       *)
(* ===================================================================== *)

Section PartitionFacts.
Import Partition.

Lemma selectedTypes_nonempty s : selectedTypes s <> [].
Proof.
  unfold selectedTypes. destruct (aiQuestionType s); simpl; discriminate.
Qed.

Lemma split_sum q r n :
  0 <= r ->
  Solver.sumZ (map (fun i => q + (if Z.of_nat i <? r then 1 else 0)) (seq 0 n))
  = Z.of_nat n * q + Z.min r (Z.of_nat n).
Proof.
  intros Hr. induction n as [|n IH]; [simpl; lia|].
  rewrite seq_S, map_app, sumZ_app, IH. simpl.
  destruct (Z.ltb_spec (Z.of_nat n) r); lia.
Qed.

Lemma even_split_sum count n :
  0 <= count -> (0 < n)%nat -> Solver.sumZ (even_split count n) = count.
Proof.
  intros Hc Hn. unfold even_split.
  pose proof (Z.mod_pos_bound count (Z.of_nat n) ltac:(lia)) as Hb.
  rewrite split_sum by lia.
  rewrite Z.min_l by lia.
  pose proof (Z.div_mod count (Z.of_nat n) ltac:(lia)). lia.
Qed.

Lemma even_split_nonneg count n :
  0 <= count -> Forall (fun c => 0 <= c) (even_split count n).
Proof.
  intros Hc. unfold even_split. apply Forall_forall. intros c Hin.
  apply list_elem_of_In, in_map_iff in Hin as (i & <- & _).
  destruct (Nat.eq_dec n 0%nat) as [->|Hn].
  - simpl. rewrite Z.div_0_r. destruct (_ <? _); lia.
  - pose proof (Z.div_pos count (Z.of_nat n) Hc ltac:(lia)).
    destruct (_ <? _); lia.
Qed.

Lemma even_split_length count n : length (even_split count n) = n.
Proof. unfold even_split. now rewrite length_map, length_seq. Qed.

(** Requests carry exactly the positive shares. *)
Lemma requests_of_shares_sum shares types :
  Forall (fun c => 0 <= c) shares -> length shares = length types ->
  Solver.sumZ (map r_count (requests_of_shares shares types)) = Solver.sumZ shares.
Proof.
  intros Hnn. revert types. induction Hnn as [|c shares Hc _ IH]; intros types Hlen.
  - reflexivity.
  - destruct types as [|ty types]; [discriminate|].
    injection Hlen as Hlen. unfold requests_of_shares in *. simpl.
    destruct (Z.gtb_spec c 0); simpl; rewrite IH by assumption; lia.
Qed.

(** The loop over the indices of [selectedTypes] is the zip of the shares
    with the types. *)
Lemma loop_is_zip (g : nat -> Z) (pre types : list string) :
  flat_map (fun i => if g i >? 0
                     then [ {| r_count := g i; r_type := (pre ++ types) !! i |} ]
                     else [])
           (seq (length pre) (length types))
  = requests_of_shares (map g (seq (length pre) (length types))) types.
Proof.
  revert pre. induction types as [|ty types IH]; intros pre; [reflexivity|].
  simpl. rewrite list_lookup_middle by reflexivity.
  specialize (IH (pre ++ [ty])).
  rewrite <- app_assoc, length_app in IH. simpl in IH.
  rewrite Nat.add_1_r in IH. rewrite IH.
  unfold requests_of_shares. simpl.
  destruct (g (length pre) >? 0); reflexivity.
Qed.

Lemma requestsToMake_many count types :
  0 <= count -> (2 <= length types)%nat ->
  requestsToMake count types
  = requests_of_shares (even_split count (length types)) types.
Proof.
  intros Hc Hn. unfold requestsToMake.
  destruct (Nat.leb_spec (length types) 1); [lia|].
  pose proof (loop_is_zip (subCount count (Z.of_nat (length types))) [] types) as Hz.
  simpl in Hz. rewrite Hz. f_equal. unfold even_split, subCount.
  apply map_ext. intros i. rewrite Z.rem_mod_nonneg by lia. reflexivity.
Qed.

Lemma zero_shares_no_request n types :
  requests_of_shares (even_split 0 n) types = [].
Proof.
  unfold even_split, requests_of_shares.
  generalize 0%nat as k. revert types.
  induction n as [|n IH]; intros types k; [reflexivity|].
  simpl. destruct types as [|ty types]; [reflexivity|]. simpl.
  rewrite Z.div_0_l, Z.mod_0_l by lia.
  destruct (Z.ltb_spec (Z.of_nat k) 0); [lia|]. simpl. apply IH.
Qed.

End PartitionFacts.

(** C6 (partition evenness): for a group of [count] questions, [count] not
    negative, the list of selected types is not empty; the requests issued
    for the group are those of the even split (floor(count/n) each, one more
    for each of the first [count mod n] types, in type order), one request
    per type with a positive share and none for a zero share; a single type
    receives the full count; the shares, and the counts of the issued
    requests, sum to [count]; and 7 over 3 types is [3; 2; 2]. *)
Theorem partition_even (s : GeneratorSettings) (count : Z) :
  0 <= count ->
  Partition.selectedTypes s <> [] /\
  Partition.group_requests s count
  = Partition.requests_of_shares
      (Partition.even_split count (length (Partition.selectedTypes s)))
      (Partition.selectedTypes s) /\
  (length (Partition.selectedTypes s) = 1%nat ->
   Partition.even_split count (length (Partition.selectedTypes s)) = [count]) /\
  Solver.sumZ (Partition.even_split count (length (Partition.selectedTypes s))) = count /\
  Solver.sumZ (map Partition.r_count (Partition.group_requests s count)) = count /\
  Partition.even_split 7 3 = [3; 2; 2].
Proof.
  intros Hc. pose proof (selectedTypes_nonempty s) as Hne.
  assert (Hlen : (0 < length (Partition.selectedTypes s))%nat).
  { destruct (Partition.selectedTypes s); [contradiction | simpl; lia]. }
  assert (Hreq : Partition.group_requests s count
                 = Partition.requests_of_shares
                     (Partition.even_split count (length (Partition.selectedTypes s)))
                     (Partition.selectedTypes s)).
  { unfold Partition.group_requests. destruct (Z.leb_spec count 0).
    - assert (count = 0) as -> by lia. now rewrite zero_shares_no_request.
    - destruct (Partition.selectedTypes s) as [|ty [|ty2 r]] eqn:E.
      + contradiction.
      + unfold Partition.requestsToMake, Partition.requests_of_shares,
          Partition.even_split. simpl.
        rewrite Z.div_1_r, Z.mod_1_r. simpl.
        replace (count + 0) with count by lia.
        destruct (Z.gtb_spec count 0); [reflexivity | lia].
      + apply requestsToMake_many; [lia | simpl; lia]. }
  split; [assumption|]. split; [assumption|]. split; [|split; [|split]].
  - intros ->. unfold Partition.even_split. simpl.
    rewrite Z.div_1_r, Z.mod_1_r. simpl. f_equal. lia.
  - now apply even_split_sum.
  - rewrite Hreq, requests_of_shares_sum.
    + now apply even_split_sum.
    + now apply even_split_nonneg.
    + apply even_split_length.
  - reflexivity.
Qed.

Lemma partition_even_witness :
  Partition.group_requests (ai_settings "7x2" "Cell" three_types) 7
  = Partition.requests_of_shares (Partition.even_split 7 3) three_types.
Proof.
  pose proof (partition_even (ai_settings "7x2" "Cell" three_types) 7
                ltac:(lia)) as (_ & H & _).
  exact H.
Defined.

(* ===================================================================== *)
(** * Sampling from the bank                                              *)
(* ===================================================================== *)

Section MapFacts.

Lemma map_get_set m k v k' :
  JS.map_get (JS.map_set m k v) k' = if k =? k' then Some v else JS.map_get m k'.
Proof.
  induction m as [|[a b] r IH]; simpl.
  - destruct (Z.eqb_spec k k'); reflexivity.
  - destruct (Z.eqb_spec a k) as [->|Hne]; simpl.
    + destruct (Z.eqb_spec k k'); reflexivity.
    + rewrite IH. destruct (Z.eqb_spec a k') as [->|Hne'].
      * destruct (Z.eqb_spec k k'); [congruence | reflexivity].
      * reflexivity.
Qed.

Lemma map_get_In m k v : JS.map_get m k = Some v -> In (k, v) m.
Proof.
  induction m as [|[a b] r IH]; simpl; [discriminate|].
  destruct (Z.eqb_spec a k) as [->|Hne].
  - intros [= ->]. now left.
  - intros H. right. auto.
Qed.

Lemma map_set_keys m k v k' :
  In k' (map fst (JS.map_set m k v)) <-> k' = k \/ In k' (map fst m).
Proof.
  induction m as [|[a b] r IH]; simpl.
  - intuition congruence.
  - destruct (Z.eqb_spec a k) as [->|Hne]; simpl.
    + intuition congruence.
    + rewrite IH. intuition congruence.
Qed.

Lemma map_set_NoDup m k v :
  List.NoDup (map fst m) -> List.NoDup (map fst (JS.map_set m k v)).
Proof.
  induction m as [|[a b] r IH]; simpl; intros Hnd.
  - constructor; [simpl; tauto | constructor].
  - inversion Hnd as [|? ? Hnotin Hnd']; subst.
    destruct (Z.eqb_spec a k) as [->|Hne]; simpl.
    + constructor; assumption.
    + constructor; [|auto].
      rewrite map_set_keys. intros [->|?]; [congruence | contradiction].
Qed.

Lemma In_map_get m k v :
  List.NoDup (map fst m) -> In (k, v) m -> JS.map_get m k = Some v.
Proof.
  induction m as [|[a b] r IH]; simpl; [tauto|].
  intros Hnd [E|Hin]; inversion Hnd as [|? ? Hnotin Hnd']; subst.
  - injection E as -> ->. now rewrite Z.eqb_refl.
  - destruct (Z.eqb_spec a k) as [->|Hne]; [|auto].
    exfalso. apply Hnotin. change k with (fst (k, v)). now apply in_map.
Qed.

End MapFacts.

Section RequiredFacts.
Import Bank BankSpec.

Lemma required_for_not_asked d k : asked d k = false -> required_for d k = 0.
Proof.
  induction d as [|[c mk] rest IH]; simpl; [reflexivity|].
  destruct (Z.eqb_spec mk k); simpl; [discriminate | exact IH].
Qed.

Lemma requiredCounts_from d m k :
  JS.map_get
    (fold_left (fun m '(count, marks) =>
                  JS.map_set m marks (JS.or_zero (JS.map_get m marks) + count)) d m) k
  = if asked d k
    then Some (JS.or_zero (JS.map_get m k) + required_for d k)
    else JS.map_get m k.
Proof.
  revert m. induction d as [|[c mk] rest IH]; intros m; simpl; [reflexivity|].
  rewrite IH, map_get_set.
  destruct (Z.eqb_spec mk k) as [->|Hne]; simpl.
  - destruct (asked rest k) eqn:E; simpl; f_equal; [lia|].
    rewrite (required_for_not_asked _ _ E). lia.
  - reflexivity.
Qed.

Lemma requiredCounts_get d k :
  JS.map_get (requiredCounts d) k
  = if asked d k then Some (required_for d k) else None.
Proof.
  unfold requiredCounts. rewrite requiredCounts_from. simpl.
  destruct (asked d k); reflexivity.
Qed.

Lemma requiredCounts_NoDup d : List.NoDup (map fst (requiredCounts d)).
Proof.
  unfold requiredCounts.
  assert (H : forall m, List.NoDup (map fst m) ->
              List.NoDup (map fst (fold_left
                (fun m '(count, marks) =>
                   JS.map_set m marks (JS.or_zero (JS.map_get m marks) + count)) d m))).
  { induction d as [|[c mk] rest IH]; intros m Hm; simpl; [assumption|].
    apply IH, map_set_NoDup, Hm. }
  apply H. constructor.
Qed.

(** The entries of [requiredCounts]: the asked mark values with their totals. *)
Lemma requiredCounts_In d k v :
  In (k, v) (requiredCounts d) <-> asked d k = true /\ v = required_for d k.
Proof.
  split.
  - intros Hin. apply In_map_get in Hin; [|apply requiredCounts_NoDup].
    rewrite requiredCounts_get in Hin.
    destruct (asked d k); [|discriminate]. injection Hin as <-. auto.
  - intros [Ha ->]. apply map_get_In. now rewrite requiredCounts_get, Ha.
Qed.

Lemma required_for_nonneg d k :
  nonneg_counts d -> 0 <= required_for d k.
Proof.
  induction 1 as [|[c mk] rest Hc _ IH]; simpl in *; [lia|].
  destruct (mk =? k); lia.
Qed.

Lemma filter_filter {A} (f g : A -> bool) l :
  List.filter f (List.filter g l) = List.filter (fun x => g x && f x) l.
Proof.
  induction l as [|x r IH]; simpl; [reflexivity|].
  destruct (g x); simpl; [destruct (f x); now rewrite IH | exact IH].
Qed.

Lemma availableCount_sourcePool questions selectedClass avoidPrevious marks :
  availableCount (sourcePool questions selectedClass avoidPrevious) marks
  = available questions selectedClass avoidPrevious marks.
Proof.
  unfold availableCount, sourcePool, available, eligible.
  destruct avoidPrevious; rewrite !filter_filter; do 2 f_equal;
    apply filter_ext; intros q; unfold class_filter, unused, has_marks.
  all: now rewrite ?andb_true_r, ?andb_assoc.
Qed.

Lemma sourcePool_In questions selectedClass avoidPrevious q :
  In q (sourcePool questions selectedClass avoidPrevious) <->
  In q questions /\ q_class q = selectedClass /\
  (avoidPrevious = true -> q_usedIn q = []).
Proof.
  unfold sourcePool, class_filter, unused.
  destruct avoidPrevious; rewrite ?filter_In, Z.eqb_eq.
  - rewrite length_eqb_0. intuition.
  - intuition discriminate.
Qed.

Lemma missingMessages_In pool required msg :
  In msg (missingMessages pool required) <->
  exists marks requiredCount,
    In (marks, requiredCount) required /\
    availableCount pool marks < requiredCount /\
    msg = missingMessage requiredCount marks (availableCount pool marks).
Proof.
  unfold missingMessages. rewrite in_flat_map. split.
  - intros ([marks req] & Hin & Hmsg).
    destruct (Z.ltb_spec (availableCount pool marks) req); [|contradiction].
    destruct Hmsg as [<-|[]]. eauto.
  - intros (marks & req & Hin & Hlt & ->). exists (marks, req).
    split; [assumption|].
    destruct (Z.ltb_spec (availableCount pool marks) req); [now left | lia].
Qed.

Lemma append_assoc (a b c : string) : (a +:+ b) +:+ c = a +:+ (b +:+ c).
Proof.
  induction a as [|x a IH]; [reflexivity|].
  change (String x ((a +:+ b) +:+ c) = String x (a +:+ (b +:+ c))).
  f_equal. exact IH.
Qed.

Lemma append_empty_r (a : string) : a +:+ "" = a.
Proof.
  induction a as [|x a IH]; [reflexivity|].
  change (String x (a +:+ "") = String x a). f_equal. exact IH.
Qed.

Lemma occurs_in_join sep msg msgs :
  In msg msgs -> occurs_in msg (JS.join sep msgs).
Proof.
  induction msgs as [|x r IH]; [intros []|].
  intros [->|Hin].
  - destruct r as [|y r'].
    + exists "", "". simpl. now rewrite append_empty_r.
    + exists "", (sep +:+ JS.join sep (y :: r')). reflexivity.
  - destruct r as [|y r']; [destruct Hin|].
    destruct (IH Hin) as (before & after & E).
    exists (x +:+ sep +:+ before), after.
    change (JS.join sep (x :: y :: r')) with (x +:+ sep +:+ JS.join sep (y :: r')).
    rewrite E, !append_assoc. reflexivity.
Qed.

Lemma occurs_in_wrap prefix suffix msg body :
  occurs_in msg body -> occurs_in msg (prefix +:+ body +:+ suffix).
Proof.
  intros (before & after & ->).
  exists (prefix +:+ before), (after +:+ suffix).
  now rewrite !append_assoc.
Qed.

End RequiredFacts.

Lemma generateFromBank_Error_iff questions selectedClass avoidPrevious shuffle d :
  (exists e, Bank.generateFromBank questions selectedClass avoidPrevious shuffle d
             = Bank.Error e) <->
  Bank.missingMessages (Bank.sourcePool questions selectedClass avoidPrevious)
                       (Bank.requiredCounts d) <> [].
Proof.
  unfold Bank.generateFromBank.
  destruct (Bank.missingMessages _ _) as [|m r]; simpl.
  - split; [intros [e He]; discriminate | intros H; now contradiction H].
  - split; [discriminate | eauto].
Qed.

Lemma short_supply_is_asked pool d marks :
  Bank.availableCount pool marks < Bank.required_for d marks ->
  BankSpec.asked d marks = true.
Proof.
  intros Hlt. destruct (BankSpec.asked d marks) eqn:Ha; [reflexivity|].
  rewrite (required_for_not_asked d marks Ha) in Hlt.
  unfold Bank.availableCount in Hlt. lia.
Qed.

(** The deficiency messages, one per entry of [requiredCounts] in short
    supply, in the order of the entries. *)
Lemma missingMessages_by_marks pool d (req : JS.NumMap) :
  (forall k v, In (k, v) req -> v = Bank.required_for d k) ->
  Bank.missingMessages pool req
  = map (fun marks => Bank.missingMessage (Bank.required_for d marks) marks
                        (Bank.availableCount pool marks))
        (List.filter (fun marks => Bank.availableCount pool marks <? Bank.required_for d marks)
                     (map fst req)).
Proof.
  induction req as [|[k v] rest IH]; intros Hreq; [reflexivity|].
  assert (Hv : v = Bank.required_for d k) by (apply Hreq; now left).
  assert (Hrest : forall k' v', In (k', v') rest -> v' = Bank.required_for d k')
    by (intros k' v' H; apply Hreq; now right).
  unfold Bank.missingMessages in *. simpl. rewrite (IH Hrest). subst v.
  destruct (Bank.availableCount pool k <? Bank.required_for d k); reflexivity.
Qed.

(** C4, as the code has it (deficiency aggregation): sampling fails exactly
    when, for some mark value, the number of bank questions of the selected
    class with that mark value (never used ones only, when reuse is avoided)
    is below the total count the distribution asks for that mark value.  The
    error then is "Not enough questions in bank: ", the deficiency messages
    joined by "; ", and ".", where the messages are the messages
    "need R for M marks (found A)" of the under-supplied mark values, one for
    each of them and no other: the list [short] holds every under-supplied
    mark value once and nothing else.  So the message of every
    under-supplied mark value occurs in the error. *)
Theorem generateFromBank_deficiency
    (questions : list Question) (selectedClass : Z) (avoidPrevious : bool)
    (shuffle : nat -> list nat) (distribution : Distribution) :
  ((exists e, Bank.generateFromBank questions selectedClass avoidPrevious shuffle
                distribution = Bank.Error e) <->
   (exists marks,
       BankSpec.available questions selectedClass avoidPrevious marks
       < Bank.required_for distribution marks)) /\
  (forall e,
      Bank.generateFromBank questions selectedClass avoidPrevious shuffle distribution
      = Bank.Error e ->
      (exists short : list Z,
          List.NoDup short /\
          (forall marks,
              In marks short <->
              BankSpec.available questions selectedClass avoidPrevious marks
              < Bank.required_for distribution marks) /\
          e = "Not enough questions in bank: " +:+
              JS.join "; "
                (map (fun marks =>
                        Bank.missingMessage (Bank.required_for distribution marks) marks
                          (BankSpec.available questions selectedClass avoidPrevious marks))
                     short) +:+
              ".") /\
      forall marks,
        BankSpec.available questions selectedClass avoidPrevious marks
        < Bank.required_for distribution marks ->
        Bank.occurs_in
          (Bank.missingMessage (Bank.required_for distribution marks) marks
             (BankSpec.available questions selectedClass avoidPrevious marks))
          e).
Proof.
  set (pool := Bank.sourcePool questions selectedClass avoidPrevious).
  assert (Hmsg : forall marks,
             BankSpec.available questions selectedClass avoidPrevious marks
             < Bank.required_for distribution marks ->
             In (Bank.missingMessage (Bank.required_for distribution marks) marks
                   (BankSpec.available questions selectedClass avoidPrevious marks))
                (Bank.missingMessages pool (Bank.requiredCounts distribution))).
  { intros marks Hlt. apply missingMessages_In.
    exists marks, (Bank.required_for distribution marks).
    unfold pool. rewrite availableCount_sourcePool.
    repeat split; [|assumption]. apply requiredCounts_In. split; [|reflexivity].
    apply (short_supply_is_asked pool). unfold pool.
    now rewrite availableCount_sourcePool. }
  split.
  - rewrite generateFromBank_Error_iff. fold pool. split.
    + intros Hne.
      destruct (Bank.missingMessages pool (Bank.requiredCounts distribution))
        as [|msg r] eqn:E; [contradiction|].
      assert (Hin : In msg (Bank.missingMessages pool (Bank.requiredCounts distribution)))
        by (rewrite E; now left).
      apply missingMessages_In in Hin as (marks & req & Hin & Hlt & _).
      apply requiredCounts_In in Hin as [Ha ->].
      exists marks. unfold pool in Hlt. now rewrite availableCount_sourcePool in Hlt.
    + intros (marks & Hlt) Hnil.
      specialize (Hmsg marks Hlt). rewrite Hnil in Hmsg. contradiction.
  - intros e He. unfold Bank.generateFromBank in He. fold pool in He.
    destruct (0 <? length (Bank.missingMessages pool (Bank.requiredCounts distribution)))%nat;
      [|discriminate].
    injection He as <-. split.
    + exists (List.filter
                (fun marks => Bank.availableCount pool marks
                              <? Bank.required_for distribution marks)
                (map fst (Bank.requiredCounts distribution))).
      split; [|split].
      * apply List.NoDup_filter, requiredCounts_NoDup.
      * intros marks. rewrite filter_In, Z.ltb_lt. unfold pool.
        rewrite availableCount_sourcePool. split; [tauto|]. intros Hlt.
        split; [|assumption].
        apply in_map_iff. exists (marks, Bank.required_for distribution marks).
        split; [reflexivity|]. apply requiredCounts_In. split; [|reflexivity].
        apply (short_supply_is_asked pool). unfold pool.
        now rewrite availableCount_sourcePool.
      * rewrite (missingMessages_by_marks pool distribution)
          by (intros k v H; now apply requiredCounts_In in H).
        do 3 f_equal. apply map_ext. intros marks. unfold pool.
        now rewrite availableCount_sourcePool.
    + intros marks Hlt. apply occurs_in_wrap, occurs_in_join. auto.
Qed.

Lemma generateFromBank_deficiency_witness :
  (exists short : list Z,
      List.NoDup short /\
      (forall marks,
          In marks short <->
          BankSpec.available [mkq "a" 10 5 []; mkq "c" 10 10 []; mkq "d" 10 5 used_once]
            10 true marks
          < Bank.required_for [(2, 5); (1, 10)] marks) /\
      "Not enough questions in bank: need 2 for 5 marks (found 1)."
      = "Not enough questions in bank: " +:+
        JS.join "; "
          (map (fun marks =>
                  Bank.missingMessage (Bank.required_for [(2, 5); (1, 10)] marks) marks
                    (BankSpec.available
                       [mkq "a" 10 5 []; mkq "c" 10 10 []; mkq "d" 10 5 used_once]
                       10 true marks))
               short) +:+
        ".") /\
  Bank.occurs_in "need 2 for 5 marks (found 1)"
    "Not enough questions in bank: need 2 for 5 marks (found 1).".
Proof.
  pose proof (generateFromBank_deficiency
                [mkq "a" 10 5 []; mkq "c" 10 10 []; mkq "d" 10 5 used_once]
                10 true identity_shuffle [(2, 5); (1, 10)]) as [_ H].
  destruct (H "Not enough questions in bank: need 2 for 5 marks (found 1)."
              ltac:(vm_compute; reflexivity)) as [Hshort Hocc].
  split; [exact Hshort|].
  exact (Hocc 5 ltac:(vm_compute; reflexivity)).
Defined.

(** C4 as stated fails: a bank whose only 5-mark question belongs to class 9
    has one question of that mark value, which meets the required count 1,
    and no mark value is in short supply in the bank; yet sampling for
    class 10 fails and reports that none was found. *)
Lemma other_class_questions_do_not_count :
  Bank.generateFromBank [mkq "a" 9 5 []] 10 false identity_shuffle [(1, 5)]
  = Bank.Error "Not enough questions in bank: need 1 for 5 marks (found 0)." /\
  ~ (exists marks,
        BankSpec.available_any_class [mkq "a" 9 5 []] false marks
        < Bank.required_for [(1, 5)] marks).
Proof.
  split; [vm_compute; reflexivity|].
  intros (marks & Hlt). destruct (Z.eq_dec marks 5) as [->|Hne].
  - vm_compute in Hlt. discriminate.
  - assert (E : Bank.required_for [(1, 5)] marks = 0).
    { unfold Bank.required_for, fold_right.
      destruct (Z.eqb_spec 5 marks); [congruence | reflexivity]. }
    rewrite E in Hlt. unfold BankSpec.available_any_class in Hlt. lia.
Qed.

Section SelectFacts.
Import Bank.

Lemma permute_Permutation {A} code (l : list A) : Permutation (permute code l) l.
Proof.
  revert code. induction l as [|x r IH]; intros [|c code]; simpl; try reflexivity.
  unfold insert_at.
  set (r' := permute code r). set (n := (c mod S (length r'))%nat).
  transitivity (x :: take n r' ++ drop n r').
  - symmetry. apply Permutation_middle.
  - constructor. rewrite take_drop. apply IH.
Qed.

(** Every rearrangement of the array is the outcome of some shuffle. *)
Lemma permute_complete {A} (l l' : list A) :
  Permutation l l' -> exists code, permute code l = l'.
Proof.
  revert l'. induction l as [|x r IH]; intros l' Hp.
  - apply Permutation_nil in Hp. subst. now exists [].
  - apply Permutation_cons_inv_l in Hp as (k1 & k2 & -> & Hp).
    destruct (IH _ Hp) as [code' Hc].
    exists (length k1 :: code'). cbn [permute]. rewrite Hc. unfold insert_at.
    rewrite Nat.mod_small by (rewrite length_app; lia).
    now rewrite take_app_length, drop_app_length.
Qed.

Lemma filter_Permutation {A} (f : A -> bool) l l' :
  Permutation l l' -> Permutation (List.filter f l) (List.filter f l').
Proof.
  induction 1 as [|x l l' _ IH|x y l|l l' l'' _ IH1 _ IH2]; simpl.
  - reflexivity.
  - destruct (f x); [now constructor | assumption].
  - destruct (f x), (f y); try reflexivity. apply perm_swap.
  - now transitivity (List.filter f l').
Qed.

Lemma availableCount_Permutation l l' k :
  Permutation l l' -> availableCount l k = availableCount l' k.
Proof.
  intros H. unfold availableCount. f_equal.
  apply Permutation_length, filter_Permutation, H.
Qed.

Lemma availableCount_app l l' k :
  availableCount (l ++ l') k = availableCount l k + availableCount l' k.
Proof.
  unfold availableCount. rewrite List.filter_app, length_app. lia.
Qed.

Lemma availableCount_nonneg l k : 0 <= availableCount l k.
Proof. unfold availableCount. lia. Qed.

Lemma availableCount_same_marks sel m k :
  Forall (fun q => q_marks q = m) sel ->
  availableCount sel k = if m =? k then Z.of_nat (length sel) else 0.
Proof.
  unfold availableCount, has_marks.
  induction 1 as [|q sel Hq _ IH]; simpl.
  - destruct (m =? k); reflexivity.
  - rewrite Hq. destruct (Z.eqb_spec m k); simpl; lia.
Qed.

Lemma NoDup_map_filter {A B} (f : A -> B) (g : A -> bool) l :
  List.NoDup (map f l) -> List.NoDup (map f (List.filter g l)).
Proof.
  induction l as [|x r IH]; simpl; [auto|].
  intros Hnd. inversion Hnd as [|? ? Hnotin Hnd']; subst.
  destruct (g x); simpl; [|auto].
  constructor; [|auto].
  intros Hin. apply Hnotin. apply in_map_iff in Hin as (y & <- & Hy).
  apply filter_In in Hy as [Hy _]. now apply in_map.
Qed.

(** Identifiers are keys of the pool. *)
Lemma id_inj pool q s :
  List.NoDup (map q_id pool) -> In q pool -> In s pool -> q_id s = q_id q -> s = q.
Proof.
  induction pool as [|a r IH]; simpl; [tauto|].
  intros Hnd Hq Hs E. inversion Hnd as [|? ? Hnotin Hnd']; subst.
  destruct Hq as [->|Hq], Hs as [->|Hs].
  - reflexivity.
  - exfalso. apply Hnotin. rewrite <- E. now apply in_map.
  - exfalso. apply Hnotin. rewrite E. now apply in_map.
  - auto.
Qed.

Lemma not_selected_spec pool sel q :
  List.NoDup (map q_id pool) -> (forall s, In s sel -> In s pool) -> In q pool ->
  (not_selected sel q = true <-> ~ In q sel).
Proof.
  intros Hnd Hsub Hq. unfold not_selected.
  rewrite negb_true_iff, <- not_true_iff_false, existsb_exists.
  split; intros Hn Hin; apply Hn.
  - exists q. split; [assumption | apply String.eqb_refl].
  - destruct Hin as (s & Hs & E). apply String.eqb_eq in E.
    now rewrite <- (id_inj pool q s Hnd Hq (Hsub s Hs) E).
Qed.

(** Removing the selected questions leaves the rest of the pool. *)
Lemma pool_split pool sel :
  List.NoDup (map q_id pool) -> (forall s, In s sel -> In s pool) -> List.NoDup sel ->
  Permutation pool (sel ++ List.filter (not_selected sel) pool).
Proof.
  intros Hnd Hsub Hsel. apply Permutation.NoDup_Permutation.
  - eapply NoDup_map_inv, Hnd.
  - apply List.NoDup_app; [assumption | |].
    + apply List.NoDup_filter. eapply NoDup_map_inv, Hnd.
    + intros a Ha Hf. apply filter_In in Hf as [Hp Hns].
      apply (not_selected_spec pool sel a Hnd Hsub Hp) in Hns. contradiction.
  - intros q. rewrite in_app_iff, filter_In. split.
    + intros Hq. destruct (not_selected sel q) eqn:E; [now right|].
      left. unfold not_selected in E. apply negb_false_iff in E.
      apply existsb_exists in E as (s & Hs & Eid). apply String.eqb_eq in Eid.
      now rewrite <- (id_inj pool q s Hnd Hq (Hsub s Hs) Eid).
    + intros [Hq|[Hq _]]; auto.
Qed.

End SelectFacts.

Section SelectLoop.
Import Bank.

Lemma slice0_nonneg {A} (l : list A) count :
  0 <= count -> slice0 l count = take (Z.to_nat count) l.
Proof. intros H. unfold slice0. destruct (Z.ltb_spec count 0); [lia | reflexivity]. Qed.

Lemma In_take {A} (x : A) n l : In x (take n l) -> In x l.
Proof.
  intros H. rewrite <- (take_drop n l). apply in_or_app. now left.
Qed.

Lemma NoDup_take_of {A} n (l : list A) : List.NoDup l -> List.NoDup (take n l).
Proof.
  intros H. rewrite <- (take_drop n l) in H. eapply NoDup_app_remove_r, H.
Qed.

(** One round of the selection loop. *)
Lemma select_round (shuffle : nat -> list nat) (k : nat) (pool : list Question)
      (count marks : Z) (rest : Distribution) :
  0 <= count -> nonneg_counts rest ->
  List.NoDup (map q_id pool) ->
  (forall m, required_for ((count, marks) :: rest) m <= availableCount pool m) ->
  let selected := slice0 (permute (shuffle k) (List.filter (has_marks marks) pool)) count in
  let pool' := List.filter (not_selected selected) pool in
  group_ok (count, marks) selected /\
  Permutation pool (selected ++ pool') /\
  List.NoDup (map q_id pool') /\
  (forall m, required_for rest m <= availableCount pool' m).
Proof.
  intros Hc Hrest Hnd Hsuff selected pool'.
  set (suitable := List.filter (has_marks marks) pool) in *.
  set (P := permute (shuffle k) suitable) in *.
  assert (HP : Permutation P suitable) by apply permute_Permutation.
  assert (Hsel : selected = take (Z.to_nat count) P)
    by (unfold selected; now apply slice0_nonneg).
  assert (Hlen : (Z.to_nat count <= length P)%nat).
  { rewrite (Permutation_length HP).
    pose proof (Hsuff marks) as Hm. simpl in Hm. rewrite Z.eqb_refl in Hm.
    pose proof (required_for_nonneg rest marks Hrest).
    unfold availableCount in Hm. fold suitable in Hm. lia. }
  assert (Hsub : forall s, In s selected -> In s suitable).
  { intros s Hs. rewrite Hsel in Hs. apply In_take in Hs.
    eapply Permutation_in; eassumption. }
  assert (Hmarks : Forall (fun q => q_marks q = marks) selected).
  { apply Forall_forall. intros q Hq. apply list_elem_of_In, Hsub in Hq.
    apply filter_In in Hq as [_ Hq]. now apply Z.eqb_eq in Hq. }
  assert (Hgroup : group_ok (count, marks) selected).
  { split; [|assumption]. simpl. rewrite Hsel, length_take. lia. }
  assert (Hsplit : Permutation pool (selected ++ pool')).
  { apply pool_split; [assumption | |].
    - intros s Hs. apply Hsub, filter_In in Hs. tauto.
    - rewrite Hsel. apply NoDup_take_of.
      eapply Permutation_NoDup; [symmetry; exact HP|].
      apply List.NoDup_filter. eapply NoDup_map_inv, Hnd. }
  split; [assumption|]. split; [assumption|]. split.
  - apply (Permutation_map q_id) in Hsplit. rewrite map_app in Hsplit.
    eapply NoDup_app_remove_l, Permutation_NoDup; eassumption.
  - intros m. specialize (Hsuff m). simpl in Hsuff.
    rewrite (availableCount_Permutation _ _ m Hsplit), availableCount_app in Hsuff.
    rewrite (availableCount_same_marks selected marks m Hmarks) in Hsuff.
    destruct Hgroup as [Hl _]. simpl in Hl.
    destruct (marks =? m); lia.
Qed.

(** The whole loop: the result is the accumulator followed by one group
    per pair of the distribution, all taken from the pool. *)
Lemma select_groups_spec (shuffle : nat -> list nat) (d : Distribution) :
  forall (k : nat) (pool acc : list Question),
    nonneg_counts d ->
    List.NoDup (map q_id pool) ->
    (forall m, required_for d m <= availableCount pool m) ->
    exists groups rest_pool,
      select_groups shuffle k d pool acc = acc ++ concat groups /\
      Forall2 group_ok d groups /\
      Permutation pool (concat groups ++ rest_pool).
Proof.
  induction d as [|[count marks] rest IH]; intros k pool acc Hnn Hnd Hsuff.
  - exists [], pool. simpl. rewrite app_nil_r. repeat split; constructor || reflexivity.
  - inversion Hnn as [|? ? Hc Hrest]; subst. simpl in Hc.
    destruct (select_round shuffle k pool count marks rest Hc Hrest Hnd Hsuff)
      as (Hgroup & Hsplit & Hnd' & Hsuff').
    simpl.
    set (selected := slice0 (permute (shuffle k) (List.filter (has_marks marks) pool)) count) in *.
    destruct (IH (S k) (List.filter (not_selected selected) pool) (acc ++ selected)
                 Hrest Hnd' Hsuff') as (groups & rest_pool & Heq & Hall & Hperm).
    exists (selected :: groups), rest_pool. simpl. split; [|split].
    + rewrite Heq. now rewrite <- app_assoc.
    + now constructor.
    + rewrite <- app_assoc. etransitivity; [exact Hsplit|].
      now apply Permutation_app_head.
Qed.


Lemma no_missing_sufficient (pool : list Question) (d : Distribution) :
  missingMessages pool (requiredCounts d) = [] ->
  forall m, required_for d m <= availableCount pool m.
Proof.
  intros Hnil m.
  destruct (Z.le_gt_cases (required_for d m) (availableCount pool m)) as [|Hlt];
    [assumption|].
  destruct (BankSpec.asked d m) eqn:Ha.
  - exfalso.
    assert (Hin : In (missingMessage (required_for d m) m (availableCount pool m))
                     (missingMessages pool (requiredCounts d))).
    { apply missingMessages_In. exists m, (required_for d m).
      repeat split; [|assumption]. apply requiredCounts_In. auto. }
    rewrite Hnil in Hin. contradiction.
  - rewrite (required_for_not_asked d m Ha). apply availableCount_nonneg.
Qed.

End SelectLoop.




(* ===================================================================== *)
(** * Frame rules: what a run leaves untouched                            *)
(* ===================================================================== *)

Section FrameRules.
Import Run.

Lemma safe_ret {A} n (a : A) (Q : A -> Prop) : Q a -> safe n (ret a) Q.
Proof.
  intros HQ s Hs. unfold ret, store_of, result_of. simpl.
  repeat split; auto. intros b [= <-]. exact HQ.
Qed.

Lemma safe_mono {A} n (m : M A) (P Q : A -> Prop) :
  safe n m P -> (forall a, P a -> Q a) -> safe n m Q.
Proof.
  intros Hm HPQ s Hs. destruct (Hm s Hs) as (H1 & H2 & H3).
  repeat split; auto.
Qed.

Lemma safe_bind {A B} n (m : M A) (k : A -> M B) (P : A -> Prop) (Q : B -> Prop) :
  safe n m P -> (forall a, P a -> safe n (k a) Q) -> safe n (bind m k) Q.
Proof.
  intros Hm Hk s Hs. specialize (Hm s Hs).
  unfold bind, store_of, result_of in *.
  destruct (m s) as [[r s1] ev1]. simpl in Hm. destruct Hm as (H1 & H2 & H3).
  destruct r as [a|e]; simpl.
  - specialize (Hk a (H3 a eq_refl) s1 H1).
    destruct (k a s1) as [[r2 s2] ev2]. simpl in *.
    destruct Hk as (K1 & K2 & K3).
    split; [assumption|]. split; [|assumption].
    intros l Hl. now rewrite K2, H2.
  - split; [assumption|]. split; [assumption|]. intros b Hb. discriminate.
Qed.

Lemma safe_throw {A} n e (Q : A -> Prop) : safe n (throw e) Q.
Proof.
  intros s Hs. unfold throw, store_of, result_of. simpl.
  repeat split; auto. intros a Ha. discriminate.
Qed.

Lemma safe_emit n e : safe n (emit e) (fun _ => True).
Proof. intros s Hs. unfold emit, store_of, result_of. simpl. auto. Qed.

Lemma safe_emit_all n es : safe n (emit_all es) (fun _ => True).
Proof. intros s Hs. unfold emit_all, store_of, result_of. simpl. auto. Qed.

Lemma safe_get_calls n : safe n get_calls (fun _ => True).
Proof. intros s Hs. unfold get_calls, store_of, result_of. simpl. auto. Qed.

Lemma safe_try_catch {A} n (m : M A) (h : Thrown -> M A) (Q : A -> Prop) :
  safe n m Q -> (forall e, safe n (h e) Q) -> safe n (try_catch m h) Q.
Proof.
  intros Hm Hh s Hs. specialize (Hm s Hs).
  unfold try_catch, store_of, result_of in *.
  destruct (m s) as [[r s1] ev1]. simpl in Hm. destruct Hm as (H1 & H2 & H3).
  destruct r as [a|e]; simpl.
  - auto.
  - specialize (Hh e s1 H1). destruct (h e s1) as [[r2 s2] ev2]. simpl in *.
    destruct Hh as (K1 & K2 & K3).
    split; [assumption|]. split; [|assumption].
    intros l Hl. now rewrite K2, H2.
Qed.

Lemma safe_try_finally {A} n (m : M A) (f : M unit) (Q : A -> Prop) :
  safe n m Q -> safe n f (fun _ => True) -> safe n (try_finally m f) Q.
Proof.
  intros Hm Hf s Hs. specialize (Hm s Hs).
  unfold try_finally, store_of, result_of in *.
  destruct (m s) as [[r s1] ev1]. simpl in Hm. destruct Hm as (H1 & H2 & H3).
  specialize (Hf s1 H1). destruct (f s1) as [[r2 s2] ev2]. simpl in *.
  destruct Hf as (K1 & K2 & _).
  destruct r2 as [u|e]; simpl.
  - split; [assumption|]. split; [|assumption]. intros l Hl. now rewrite K2, H2.
  - split; [assumption|]. split; [|intros a Ha; discriminate].
    intros l Hl. now rewrite K2, H2.
Qed.

Lemma safe_for_each {A} n (l : list A) (body : A -> M unit) :
  (forall x, safe n (body x) (fun _ => True)) ->
  safe n (for_each l body) (fun _ => True).
Proof.
  intros Hb. induction l as [|x r IH]; simpl.
  - now apply safe_ret.
  - eapply safe_bind; [apply Hb | intros _ _; exact IH].
Qed.

(** ** Arrays *)

Lemma safe_read n l : safe n (arr_read l) (fun _ => True).
Proof. intros s Hs. unfold arr_read, store_of, result_of. simpl. auto. Qed.

Lemma safe_new n a : safe n (arr_new a) (fun l => (n <= l)%nat).
Proof.
  intros s Hs. unfold arr_new, store_of, result_of. simpl.
  split; [rewrite length_app; lia|]. split.
  - intros l Hl. apply lookup_app_l. lia.
  - intros l [= <-]. assumption.
Qed.

Lemma safe_write n l a : (n <= l)%nat -> safe n (arr_write l a) (fun _ => True).
Proof.
  intros Hnl s Hs. unfold arr_write, store_of, result_of. simpl.
  split; [rewrite length_insert; lia|]. split; [|auto].
  intros l' Hl'. apply list_lookup_insert_ne. lia.
Qed.

Lemma safe_filter n p l : safe n (arr_filter p l) (fun l' => (n <= l')%nat).
Proof.
  unfold arr_filter. eapply safe_bind; [apply safe_read|].
  intros a _. apply safe_new.
Qed.

Lemma safe_slice0 n l count : safe n (arr_slice0 l count) (fun l' => (n <= l')%nat).
Proof.
  unfold arr_slice0. eapply safe_bind; [apply safe_read|].
  intros a _. apply safe_new.
Qed.

Lemma safe_sort n code l :
  (n <= l)%nat -> safe n (arr_sort code l) (fun l' => (n <= l')%nat).
Proof.
  intros Hl. unfold arr_sort. eapply safe_bind; [apply safe_read|].
  intros a _. eapply safe_bind; [now apply safe_write|].
  intros _ _. now apply safe_ret.
Qed.

Lemma safe_push n l xs : (n <= l)%nat -> safe n (arr_push l xs) (fun _ => True).
Proof.
  intros Hl. unfold arr_push. eapply safe_bind; [apply safe_read|].
  intros a _. now apply safe_write.
Qed.

Lemma safe_length n l : safe n (arr_length l) (fun _ => True).
Proof.
  unfold arr_length. eapply safe_bind; [apply safe_read|].
  intros a _. now apply safe_ret.
Qed.

End FrameRules.

Section FrameOfTheGenerator.
Import Run Generator.

Lemma safe_missing_loop n entries sourcePool acc :
  safe n (missing_loop entries sourcePool acc) (fun _ => True).
Proof.
  revert acc. induction entries as [|[marks req] rest IH]; intros acc; simpl.
  - now apply safe_ret.
  - eapply safe_bind; [apply safe_filter|]. intros matching _.
    eapply safe_bind; [apply safe_length|]. intros k _. apply IH.
Qed.

Lemma safe_select_loop n o d :
  forall k sourcePool finalQuestions,
    (n <= finalQuestions)%nat ->
    safe n (select_loop o k d sourcePool finalQuestions) (fun _ => True).
Proof.
  induction d as [|[count marks] rest IH]; intros k sp fq Hfq; simpl.
  - now apply safe_ret.
  - eapply safe_bind; [apply safe_filter|]. intros suitable Hsu.
    eapply safe_bind; [now apply safe_sort|]. intros sorted Hso.
    eapply safe_bind; [apply safe_slice0|]. intros selected _.
    eapply safe_bind; [apply safe_read|]. intros sel _.
    eapply safe_bind; [now apply safe_push|]. intros _ _.
    eapply safe_bind; [apply safe_filter|]. intros sp' _.
    now apply IH.
Qed.

Lemma safe_generateFromBank n c o d :
  safe n (generateFromBank c o d)
       (fun r => match r with QuestionsRef l => (n <= l)%nat | ErrorRef _ => True end).
Proof.
  unfold generateFromBank.
  eapply safe_bind; [apply safe_filter|]. intros byClass _.
  eapply safe_bind with (P := fun _ => True).
  { destruct (avoidPrevious c).
    - eapply safe_mono; [apply safe_filter | auto].
    - now apply safe_ret. }
  intros sp _.
  eapply safe_bind; [apply safe_missing_loop|]. intros missing _.
  destruct (0 <? length missing)%nat.
  - now apply safe_ret.
  - eapply safe_bind; [apply safe_new|]. intros fq Hfq.
    eapply safe_bind; [now apply safe_select_loop|]. intros _ _.
    now apply safe_ret.
Qed.

Lemma safe_createPaper n c o qs source :
  safe n (createPaper c o qs source) (fun _ => True).
Proof.
  unfold createPaper. eapply safe_bind; [apply safe_read|].
  intros content _. now apply safe_ret.
Qed.

Lemma safe_generateQuestionsAI n o criteria existing :
  safe n (generateQuestionsAI o criteria existing) (fun _ => True).
Proof.
  intros s Hs. unfold generateQuestionsAI, store_of, result_of.
  destruct (ai_service o _ _ _); simpl; auto.
Qed.

Lemma safe_ai_request n c o aiChapters marks pool fq request :
  (n <= pool)%nat -> (n <= fq)%nat ->
  safe n (ai_request c o aiChapters marks pool fq request) (fun _ => True).
Proof.
  intros Hpool Hfq. unfold ai_request.
  eapply safe_bind; [apply safe_length|]. intros produced _.
  eapply safe_bind with (P := fun _ => True).
  { destruct (0 <? produced)%nat; [apply safe_emit | now apply safe_ret]. }
  intros _ _.
  eapply safe_bind; [apply safe_get_calls|]. intros call _.
  eapply safe_bind; [apply safe_generateQuestionsAI|]. intros batch _.
  destruct (0 <? length batch)%nat; [|now apply safe_ret].
  eapply safe_bind; [now apply safe_push|]. intros _ _.
  now apply safe_push.
Qed.

Lemma safe_ai_try n c o d : safe n (ai_try c o d) (fun _ => True).
Proof.
  unfold ai_try. destruct (_ =? _)%nat; [apply safe_emit|].
  eapply safe_bind; [apply safe_filter|]. intros pool Hpool.
  eapply safe_bind; [apply safe_new|]. intros fq Hfq.
  eapply safe_bind with (P := fun _ => True).
  { apply safe_for_each. intros [count marks].
    apply safe_for_each. intros request. now apply safe_ai_request. }
  intros _ _.
  eapply safe_bind; [apply safe_createPaper|]. intros paper _.
  apply safe_emit.
Qed.

Lemma safe_bank_outcome n c o (after : M unit) :
  safe n after (fun _ => True) ->
  forall r, match r with QuestionsRef l => (n <= l)%nat | ErrorRef _ => True end ->
  safe n (match r with
          | ErrorRef err => showToast (Lit err) error
          | QuestionsRef qs =>
              let* paper := createPaper c o qs Manual in
              emit (SetGeneratedPaper (Some paper)) >> after
          end) (fun _ => True).
Proof.
  intros Hafter [err|qs] _; [apply safe_emit|].
  eapply safe_bind; [apply safe_createPaper|]. intros paper _.
  eapply safe_bind; [apply safe_emit|]. intros _ _. exact Hafter.
Qed.

Lemma safe_ai_catch n c o d e : safe n (ai_catch c o d e) (fun _ => True).
Proof.
  unfold ai_catch.
  eapply safe_bind; [apply safe_emit|]. intros _ _.
  eapply safe_bind with (P := fun _ => True).
  { destruct e; simpl; [apply safe_throw | now apply safe_ret]. }
  intros quota _.
  eapply safe_bind with (P := fun _ => True).
  { destruct quota; apply safe_emit. }
  intros _ _.
  eapply safe_bind; [apply safe_emit|]. intros _ _.
  eapply safe_bind; [apply safe_generateFromBank|].
  intros r Hr. now apply safe_bank_outcome; [apply safe_emit|].
Qed.

Lemma safe_bank_branch n c o d : safe n (bank_branch c o d) (fun _ => True).
Proof.
  unfold bank_branch.
  eapply safe_bind; [apply safe_generateFromBank|].
  intros [err|qs] _; [apply safe_emit|].
  eapply safe_bind; [apply safe_createPaper|]. intros paper _. apply safe_emit.
Qed.

Lemma safe_computeDistribution n c o :
  safe n (computeDistribution c o) (fun _ => True).
Proof.
  unfold computeDistribution. destruct (generationMode (settings c)).
  - destruct (Parser.parseDistribution _); [now apply safe_ret|].
    eapply safe_bind; [apply safe_emit|]. intros _ _.
    eapply safe_bind; [apply safe_emit|]. intros _ _. now apply safe_ret.
  - eapply safe_bind; [apply safe_emit_all|]. intros _ _.
    destruct (fst _); [now apply safe_ret|].
    eapply safe_bind; [apply safe_emit|]. intros _ _.
    eapply safe_bind; [apply safe_emit|]. intros _ _. now apply safe_ret.
Qed.

Lemma safe_handleGenerate n c o useAI :
  safe n (handleGenerate c o useAI) (fun _ => True).
Proof.
  unfold handleGenerate.
  eapply safe_bind; [apply safe_emit|]. intros _ _.
  eapply safe_bind; [apply safe_emit|]. intros _ _.
  apply safe_try_finally; [|apply safe_emit].
  apply safe_try_catch.
  - eapply safe_bind; [apply safe_computeDistribution|].
    intros [d|] _; [|now apply safe_ret].
    destruct useAI; [|apply safe_bank_branch].
    unfold ai_branch. apply safe_try_catch; [apply safe_ai_try|].
    intros e. apply safe_ai_catch.
  - intros e. eapply safe_bind; [apply safe_emit|]. intros _ _. apply safe_emit.
Qed.

End FrameOfTheGenerator.

(** C9 (the bank is never written): every array that exists when
    [generateFromBank] or [handleGenerate] (with or without AI) starts holds
    the same questions when it ends; in particular the [questions] array of
    the bank.  Filtering, slicing and the accumulators work on arrays
    created during the run. *)
Theorem bank_never_written
    (c : Component) (o : Oracle) (useAI : bool) (distribution : Distribution)
    (s : Run.Store) (l : Run.loc) (qs : list Question) :
  Run.heap s !! l = Some qs ->
  Run.heap (Run.store_of (Generator.generateFromBank c o distribution s)) !! l = Some qs /\
  Run.heap (Run.store_of (Generator.handleGenerate c o useAI s)) !! l = Some qs.
Proof.
  intros Hl. pose proof (lookup_lt_Some _ _ _ Hl) as Hlt.
  destruct (safe_generateFromBank (length (Run.heap s)) c o distribution s (le_n _))
    as (_ & H1 & _).
  destruct (safe_handleGenerate (length (Run.heap s)) c o useAI s (le_n _))
    as (_ & H2 & _).
  rewrite H1, H2 by assumption. auto.
Qed.

Lemma bank_never_written_witness :
  Run.heap (Run.store_of
    (Generator.handleGenerate (demo_component (ai_settings "2x5" "Cell" []))
       (oracle_with ai_one) true demo_store)) !! 0%nat = Some demo_bank.
Proof.
  refine (proj2 (bank_never_written
            (demo_component (ai_settings "2x5" "Cell" [])) (oracle_with ai_one)
            true [] demo_store 0%nat demo_bank _)).
  reflexivity.
Defined.

(* ===================================================================== *)
(** * Running the heap program: it computes [Bank.generateFromBank]       *)
(* ===================================================================== *)

Section WpRules.
Import Run.

Lemma wp_ret {A} (a : A) s (Q : Res A -> Store -> list Event -> Prop) :
  Q (Val a) s [] -> wp (ret a) s Q.
Proof. exact (fun H => H). Qed.

Lemma wp_emit e s (Q : Res unit -> Store -> list Event -> Prop) :
  Q (Val tt) s [e] -> wp (emit e) s Q.
Proof. exact (fun H => H). Qed.

Lemma wp_bind {A B} (m : M A) (k : A -> M B) s
      (Q : Res B -> Store -> list Event -> Prop) :
  wp m s (fun r s1 ev1 =>
            match r with
            | Val a => wp (k a) s1 (fun r2 s2 ev2 => Q r2 s2 (ev1 ++ ev2))
            | Exn e => Q (Exn e) s1 ev1
            end) ->
  wp (bind m k) s Q.
Proof.
  unfold wp, bind, result_of, store_of, events_of.
  destruct (m s) as [[[a|e] s1] ev1]; simpl; [|auto].
  destruct (k a s1) as [[r2 s2] ev2]. simpl. auto.
Qed.

Lemma wp_read l a s (Q : Res (list Question) -> Store -> list Event -> Prop) :
  heap s !! l = Some a -> Q (Val a) s [] -> wp (arr_read l) s Q.
Proof.
  intros Hl HQ. unfold wp, arr_read, result_of, store_of, events_of. simpl.
  now rewrite Hl.
Qed.

(** A new array is at a location that held nothing; what was there stays. *)
Lemma wp_new a s (Q : Res loc -> Store -> list Event -> Prop) :
  (forall s' l,
      heap s !! l = None -> heap s' !! l = Some a ->
      (forall l' b, heap s !! l' = Some b -> heap s' !! l' = Some b) ->
      ai_calls s' = ai_calls s ->
      Q (Val l) s' []) ->
  wp (arr_new a) s Q.
Proof.
  intros HQ. unfold wp, arr_new, result_of, store_of, events_of. simpl.
  apply HQ; simpl.
  - apply lookup_ge_None. lia.
  - now apply list_lookup_middle.
  - intros l' b Hb. rewrite lookup_app_l; [assumption|].
    eapply lookup_lt_Some, Hb.
  - reflexivity.
Qed.

Lemma wp_write l a old s (Q : Res unit -> Store -> list Event -> Prop) :
  heap s !! l = Some old ->
  (forall s',
      heap s' !! l = Some a ->
      (forall l', l' <> l -> heap s' !! l' = heap s !! l') ->
      ai_calls s' = ai_calls s ->
      Q (Val tt) s' []) ->
  wp (arr_write l a) s Q.
Proof.
  intros Hl HQ. unfold wp, arr_write, result_of, store_of, events_of. simpl.
  apply HQ; simpl.
  - apply list_lookup_insert_eq. eapply lookup_lt_Some, Hl.
  - intros l' Hne. now apply list_lookup_insert_ne.
  - reflexivity.
Qed.

Lemma wp_filter p l a s (Q : Res loc -> Store -> list Event -> Prop) :
  heap s !! l = Some a ->
  (forall s' l',
      heap s !! l' = None -> heap s' !! l' = Some (List.filter p a) ->
      (forall l0 b, heap s !! l0 = Some b -> heap s' !! l0 = Some b) ->
      ai_calls s' = ai_calls s ->
      Q (Val l') s' []) ->
  wp (arr_filter p l) s Q.
Proof.
  intros Hl HQ. unfold arr_filter. apply wp_bind.
  eapply wp_read; [eassumption|]. apply wp_new. exact HQ.
Qed.

Lemma wp_slice0 l count a s (Q : Res loc -> Store -> list Event -> Prop) :
  heap s !! l = Some a ->
  (forall s' l',
      heap s !! l' = None -> heap s' !! l' = Some (Bank.slice0 a count) ->
      (forall l0 b, heap s !! l0 = Some b -> heap s' !! l0 = Some b) ->
      ai_calls s' = ai_calls s ->
      Q (Val l') s' []) ->
  wp (arr_slice0 l count) s Q.
Proof.
  intros Hl HQ. unfold arr_slice0. apply wp_bind.
  eapply wp_read; [eassumption|]. apply wp_new. exact HQ.
Qed.

Lemma wp_sort code l a s (Q : Res loc -> Store -> list Event -> Prop) :
  heap s !! l = Some a ->
  (forall s',
      heap s' !! l = Some (Bank.permute code a) ->
      (forall l', l' <> l -> heap s' !! l' = heap s !! l') ->
      ai_calls s' = ai_calls s ->
      Q (Val l) s' []) ->
  wp (arr_sort code l) s Q.
Proof.
  intros Hl HQ. unfold arr_sort. apply wp_bind.
  eapply wp_read; [eassumption|]. apply wp_bind.
  eapply wp_write; [eassumption|]. intros s' H1 H2 H3.
  apply wp_ret. now apply HQ.
Qed.

Lemma wp_push l xs a s (Q : Res unit -> Store -> list Event -> Prop) :
  heap s !! l = Some a ->
  (forall s',
      heap s' !! l = Some (a ++ xs) ->
      (forall l', l' <> l -> heap s' !! l' = heap s !! l') ->
      ai_calls s' = ai_calls s ->
      Q (Val tt) s' []) ->
  wp (arr_push l xs) s Q.
Proof.
  intros Hl HQ. unfold arr_push. apply wp_bind.
  eapply wp_read; [eassumption|].
  eapply wp_write; [eassumption|]. exact HQ.
Qed.

Lemma wp_length l a s (Q : Res nat -> Store -> list Event -> Prop) :
  heap s !! l = Some a -> Q (Val (length a)) s [] -> wp (arr_length l) s Q.
Proof.
  intros Hl HQ. unfold arr_length. apply wp_bind.
  eapply wp_read; [eassumption|]. now apply wp_ret.
Qed.

End WpRules.

Section RunOfTheBank.
Import Run Generator.

Lemma fresh_ne (h : list (list Question)) (l l' : loc) (a : list Question) :
  h !! l = None -> h !! l' = Some a -> l <> l'.
Proof. intros Hn Hs ->. congruence. Qed.

Lemma wp_missing_loop entries sourcePool pool :
  forall acc s (Q : Res (list string) -> Store -> list Event -> Prop),
    heap s !! sourcePool = Some pool ->
    (forall s',
        (forall l b, heap s !! l = Some b -> heap s' !! l = Some b) ->
        ai_calls s' = ai_calls s ->
        Q (Val (acc ++ Bank.missingMessages pool entries)) s' []) ->
    wp (missing_loop entries sourcePool acc) s Q.
Proof.
  induction entries as [|[marks req] rest IH]; intros acc s Q Hsp HQ; simpl.
  - apply wp_ret. specialize (HQ s (fun _ _ H => H) eq_refl).
    simpl in HQ. now rewrite app_nil_r in HQ.
  - apply wp_bind. eapply wp_filter; [eassumption|].
    intros s1 l1 Hfresh Hl1 Hpres Hcalls.
    apply wp_bind. eapply wp_length; [eassumption|].
    apply IH; [now apply Hpres|].
    intros s2 Hpres2 Hcalls2.
    assert (E : forall (pre : list string),
               (if Bank.availableCount pool marks <? req
                then pre ++ [Bank.missingMessage req marks (Bank.availableCount pool marks)]
                else pre) ++ Bank.missingMessages pool rest
               = pre ++ (if Bank.availableCount pool marks <? req
                         then [Bank.missingMessage req marks (Bank.availableCount pool marks)]
                         else []) ++ Bank.missingMessages pool rest).
    { intros pre. destruct (_ <? _); [now rewrite <- app_assoc | reflexivity]. }
    unfold Bank.availableCount in E. rewrite E.
    apply HQ; [auto | congruence].
Qed.

Lemma wp_select_loop o d :
  forall k s sp fq pool acc (Q : Res unit -> Store -> list Event -> Prop),
    heap s !! sp = Some pool -> heap s !! fq = Some acc -> sp <> fq ->
    (forall s',
        heap s' !! fq = Some (Bank.select_groups (shuffle o) k d pool acc) ->
        ai_calls s' = ai_calls s ->
        Q (Val tt) s' []) ->
    wp (select_loop o k d sp fq) s Q.
Proof.
  induction d as [|[count marks] rest IH]; intros k s sp fq pool acc Q Hsp Hfq Hne HQ; simpl.
  - apply wp_ret. now apply HQ.
  - apply wp_bind. eapply wp_filter; [eassumption|].
    intros s1 l1 Hfresh1 Hl1 Hpres1 Hc1.
    apply wp_bind. eapply wp_sort; [eassumption|].
    intros s2 Hl1' Hpres2 Hc2.
    assert (Hsp2 : heap s2 !! sp = Some pool).
    { rewrite Hpres2; [auto|]. intros ->. congruence. }
    assert (Hfq2 : heap s2 !! fq = Some acc).
    { rewrite Hpres2; [auto|]. intros ->. congruence. }
    apply wp_bind. eapply wp_slice0; [eassumption|].
    intros s3 l2 Hfresh3 Hl2 Hpres3 Hc3.
    apply wp_bind. eapply wp_read; [eassumption|].
    apply wp_bind. eapply wp_push; [apply Hpres3; exact Hfq2|].
    intros s4 Hfq4 Hpres4 Hc4.
    assert (Hsp4 : heap s4 !! sp = Some pool).
    { rewrite Hpres4 by assumption. now apply Hpres3. }
    apply wp_bind. eapply wp_filter; [eassumption|].
    intros s5 l3 Hfresh5 Hl3 Hpres5 Hc5.
    eapply IH; [eassumption | apply Hpres5; exact Hfq4 | |].
    + intros ->. congruence.
    + intros s' Hres Hc'. apply HQ; [exact Hres | congruence].
Qed.

Lemma wp_source_pool (avoid : bool) l1 byClass s
      (Q : Res loc -> Store -> list Event -> Prop) :
  heap s !! l1 = Some byClass ->
  (forall s' sp,
      heap s' !! sp = Some (if avoid then List.filter Bank.unused byClass else byClass) ->
      (forall l0 b, heap s !! l0 = Some b -> heap s' !! l0 = Some b) ->
      ai_calls s' = ai_calls s ->
      Q (Val sp) s' []) ->
  wp (if avoid then arr_filter Bank.unused l1 else ret l1) s Q.
Proof.
  intros Hl HQ. destruct avoid.
  - eapply wp_filter; [eassumption|]. intros s' sp _ Hsp Hpres Hc. now apply HQ.
  - apply wp_ret. now apply HQ.
Qed.

(** The heap program returns what the function on lists computes from the
    content of the bank array, emits nothing and makes no AI request. *)
Lemma wp_generateFromBank c o d qs s (Q : Res BankRef -> Store -> list Event -> Prop) :
  heap s !! questions c = Some qs ->
  (forall r s',
      ai_calls s' = ai_calls s ->
      match Bank.generateFromBank qs (selectedClass c) (avoidPrevious c) (shuffle o) d with
      | Bank.Error err => r = ErrorRef err
      | Bank.Questions l => exists fq, r = QuestionsRef fq /\ heap s' !! fq = Some l
      end ->
      Q (Val r) s' []) ->
  wp (generateFromBank c o d) s Q.
Proof.
  intros Hq HQ. unfold generateFromBank, Bank.generateFromBank in *.
  apply wp_bind. eapply wp_filter; [eassumption|].
  intros s1 l1 Hfresh1 Hl1 Hpres1 Hc1.
  apply wp_bind. eapply wp_source_pool; [eassumption|].
  intros s2 sp Hsp Hpres2 Hc2.
  fold (Bank.sourcePool qs (selectedClass c) (avoidPrevious c)) in *.
  set (pool := Bank.sourcePool qs (selectedClass c) (avoidPrevious c)) in *.
  apply wp_bind. eapply wp_missing_loop; [eassumption|].
  intros s3 Hpres3 Hc3. simpl.
  destruct (0 <? length (Bank.missingMessages pool (Bank.requiredCounts d)))%nat.
  - apply wp_ret. apply HQ; [lia | reflexivity].
  - apply wp_bind. apply wp_new. intros s4 fq Hfresh4 Hfq Hpres4 Hc4.
    apply wp_bind. eapply wp_select_loop;
      [apply Hpres4, Hpres3; exact Hsp | eassumption | |].
    + intros ->. apply Hpres3 in Hsp. congruence.
    + intros s5 Hres Hc5. apply wp_ret. apply HQ; [lia|]. eauto.
Qed.

(** In plain terms: run on a store whose bank array holds [qs], the heap
    program returns the error, or an array holding the questions, that
    [Bank.generateFromBank] computes from [qs]. *)
Lemma generateFromBank_computes c o d qs s :
  heap s !! questions c = Some qs ->
  events_of (generateFromBank c o d s) = [] /\
  match Bank.generateFromBank qs (selectedClass c) (avoidPrevious c) (shuffle o) d with
  | Bank.Error err => result_of (generateFromBank c o d s) = Val (ErrorRef err)
  | Bank.Questions l =>
      exists fq, result_of (generateFromBank c o d s) = Val (QuestionsRef fq) /\
                 heap (store_of (generateFromBank c o d s)) !! fq = Some l
  end.
Proof.
  intros Hq.
  apply (wp_generateFromBank c o d qs s
           (fun r s' ev =>
              ev = [] /\
              match Bank.generateFromBank qs (selectedClass c) (avoidPrevious c)
                      (shuffle o) d with
              | Bank.Error err => r = Val (ErrorRef err)
              | Bank.Questions l =>
                  exists fq, r = Val (QuestionsRef fq) /\ heap s' !! fq = Some l
              end) Hq).
  intros r s' _ Hr. split; [reflexivity|].
  destruct (Bank.generateFromBank qs (selectedClass c) (avoidPrevious c) (shuffle o) d).
  - now subst.
  - destruct Hr as (fq & -> & Hfq). eauto.
Qed.

End RunOfTheBank.

(* ===================================================================== *)
(** * The [catch] clause of the AI branch                                 *)
(* ===================================================================== *)

Section CatchClause.
Import Run Generator.

Lemma wp_try_catch {A} (m : M A) (h : Thrown -> M A) s
      (Q : Res A -> Store -> list Event -> Prop) :
  wp m s (fun r s1 ev1 =>
            match r with
            | Val a => Q (Val a) s1 ev1
            | Exn e => wp (h e) s1 (fun r2 s2 ev2 => Q r2 s2 (ev1 ++ ev2))
            end) ->
  wp (try_catch m h) s Q.
Proof.
  unfold wp, try_catch, result_of, store_of, events_of.
  destruct (m s) as [[[a|e] s1] ev1]; simpl; [auto|].
  destruct (h e s1) as [[r2 s2] ev2]. simpl. auto.
Qed.

Lemma wp_try_finally {A} (m : M A) (f : M unit) s
      (Q : Res A -> Store -> list Event -> Prop) :
  wp m s (fun r s1 ev1 =>
            wp f s1 (fun r2 s2 ev2 =>
                       Q (match r2 with Val _ => r | Exn e => Exn e end) s2 (ev1 ++ ev2))) ->
  wp (try_finally m f) s Q.
Proof.
  unfold wp, try_finally, result_of, store_of, events_of.
  destruct (m s) as [[r s1] ev1]. simpl.
  destruct (f s1) as [[[u|e] s2] ev2]; simpl; auto.
Qed.

(** Whatever the classification, the clause announces the fallback and
    then reports the outcome of sampling the bank. *)
Lemma wp_ai_catch c o d v qs s (Q : Res unit -> Store -> list Event -> Prop) :
  heap s !! questions c = Some qs ->
  (forall s',
      ai_calls s' = ai_calls s ->
      Q (Val tt) s'
        ([ConsoleError "Error generating paper with AI:";
          ShowToast (Tr (if quota_view o v then "apiQuotaError" else "apiError") (lang c)) error;
          ShowToast (Tr "fallbackToBank" (lang c)) success] ++
         fallback_events c o
           (Bank.generateFromBank qs (selectedClass c) (avoidPrevious c) (shuffle o) d))) ->
  wp (ai_catch c o d (ThrownValue v)) s Q.
Proof.
  intros Hq HQ. unfold ai_catch, isQuotaError, showToast.
  apply wp_bind, wp_emit. apply wp_bind, wp_ret. apply wp_bind.
  assert (Htoast : forall (Q' : Res unit -> Store -> list Event -> Prop),
             Q' (Val tt) s
                [ShowToast (Tr (if quota_view o v then "apiQuotaError" else "apiError")
                               (lang c)) error] ->
             wp (if quota_view o v
                 then emit (ShowToast (Tr "apiQuotaError" (lang c)) error)
                 else emit (ShowToast (Tr "apiError" (lang c)) error)) s Q').
  { intros Q' H. destruct (quota_view o v); now apply wp_emit. }
  apply Htoast. apply wp_bind, wp_emit. apply wp_bind.
  eapply wp_generateFromBank; [eassumption|].
  intros r s' Hc Hr. simpl.
  destruct (Bank.generateFromBank qs (selectedClass c) (avoidPrevious c) (shuffle o) d)
    as [err|l].
  - subst r. apply wp_emit. now apply HQ.
  - destruct Hr as (fq & -> & Hfq). unfold createPaper.
    apply wp_bind. apply wp_bind. eapply wp_read; [eassumption|].
    apply wp_ret. apply wp_bind, wp_emit. apply wp_emit. now apply HQ.
Qed.

End CatchClause.

(** C3, as the code has it (fallback after any AI failure): when the AI
    path throws a value other than [null]/[undefined], classified as quota
    or not, the branch logs the error, shows the quota message or the
    generic one according to the classification, then announces the fallback
    and reports the outcome of sampling the bank for the same distribution:
    its deficiency error, or a paper of bank questions and the
    fallback-succeeded notice.  Only the first toast depends on the
    classification. *)
Theorem ai_failure_falls_back
    (c : Component) (o : Oracle) (distribution : Distribution)
    (s s1 : Run.Store) (ev1 : list Event) (v : ErrorView) (qs : list Question) :
  Run.heap s !! questions c = Some qs ->
  Generator.ai_try c o distribution s = (Run.Exn (ThrownValue v), s1, ev1) ->
  Run.result_of (Generator.ai_branch c o distribution s) = Run.Val tt /\
  Run.events_of (Generator.ai_branch c o distribution s) =
    ev1 ++
    [ConsoleError "Error generating paper with AI:";
     ShowToast (Tr (if Generator.quota_view o v then "apiQuotaError" else "apiError")
                   (lang c)) error;
     ShowToast (Tr "fallbackToBank" (lang c)) success] ++
    Generator.fallback_events c o
      (Bank.generateFromBank qs (selectedClass c) (avoidPrevious c) (shuffle o)
         distribution).
Proof.
  intros Hq Htry.
  assert (Hq1 : Run.heap s1 !! questions c = Some qs).
  { destruct (safe_ai_try (length (Run.heap s)) c o distribution s (le_n _))
      as (_ & Hframe & _).
    rewrite Htry in Hframe. unfold Run.store_of in Hframe. simpl in Hframe.
    rewrite Hframe; [assumption|]. eapply lookup_lt_Some, Hq. }
  pose proof (wp_ai_catch c o distribution v qs s1
                (fun r _ ev =>
                   r = Run.Val tt /\
                   ev = [ConsoleError "Error generating paper with AI:";
                         ShowToast (Tr (if Generator.quota_view o v
                                        then "apiQuotaError" else "apiError")
                                       (lang c)) error;
                         ShowToast (Tr "fallbackToBank" (lang c)) success] ++
                        Generator.fallback_events c o
                          (Bank.generateFromBank qs (selectedClass c) (avoidPrevious c)
                             (shuffle o) distribution))
                Hq1 (fun _ _ => conj eq_refl eq_refl)) as Hcatch.
  unfold wp in Hcatch. destruct Hcatch as [Hres Hev].
  unfold Generator.ai_branch, Run.try_catch, Run.result_of, Run.events_of in *.
  rewrite Htry.
  destruct (Generator.ai_catch c o distribution (ThrownValue v) s1) as [[r2 s2] ev2].
  simpl in *. subst. auto.
Qed.

Lemma ai_failure_falls_back_witness :
  Run.events_of
    (Generator.ai_branch (demo_component (ai_settings "2x5" "Cell" []))
       (oracle_with ai_down) [(2, 5)] demo_store)
  = Run.events_of
      (Generator.ai_try (demo_component (ai_settings "2x5" "Cell" []))
         (oracle_with ai_down) [(2, 5)] demo_store) ++
    [ConsoleError "Error generating paper with AI:";
     ShowToast (Tr "apiError" en) error;
     ShowToast (Tr "fallbackToBank" en) success;
     SetGeneratedPaper
       (Some (Generator.paper_of (demo_component (ai_settings "2x5" "Cell" []))
                (oracle_with ai_down) [mkq "a" 10 5 []; mkq "b" 10 5 []] Manual));
     ShowToast (Tr "fallbackSuccess" en) success].
Proof.
  refine (proj2 (ai_failure_falls_back
            (demo_component (ai_settings "2x5" "Cell" [])) (oracle_with ai_down)
            [(2, 5)] demo_store
            (Run.store_of (Generator.ai_try (demo_component (ai_settings "2x5" "Cell" []))
                             (oracle_with ai_down) [(2, 5)] demo_store))
            (Run.events_of (Generator.ai_try (demo_component (ai_settings "2x5" "Cell" []))
                              (oracle_with ai_down) [(2, 5)] demo_store))
            network_down demo_bank _ _)).
  - reflexivity.
  - vm_compute. reflexivity.
Defined.

(** C3 as stated fails: a rejection that carries no quota signature is
    classified as not quota, the generic message is shown, and the bank is
    sampled all the same: the run ends with a paper made of bank questions. *)
Lemma non_quota_failure_still_falls_back :
  Generator.quota_view (oracle_with ai_down) network_down = false /\
  toasts_of (Run.events_of
    (Generator.handleGenerate (demo_component (ai_settings "2x5" "Cell" []))
       (oracle_with ai_down) true demo_store))
  = [(Tr "apiError" en, error); (Tr "fallbackToBank" en, success);
     (Tr "fallbackSuccess" en, success)] /\
  papers_of (Run.events_of
    (Generator.handleGenerate (demo_component (ai_settings "2x5" "Cell" []))
       (oracle_with ai_down) true demo_store))
  = [None; Some [mkq "a" 10 5 []; mkq "b" 10 5 []]].
Proof. vm_compute. repeat split; reflexivity. Qed.

(* ===================================================================== *)
(** * The delay discipline of the AI branch                               *)
(* ===================================================================== *)

Section Observer.
Import Delay.

Lemma observe_app st ev1 ev2 :
  observe st (ev1 ++ ev2) =
  match observe st ev1 with
  | Some st' => observe st' ev2
  | None => None
  end.
Proof.
  revert st. induction ev1 as [|e r IH]; intros st; simpl; [reflexivity|].
  destruct (step st e); [apply IH | reflexivity].
Qed.

Lemma accepted_app p ev1 p1 ev2 p2 :
  accepted p ev1 p1 -> accepted p1 ev2 p2 -> accepted p (ev1 ++ ev2) p2.
Proof. unfold accepted. intros H1 H2. now rewrite observe_app, H1. Qed.

Lemma accepted_nil p : accepted p [] p.
Proof. reflexivity. Qed.

Lemma accepted_neutral p ev :
  forallb neutral ev = true -> accepted p ev p.
Proof.
  unfold accepted. induction ev as [|e r IH]; simpl; [reflexivity|].
  intros H. apply andb_true_iff in H as [He Hr].
  destruct e; simpl in *; try discriminate; auto.
Qed.

Lemma step_produced st e st' :
  step st e = Some st' -> fst st' = fst st || produced_by e.
Proof.
  destruct st as [p pend]. destruct e; simpl;
    try (destruct pend; [discriminate|]; intros [= <-]; simpl; now rewrite orb_false_r).
  - destruct (negb pend && p && (ms =? 1500)); [|discriminate].
    intros [= <-]. simpl. now rewrite orb_false_r.
  - destruct (Bool.eqb pend p); [|discriminate]. intros [= <-]. reflexivity.
Qed.

(** The first component of the observer's state is [produced]. *)
Lemma observe_produced ev : forall st st',
  observe st ev = Some st' -> fst st' = fst st || produced ev.
Proof.
  induction ev as [|e r IH]; intros st st'; simpl.
  - intros [= <-]. now rewrite orb_false_r.
  - destruct (step st e) as [st1|] eqn:E; [|discriminate].
    intros H. apply IH in H. apply step_produced in E.
    rewrite H, E. unfold produced. now rewrite orb_assoc.
Qed.

(** The second component tells whether the events end with the wait. *)
Lemma observe_pending pre : forall p st',
  observe (p, false) pre = Some st' -> (snd st' = true <-> delayed pre).
Proof.
  induction pre as [|e r IH] using rev_ind; intros p st'.
  - simpl. intros [= <-]. simpl. split; [discriminate|].
    intros (pre' & H). destruct pre'; discriminate.
  - rewrite observe_app.
    destruct (observe (p, false) r) as [st1|] eqn:E; [|discriminate].
    simpl. destruct (step st1 e) as [st2|] eqn:E2; [|discriminate].
    intros [= <-]. unfold delayed. destruct st1 as [p1 pend1].
    destruct e; simpl in E2;
      try (destruct pend1; [discriminate|]; injection E2 as <-; simpl;
           split; [discriminate|];
           intros (pre' & H); apply app_inj_tail in H as [_ H]; discriminate).
    + destruct (negb pend1 && p1 && (ms =? 1500)) eqn:C; [|discriminate].
      injection E2 as <-. simpl. split; [|reflexivity]. intros _.
      apply andb_true_iff in C as [_ C]. apply Z.eqb_eq in C. subst ms.
      now exists r.
    + destruct (Bool.eqb pend1 p1); [|discriminate].
      injection E2 as <-. simpl. split; [discriminate|].
      intros (pre' & H). apply app_inj_tail in H as [_ H]. discriminate.
Qed.

(** What acceptance means for each request of the run. *)
Lemma accepted_request ev p' pre cr pool r post :
  accepted false ev p' ->
  ev = pre ++ AICall cr pool r :: post ->
  (delayed pre <-> produced pre = true).
Proof.
  unfold accepted. intros Hacc ->. rewrite observe_app in Hacc.
  destruct (observe (false, false) pre) as [[p pend]|] eqn:E; [|discriminate].
  pose proof (observe_pending pre false _ E) as Hpend.
  pose proof (observe_produced pre _ _ E) as Hprod. simpl in *.
  destruct (Bool.eqb pend p) eqn:Eq; [|discriminate].
  apply Bool.eqb_prop in Eq. subst pend. rewrite <- Hprod. symmetry. exact Hpend.
Qed.

(** What acceptance means for each wait of the run. *)
Lemma accepted_wait ev p' pre ms post :
  accepted false ev p' ->
  ev = pre ++ Timeout ms :: post ->
  ms = 1500 /\ exists cr pool r post', post = AICall cr pool r :: post'.
Proof.
  unfold accepted. intros Hacc ->. rewrite observe_app in Hacc.
  destruct (observe (false, false) pre) as [[p pend]|] eqn:E; [|discriminate].
  simpl in Hacc.
  destruct (negb pend && p && (ms =? 1500)) eqn:C; [|discriminate].
  apply andb_true_iff in C as [_ C]. apply Z.eqb_eq in C. split; [assumption|].
  destruct post as [|e post']; [discriminate|].
  destruct e; simpl in Hacc; try discriminate. eauto.
Qed.

End Observer.

Section SilentParts.
Import Run Generator.

Lemma silent_ret {A} (a : A) : silent (ret a).
Proof. intros s. reflexivity. Qed.

Lemma silent_bind {A B} (m : M A) (k : A -> M B) :
  silent m -> (forall a, silent (k a)) -> silent (bind m k).
Proof.
  intros Hm Hk s. specialize (Hm s). unfold bind, events_of in *.
  destruct (m s) as [[[a|e] s1] ev1]; simpl in *; [|assumption].
  specialize (Hk a s1). unfold events_of in Hk.
  destruct (k a s1) as [[r2 s2] ev2]. simpl in *. now subst.
Qed.

Lemma silent_filter p l : silent (arr_filter p l).
Proof. intros s. reflexivity. Qed.

Lemma silent_sort code l : silent (arr_sort code l).
Proof. intros s. reflexivity. Qed.

Lemma silent_slice0 l count : silent (arr_slice0 l count).
Proof. intros s. reflexivity. Qed.

Lemma silent_push l xs : silent (arr_push l xs).
Proof. intros s. reflexivity. Qed.

Lemma silent_read l : silent (arr_read l).
Proof. intros s. reflexivity. Qed.

Lemma silent_length l : silent (arr_length l).
Proof. intros s. reflexivity. Qed.

Lemma silent_new a : silent (arr_new a).
Proof. intros s. reflexivity. Qed.

Lemma silent_missing_loop entries sp acc : silent (missing_loop entries sp acc).
Proof.
  revert acc. induction entries as [|[marks req] rest IH]; intros acc; simpl.
  - apply silent_ret.
  - apply silent_bind; [apply silent_filter|]. intros matching.
    apply silent_bind; [apply silent_length|]. intros n. apply IH.
Qed.

Lemma silent_select_loop o d : forall k sp fq, silent (select_loop o k d sp fq).
Proof.
  induction d as [|[count marks] rest IH]; intros k sp fq; simpl.
  - apply silent_ret.
  - apply silent_bind; [apply silent_filter|]. intros suitable.
    apply silent_bind; [apply silent_sort|]. intros sorted.
    apply silent_bind; [apply silent_slice0|]. intros selected.
    apply silent_bind; [apply silent_read|]. intros sel.
    apply silent_bind; [apply silent_push|]. intros _.
    apply silent_bind; [apply silent_filter|]. intros sp'. apply IH.
Qed.

Lemma silent_generateFromBank c o d : silent (generateFromBank c o d).
Proof.
  unfold generateFromBank.
  apply silent_bind; [apply silent_filter|]. intros byClass.
  apply silent_bind.
  { destruct (avoidPrevious c); [apply silent_filter | apply silent_ret]. }
  intros sp. apply silent_bind; [apply silent_missing_loop|]. intros missing.
  destruct (0 <? length missing)%nat; [apply silent_ret|].
  apply silent_bind; [apply silent_new|]. intros fq.
  apply silent_bind; [apply silent_select_loop|]. intros _. apply silent_ret.
Qed.

Lemma silent_createPaper c o qs source : silent (createPaper c o qs source).
Proof.
  unfold createPaper. apply silent_bind; [apply silent_read|].
  intros content. apply silent_ret.
Qed.

Lemma wp_silent {A} (m : M A) s (Q : Res A -> Store -> list Event -> Prop) :
  silent m -> (forall r s', Q r s' []) -> wp m s Q.
Proof. intros Hm HQ. unfold wp. rewrite Hm. apply HQ. Qed.

Lemma wp_throw {A} e s (Q : Res A -> Store -> list Event -> Prop) :
  Q (Exn e) s [] -> wp (throw e) s Q.
Proof. exact (fun H => H). Qed.

Lemma wp_emit_all es s (Q : Res unit -> Store -> list Event -> Prop) :
  Q (Val tt) s es -> wp (emit_all es) s Q.
Proof. exact (fun H => H). Qed.

Lemma wp_get_calls s (Q : Res nat -> Store -> list Event -> Prop) :
  Q (Val (ai_calls s)) s [] -> wp get_calls s Q.
Proof. exact (fun H => H). Qed.

Lemma wp_generateQuestionsAI o criteria existing pl s
      (Q : Res (list GeneratedItem) -> Store -> list Event -> Prop) :
  heap s !! existing = Some pl ->
  (forall s', heap s' = heap s ->
     match ai_service o (ai_calls s) criteria pl with
     | Resolved batch => Q (Val batch) s' [AICall criteria pl (Resolved batch)]
     | Rejected e => Q (Exn e) s' [AICall criteria pl (Rejected e)]
     end) ->
  wp (generateQuestionsAI o criteria existing) s Q.
Proof.
  intros Hl HQ. unfold wp, generateQuestionsAI, result_of, store_of, events_of.
  rewrite Hl. simpl.
  specialize (HQ {| heap := heap s; ai_calls := S (ai_calls s) |} eq_refl).
  destruct (ai_service o (ai_calls s) criteria pl); exact HQ.
Qed.

End SilentParts.

Section RequestsAccepted.
Import Run Generator Delay.

Lemma newQuestions_length c o call chapter marks batch :
  length (newQuestions c o call chapter marks batch) = length batch.
Proof. unfold newQuestions. apply length_imap. Qed.

(** One request: the wait is made exactly when [finalQuestions] is not
    empty, and [finalQuestions] is not empty afterwards exactly when it
    was not before or the batch is not. *)
Lemma wp_ai_request c o aiChapters marks pool fq request acc pl s
      (Q : Res unit -> Store -> list Event -> Prop) :
  heap s !! fq = Some acc -> heap s !! pool = Some pl -> fq <> pool ->
  (forall r s' ev acc' pl',
      accepted (0 <? length acc)%nat ev (0 <? length acc')%nat ->
      heap s' !! fq = Some acc' -> heap s' !! pool = Some pl' ->
      Q r s' ev) ->
  wp (ai_request c o aiChapters marks pool fq request) s Q.
Proof.
  intros Hfq Hpool Hne HQ. unfold ai_request.
  apply wp_bind. eapply wp_length; [eassumption|].
  set (p := (0 <? length acc)%nat) in *.
  assert (Hwait : forall (Q' : Res unit -> Store -> list Event -> Prop),
             Q' (Val tt) s (if p then [Timeout 1500] else []) ->
             wp (if p then emit (Timeout 1500) else ret tt) s Q').
  { intros Q' H. destruct p; [now apply wp_emit | now apply wp_ret]. }
  apply wp_bind, Hwait. apply wp_bind, wp_get_calls. apply wp_bind.
  eapply wp_generateQuestionsAI; [eassumption|].
  intros s1 Hheap.
  match goal with
  | |- match ai_service o ?n ?cr pl with _ => _ end => set (criteria := cr)
  end.
  destruct (ai_service o (ai_calls s) criteria pl) as [batch|e] eqn:Hs.
  - assert (Hobs : forall acc' : list Question,
               (0 <? length acc')%nat = p || (0 <? length batch)%nat ->
               accepted p ((if p then [Timeout 1500] else []) ++
                           [AICall criteria pl (Resolved batch)])
                        (0 <? length acc')%nat).
    { intros acc' ->. unfold accepted. destruct p, batch; reflexivity. }
    destruct (0 <? length batch)%nat eqn:Hb.
    + apply wp_bind. eapply wp_push; [rewrite Hheap; eassumption|].
      intros s2 Hfq2 Hpres2 _.
      eapply wp_push; [rewrite Hpres2, Hheap by congruence; eassumption|].
      intros s3 Hpool3 Hpres3 _.
      eapply HQ; [| rewrite Hpres3 by assumption; exact Hfq2 | exact Hpool3].
      simpl. rewrite ?app_nil_r.
      apply Hobs. rewrite length_app, newQuestions_length.
      rewrite orb_true_r. apply Nat.ltb_lt. apply Nat.ltb_lt in Hb. lia.
    + apply wp_ret.
      eapply HQ; [| rewrite Hheap; exact Hfq | rewrite Hheap; exact Hpool].
      simpl. rewrite ?app_nil_r. apply Hobs. fold p. now rewrite orb_false_r.
  - eapply HQ; [| rewrite Hheap; exact Hfq | rewrite Hheap; exact Hpool].
    simpl. rewrite ?app_nil_r. unfold accepted. fold p. destruct p; reflexivity.
Qed.

Lemma wp_requests c o aiChapters marks pool fq (requests : list Partition.Request) :
  fq <> pool ->
  forall acc pl s (Q : Res unit -> Store -> list Event -> Prop),
    heap s !! fq = Some acc -> heap s !! pool = Some pl ->
    (forall r s' ev acc' pl',
        accepted (0 <? length acc)%nat ev (0 <? length acc')%nat ->
        heap s' !! fq = Some acc' -> heap s' !! pool = Some pl' ->
        Q r s' ev) ->
    wp (for_each requests (ai_request c o aiChapters marks pool fq)) s Q.
Proof.
  intros Hne. induction requests as [|request rest IH]; intros acc pl s Q Hfq Hpool HQ; simpl.
  - apply wp_ret. eapply HQ; [apply accepted_nil | eassumption | eassumption].
  - apply wp_bind. eapply wp_ai_request; [eassumption | eassumption | assumption |].
    intros r s1 ev1 acc1 pl1 Hacc1 Hfq1 Hpool1. destruct r as [[]|e].
    + eapply IH; [eassumption | eassumption |].
      intros r2 s2 ev2 acc2 pl2 Hacc2 Hfq2 Hpool2.
      eapply HQ; [eapply accepted_app; eassumption | eassumption | eassumption].
    + eapply HQ; eassumption.
Qed.

Lemma wp_groups c o aiChapters pool fq (d : Distribution) :
  fq <> pool ->
  forall acc pl s (Q : Res unit -> Store -> list Event -> Prop),
    heap s !! fq = Some acc -> heap s !! pool = Some pl ->
    (forall r s' ev acc' pl',
        accepted (0 <? length acc)%nat ev (0 <? length acc')%nat ->
        heap s' !! fq = Some acc' -> heap s' !! pool = Some pl' ->
        Q r s' ev) ->
    wp (for_each d (fun '(count, marks) =>
          for_each (Partition.group_requests (settings c) count)
                   (ai_request c o aiChapters marks pool fq))) s Q.
Proof.
  intros Hne. induction d as [|[count marks] rest IH]; intros acc pl s Q Hfq Hpool HQ; simpl.
  - apply wp_ret. eapply HQ; [apply accepted_nil | eassumption | eassumption].
  - apply wp_bind. eapply wp_requests; [assumption | eassumption | eassumption |].
    intros r s1 ev1 acc1 pl1 Hacc1 Hfq1 Hpool1. destruct r as [[]|e].
    + eapply IH; [eassumption | eassumption |].
      intros r2 s2 ev2 acc2 pl2 Hacc2 Hfq2 Hpool2.
      eapply HQ; [eapply accepted_app; eassumption | eassumption | eassumption].
    + eapply HQ; eassumption.
Qed.

End RequestsAccepted.

Section RunAccepted.
Import Run Generator Delay.

Lemma wp_events {A} (m : M A) s (Q : Res A -> Store -> list Event -> Prop) :
  (forall r s', Q r s' (events_of (m s))) -> wp m s Q.
Proof. intros H. apply H. Qed.

Lemma wp_filter_any p l s (Q : Res nat -> Store -> list Event -> Prop) :
  (forall s' l',
      heap s !! l' = None ->
      heap s' !! l' = Some (List.filter p (default [] (heap s !! l))) ->
      (forall l0 b, heap s !! l0 = Some b -> heap s' !! l0 = Some b) ->
      Q (Val l') s' []) ->
  wp (arr_filter p l) s Q.
Proof.
  intros HQ. unfold arr_filter. apply wp_bind.
  change (wp (arr_new (List.filter p (default [] (heap s !! l)))) s
             (fun r2 s2 ev2 => Q r2 s2 ([] ++ ev2))).
  apply wp_new. intros s' l' H1 H2 H3 _. now apply HQ.
Qed.

Lemma accepted_cons p e ev p' :
  neutral e = true -> accepted p ev p' -> accepted p (e :: ev) p'.
Proof.
  intros He H. change (e :: ev) with ([e] ++ ev).
  eapply accepted_app; [|exact H]. apply accepted_neutral. simpl. now rewrite He.
Qed.

Lemma accepted_snoc p ev p' e :
  accepted p ev p' -> neutral e = true -> accepted p (ev ++ [e]) p'.
Proof.
  intros H He. eapply accepted_app; [exact H|].
  apply accepted_neutral. simpl. now rewrite He.
Qed.

(** The inner [try]: every request obeys the discipline. *)
Lemma ai_try_accepted c o d s :
  exists p', accepted false (events_of (ai_try c o d s)) p'.
Proof.
  change (wp (ai_try c o d) s (fun _ _ ev => exists p', accepted false ev p')).
  unfold ai_try, showToast.
  destruct (length (nonempty_items (aiChapter (settings c))) =? 0)%nat.
  { apply wp_emit. exists false. reflexivity. }
  apply wp_bind, wp_filter_any. intros s1 pool Hfresh1 Hpool _.
  apply wp_bind, wp_new. intros s2 fq Hfresh2 Hfq Hpres2 _.
  apply wp_bind.
  eapply (wp_groups c o _ pool fq d) with (acc := []);
    [intros ->; congruence | exact Hfq | apply Hpres2; exact Hpool |].
  intros r s3 ev acc' pl' Hacc _ _. simpl in Hacc.
  destruct r as [[]|e].
  - apply wp_bind, wp_silent; [apply silent_createPaper|].
    intros [paper|e] s4; simpl; rewrite ?app_nil_r.
    + apply wp_emit. eexists. apply accepted_snoc; [exact Hacc | reflexivity].
    + eexists. exact Hacc.
  - simpl. eexists. exact Hacc.
Qed.

Lemma ai_catch_neutral c o d e s :
  forallb neutral (events_of (ai_catch c o d e s)) = true.
Proof.
  change (wp (ai_catch c o d e) s (fun _ _ ev => forallb neutral ev = true)).
  unfold ai_catch, showToast, isQuotaError.
  apply wp_bind, wp_emit. apply wp_bind.
  destruct e as [|v]; [apply wp_throw; reflexivity|].
  apply wp_ret. apply wp_bind.
  assert (Htoast : forall (Q' : Res unit -> Store -> list Event -> Prop),
             (forall m, Q' (Val tt) s [ShowToast m error]) ->
             wp (if quota_view o v
                 then emit (ShowToast (Tr "apiQuotaError" (lang c)) error)
                 else emit (ShowToast (Tr "apiError" (lang c)) error)) s Q').
  { intros Q' H. destruct (quota_view o v); apply wp_emit, H. }
  apply Htoast. intros m. apply wp_bind, wp_emit.
  apply wp_bind, wp_silent; [apply silent_generateFromBank|].
  intros [[err|qs]|e] s1; simpl; [apply wp_emit; reflexivity | | reflexivity].
  apply wp_bind, wp_silent; [apply silent_createPaper|].
  intros [paper|e] s2; simpl; [|reflexivity].
  apply wp_bind, wp_emit. apply wp_emit. reflexivity.
Qed.

Lemma ai_branch_accepted c o d s :
  exists p', accepted false (events_of (ai_branch c o d s)) p'.
Proof.
  destruct (ai_try_accepted c o d s) as [p' Hacc].
  unfold ai_branch, try_catch, events_of in *.
  destruct (ai_try c o d s) as [[[u|e] s1] ev1]; simpl in *; [eauto|].
  pose proof (ai_catch_neutral c o d e s1) as Hn. unfold events_of in Hn.
  destruct (ai_catch c o d e s1) as [[r2 s2] ev2]. simpl in *.
  exists p'. eapply accepted_app; [exact Hacc | now apply accepted_neutral].
Qed.

Lemma bank_branch_neutral c o d s :
  forallb neutral (events_of (bank_branch c o d s)) = true.
Proof.
  change (wp (bank_branch c o d) s (fun _ _ ev => forallb neutral ev = true)).
  unfold bank_branch, showToast.
  apply wp_bind, wp_silent; [apply silent_generateFromBank|].
  intros [[err|qs]|e] s1; simpl; [apply wp_emit; reflexivity | | reflexivity].
  apply wp_bind, wp_silent; [apply silent_createPaper|].
  intros [paper|e] s2; simpl; [|reflexivity]. apply wp_emit. reflexivity.
Qed.

Lemma findDistribution_neutral st rnd :
  forallb neutral (snd (Solver.findDistribution st rnd)) = true.
Proof. unfold Solver.findDistribution. destruct (Solver.run st rnd); reflexivity. Qed.

Lemma computeDistribution_neutral c o s :
  forallb neutral (events_of (computeDistribution c o s)) = true.
Proof.
  change (wp (computeDistribution c o) s (fun _ _ ev => forallb neutral ev = true)).
  unfold computeDistribution, showToast. destruct (generationMode (settings c)).
  - destruct (Parser.parseDistribution _); [apply wp_ret; reflexivity|].
    apply wp_bind, wp_emit. apply wp_bind, wp_emit. apply wp_ret. reflexivity.
  - apply wp_bind, wp_emit_all.
    pose proof (findDistribution_neutral (settings c) (rnd_move o)) as Hn.
    destruct (fst _).
    + apply wp_ret. now rewrite app_nil_r.
    + apply wp_bind, wp_emit. apply wp_bind, wp_emit. apply wp_ret.
      rewrite forallb_app, Hn. reflexivity.
Qed.

(** One whole invocation. *)
Lemma handleGenerate_accepted c o useAI s :
  exists p', accepted false (events_of (handleGenerate c o useAI s)) p'.
Proof.
  change (wp (handleGenerate c o useAI) s (fun _ _ ev => exists p', accepted false ev p')).
  unfold handleGenerate, showToast.
  apply wp_bind, wp_emit. apply wp_bind, wp_emit.
  apply wp_try_finally, wp_try_catch, wp_bind, wp_events.
  pose proof (computeDistribution_neutral c o s) as Hd.
  apply accepted_neutral with (p := false) in Hd.
  set (evd := events_of (computeDistribution c o s)) in *.
  assert (Hbranch : forall d s1, exists p',
             accepted false (events_of ((if useAI then ai_branch c o d
                                         else bank_branch c o d) s1)) p').
  { intros d s1. destruct useAI; [apply ai_branch_accepted|].
    exists false. apply accepted_neutral, bank_branch_neutral. }
  intros [[d|]|e] s1.
  - apply wp_events. destruct (Hbranch d s1) as [p' Hb].
    set (evb := events_of _) in *.
    intros [[]|e] s2.
    + apply wp_emit. exists p'. simpl.
      do 2 (apply accepted_cons; [reflexivity|]).
      apply accepted_snoc; [|reflexivity].
      eapply accepted_app; eassumption.
    + apply wp_bind, wp_emit. apply wp_emit. apply wp_emit. exists p'. simpl.
      do 2 (apply accepted_cons; [reflexivity|]).
      rewrite <- !app_assoc. simpl.
      eapply accepted_app; [exact Hd|].
      eapply accepted_app; [exact Hb|]. reflexivity.
  - apply wp_ret. apply wp_emit. exists false. simpl.
    do 2 (apply accepted_cons; [reflexivity|]). rewrite app_nil_r.
    apply accepted_snoc; [exact Hd | reflexivity].
  - apply wp_bind, wp_emit. apply wp_emit. apply wp_emit. exists false. simpl.
    do 2 (apply accepted_cons; [reflexivity|]).
    rewrite <- !app_assoc. simpl.
    eapply accepted_app; [exact Hd|]. reflexivity.
Qed.

Lemma not_request_not_produced pre :
  forallb (fun e => negb (is_request e)) pre = true -> produced pre = false.
Proof.
  unfold produced. induction pre as [|e r IH]; simpl; [reflexivity|].
  intros H. apply andb_true_iff in H as [He Hr]. rewrite (IH Hr), orb_false_r.
  destruct e; try reflexivity. discriminate.
Qed.

End RunAccepted.

(** C7, as the code has it (delay discipline): in one invocation of
    [handleGenerate], a request to the AI service is immediately preceded by
    the wait of 1500 ms exactly when an earlier request of the invocation
    produced at least one question; every wait is of 1500 ms and is followed
    at once by a request; the first request is never delayed; and the second
    request is delayed exactly when the first produced at least one
    question. *)
Theorem delay_discipline (c : Component) (o : Oracle) (useAI : bool) (s : Run.Store) :
  (forall pre cr pool r post,
      Run.events_of (Generator.handleGenerate c o useAI s) = pre ++ AICall cr pool r :: post ->
      (Delay.delayed pre <-> Delay.produced pre = true)) /\
  (forall pre ms post,
      Run.events_of (Generator.handleGenerate c o useAI s) = pre ++ Timeout ms :: post ->
      ms = 1500 /\ exists cr pool r post', post = AICall cr pool r :: post') /\
  (forall pre cr pool r post,
      Run.events_of (Generator.handleGenerate c o useAI s) = pre ++ AICall cr pool r :: post ->
      forallb (fun e => negb (Delay.is_request e)) pre = true ->
      ~ Delay.delayed pre) /\
  (forall pre cr1 pool1 r1 mid cr2 pool2 r2 post,
      Run.events_of (Generator.handleGenerate c o useAI s)
      = (pre ++ AICall cr1 pool1 r1 :: mid) ++ AICall cr2 pool2 r2 :: post ->
      forallb (fun e => negb (Delay.is_request e)) pre = true ->
      forallb (fun e => negb (Delay.is_request e)) mid = true ->
      (Delay.delayed (pre ++ AICall cr1 pool1 r1 :: mid) <->
       Delay.produced_by (AICall cr1 pool1 r1) = true)).
Proof.
  destruct (handleGenerate_accepted c o useAI s) as [p' Hacc].
  assert (H1 : forall pre cr pool r post,
             Run.events_of (Generator.handleGenerate c o useAI s)
             = pre ++ AICall cr pool r :: post ->
             (Delay.delayed pre <-> Delay.produced pre = true)).
  { intros pre cr pool r post E. eapply accepted_request; eassumption. }
  split; [exact H1|]. split; [|split].
  - intros pre ms post E. eapply accepted_wait; eassumption.
  - intros pre cr pool r post E Hpre Hdel.
    apply (H1 _ _ _ _ _ E) in Hdel.
    rewrite (not_request_not_produced pre Hpre) in Hdel. discriminate.
  - intros pre cr1 pool1 r1 mid cr2 pool2 r2 post E Hpre Hmid.
    rewrite (H1 _ _ _ _ _ E). unfold Delay.produced.
    rewrite existsb_app. simpl.
    fold (Delay.produced pre). fold (Delay.produced mid).
    rewrite (not_request_not_produced pre Hpre), (not_request_not_produced mid Hmid).
    simpl. now rewrite orb_false_r.
Qed.

(** C7 as stated fails on its last clause: when the first request resolves
    with an empty batch, the second request follows it with no wait; the
    wait appears only before the third. *)
Lemma second_request_not_delayed_after_empty_batch :
  Delay.skeleton
    (Run.events_of
       (Generator.handleGenerate (demo_component (ai_settings "7x2" "Cell" three_types))
          (oracle_with ai_empty_first) true demo_store))
  = [inr (3, false); inr (2, true); inl 1500; inr (2, true)].
Proof. vm_compute. reflexivity. Qed.

Example demo_events_skeleton :
  Delay.skeleton demo_events
  = [inr (3, true); inl 1500; inr (2, true); inl 1500; inr (2, true)].
Proof. vm_compute. reflexivity. Qed.

Lemma delay_discipline_witness :
  Delay.delayed (take 4 demo_events) <-> Delay.produced (take 4 demo_events) = true.
Proof.
  refine (proj1 (delay_discipline
                   (demo_component (ai_settings "7x2" "Cell" three_types))
                   (oracle_with ai_one) true demo_store)
                (take 4 demo_events) _ _ _ (drop 5 demo_events) _).
  vm_compute. reflexivity.
Defined.

(* ===================================================================== *)
(** * The settings panel: question types and the answers checkbox         *)
(* ===================================================================== *)

Section QuestionTypes.
Import Panel.

Lemma includes_In xs x : includes xs x = true <-> In x xs.
Proof.
  unfold includes. rewrite existsb_exists. split.
  - intros (y & Hy & E). apply String.eqb_eq in E. now subst.
  - intros H. exists x. split; [assumption | apply String.eqb_refl].
Qed.

Lemma includes_false xs x : includes xs x = false <-> ~ In x xs.
Proof.
  rewrite <- includes_In. destruct (includes xs x); split; congruence.
Qed.

Lemma newTypes_eq s type :
  aiQuestionType (handleQuestionTypeChange s type)
  = if includes (aiQuestionType s) type
    then List.filter (fun t => negb (String.eqb t type)) (aiQuestionType s)
    else aiQuestionType s ++ [type].
Proof.
  unfold handleQuestionTypeChange.
  destruct (includes (aiQuestionType s) type); simpl; [reflexivity|].
  destruct (requiresAnswer type); reflexivity.
Qed.

Lemma answers_eq s type :
  aiGenerateAnswers (handleQuestionTypeChange s type)
  = aiGenerateAnswers s || (negb (includes (aiQuestionType s) type) && requiresAnswer type).
Proof.
  unfold handleQuestionTypeChange.
  destruct (includes (aiQuestionType s) type); simpl.
  - now rewrite orb_false_r.
  - destruct (requiresAnswer type); simpl; [now rewrite orb_true_r | now rewrite orb_false_r].
Qed.

Lemma filter_other_absent (type : string) (l : list string) :
  ~ In type l -> List.filter (fun t => negb (String.eqb t type)) l = l.
Proof.
  induction l as [|x r IH]; simpl; [reflexivity|]. intros H.
  destruct (String.eqb_spec x type) as [->|Hne]; simpl.
  - exfalso. apply H. now left.
  - f_equal. apply IH. intros Hin. apply H. now right.
Qed.

Lemma filter_other_removes (type : string) (l : list string) :
  ~ In type (List.filter (fun t => negb (String.eqb t type)) l).
Proof.
  intros H. apply filter_In in H as [_ H].
  now rewrite String.eqb_refl in H.
Qed.

Lemma filter_other_idem (type : string) (l : list string) :
  List.filter (fun t => negb (String.eqb t type))
              (List.filter (fun t => negb (String.eqb t type)) l)
  = List.filter (fun t => negb (String.eqb t type)) l.
Proof. apply filter_other_absent, filter_other_removes. Qed.

Lemma toggled_membership s type :
  includes (aiQuestionType (handleQuestionTypeChange s type)) type
  = negb (includes (aiQuestionType s) type).
Proof.
  rewrite newTypes_eq.
  destruct (includes (aiQuestionType s) type) eqn:E; simpl.
  - apply includes_false, filter_other_removes.
  - apply includes_In, in_or_app. right. now left.
Qed.

End QuestionTypes.

(** X1 (toggling a question type).  [handleQuestionTypeChange] flips the
    membership of the clicked type and of no other: the other types keep
    their order, a list without repetition stays without repetition, and the
    fields of the settings other than the types and the answers checkbox are
    not touched. *)
Theorem handleQuestionTypeChange_toggles (s : GeneratorSettings) (type : string) :
  Panel.includes (aiQuestionType (Panel.handleQuestionTypeChange s type)) type
  = negb (Panel.includes (aiQuestionType s) type) /\
  List.filter (fun t => negb (String.eqb t type))
              (aiQuestionType (Panel.handleQuestionTypeChange s type))
  = List.filter (fun t => negb (String.eqb t type)) (aiQuestionType s) /\
  (List.NoDup (aiQuestionType s) ->
   List.NoDup (aiQuestionType (Panel.handleQuestionTypeChange s type))) /\
  (markDistribution (Panel.handleQuestionTypeChange s type) = markDistribution s /\
   aiChapter (Panel.handleQuestionTypeChange s type) = aiChapter s /\
   aiDifficulty (Panel.handleQuestionTypeChange s type) = aiDifficulty s /\
   aiKeywords (Panel.handleQuestionTypeChange s type) = aiKeywords s /\
   wbbseSyllabusOnly (Panel.handleQuestionTypeChange s type) = wbbseSyllabusOnly s /\
   generationMode (Panel.handleQuestionTypeChange s type) = generationMode s /\
   totalMarks (Panel.handleQuestionTypeChange s type) = totalMarks s /\
   allowedMarks (Panel.handleQuestionTypeChange s type) = allowedMarks s).
Proof.
  split; [apply toggled_membership|].
  rewrite newTypes_eq.
  destruct (Panel.includes (aiQuestionType s) type) eqn:E; simpl.
  - split; [|split].
    + apply filter_other_idem.
    + intros H. now apply List.NoDup_filter.
    + unfold Panel.handleQuestionTypeChange. rewrite E. simpl. repeat split.
  - pose proof (proj1 (includes_false _ _) E) as E'. split; [|split].
    + rewrite List.filter_app. simpl. rewrite String.eqb_refl. simpl.
      apply app_nil_r.
    + intros H. apply NoDup_ListNoDup, NoDup_app. split; [|split].
      * now apply NoDup_ListNoDup.
      * intros x Hx Hx'. apply list_elem_of_In in Hx.
        apply list_elem_of_In in Hx'. destruct Hx' as [<-|[]]. contradiction.
      * apply NoDup_ListNoDup. constructor; [intros []|constructor].
    + unfold Panel.handleQuestionTypeChange. rewrite E. simpl.
      destruct (Panel.requiresAnswer type); simpl; repeat split.
Qed.

Lemma handleQuestionTypeChange_toggles_witness :
  List.NoDup
    (aiQuestionType
       (Panel.handleQuestionTypeChange (ai_settings "5x1" "Cell" ["Short Answer"])
          "True/False")).
Proof.
  apply (proj1 (proj2 (proj2 (handleQuestionTypeChange_toggles
                                (ai_settings "5x1" "Cell" ["Short Answer"])
                                "True/False")))).
  simpl. repeat constructor; simpl; intuition discriminate.
Defined.

(** X2 (a type clicked twice).  Two clicks on the same type leave a type
    that was not selected unselected and the list as it was; a type that was
    selected ends selected again, moved to the end.  The answers checkbox is
    never cleared on the way: after the two clicks it is set when it was set
    before or when the type is one of the three that need an answer. *)
Theorem handleQuestionTypeChange_twice (s : GeneratorSettings) (type : string) :
  aiQuestionType (Panel.handleQuestionTypeChange (Panel.handleQuestionTypeChange s type) type)
  = (if Panel.includes (aiQuestionType s) type
     then List.filter (fun t => negb (String.eqb t type)) (aiQuestionType s) ++ [type]
     else aiQuestionType s) /\
  aiGenerateAnswers
    (Panel.handleQuestionTypeChange (Panel.handleQuestionTypeChange s type) type)
  = aiGenerateAnswers s || Panel.requiresAnswer type.
Proof.
  pose proof (toggled_membership s type) as Hin.
  rewrite newTypes_eq, answers_eq, Hin, answers_eq, newTypes_eq.
  destruct (Panel.includes (aiQuestionType s) type) eqn:E; simpl.
  - split; [reflexivity|]. now rewrite orb_false_r.
  - apply includes_false in E. split.
    + rewrite List.filter_app. simpl. rewrite String.eqb_refl. simpl.
      rewrite app_nil_r. now apply filter_other_absent.
    + rewrite orb_false_r. reflexivity.
Qed.

(* ===================================================================== *)
(** * Runs of [handleGenerate] that stay away from the AI service         *)
(* ===================================================================== *)

Section EventsOfARun.
Import Run Generator.

Variable phi : Event -> bool.
Hypothesis phi_generating : forall b, phi (SetIsGenerating b) = true.
Hypothesis phi_toast : forall m ty, phi (ShowToast m ty) = true.
Hypothesis phi_console : forall x, phi (ConsoleError x) = true.

Lemma findDistribution_events st rnd :
  forallb phi (snd (Solver.findDistribution st rnd)) = true.
Proof.
  unfold Solver.findDistribution.
  destruct (Solver.run st rnd); simpl; rewrite ?phi_toast, ?phi_console; reflexivity.
Qed.

Lemma computeDistribution_events c o s :
  forallb phi (events_of (computeDistribution c o s)) = true.
Proof.
  change (wp (computeDistribution c o) s (fun _ _ ev => forallb phi ev = true)).
  unfold computeDistribution, showToast. destruct (generationMode (settings c)).
  - destruct (Parser.parseDistribution _); [apply wp_ret; reflexivity|].
    apply wp_bind, wp_emit. apply wp_bind, wp_emit. apply wp_ret. simpl.
    now rewrite phi_toast, phi_generating.
  - apply wp_bind, wp_emit_all.
    pose proof (findDistribution_events (settings c) (rnd_move o)) as Hn.
    destruct (fst _).
    + apply wp_ret. now rewrite app_nil_r.
    + apply wp_bind, wp_emit. apply wp_bind, wp_emit. apply wp_ret.
      rewrite forallb_app, Hn. simpl. now rewrite phi_toast, phi_generating.
Qed.

(** A run starts by raising the busy flag and clearing the paper shown;
    what follows is made of toasts, console lines, the lowering of the flag
    and the events of the branch taken. *)
Lemma handleGenerate_shape (c : Component) (o : Oracle) (useAI : bool) (s : Store) :
  (forall (d : Distribution) (s1 : Store),
      forallb phi (events_of ((if useAI then ai_branch c o d
                               else bank_branch c o d) s1)) = true) ->
  exists rest,
    events_of (handleGenerate c o useAI s)
    = SetIsGenerating true :: SetGeneratedPaper None :: rest /\
    forallb phi rest = true.
Proof.
  intros Hbranch.
  change (wp (handleGenerate c o useAI) s
             (fun _ _ ev => exists rest,
                  ev = SetIsGenerating true :: SetGeneratedPaper None :: rest /\
                  forallb phi rest = true)).
  unfold handleGenerate, showToast.
  apply wp_bind, wp_emit. apply wp_bind, wp_emit.
  apply wp_try_finally, wp_try_catch, wp_bind, wp_events.
  pose proof (computeDistribution_events c o s) as Hd.
  set (evd := events_of (computeDistribution c o s)) in *.
  intros [[d|]|e] s1.
  - apply wp_events. pose proof (Hbranch d s1) as Hb.
    set (evb := events_of _) in *.
    intros [[]|e] s2.
    + apply wp_emit. eexists. split; [reflexivity|].
      rewrite !forallb_app, Hd, Hb. simpl. now rewrite phi_generating.
    + apply wp_bind, wp_emit. apply wp_emit. apply wp_emit.
      eexists. split; [reflexivity|].
      rewrite !forallb_app, Hd, Hb. simpl.
      now rewrite phi_console, phi_toast, phi_generating.
  - apply wp_ret. apply wp_emit. eexists. split; [reflexivity|].
    rewrite !forallb_app, Hd. simpl. now rewrite phi_generating.
  - apply wp_bind, wp_emit. apply wp_emit. apply wp_emit.
    eexists. split; [reflexivity|].
    rewrite !forallb_app, Hd. simpl.
    now rewrite phi_console, phi_toast, phi_generating.
Qed.

End EventsOfARun.

Section NoChapter.
Import Run Generator.

Lemma quiet_neutral ev : forallb quiet ev = true -> forallb Delay.neutral ev = true.
Proof.
  induction ev as [|e r IH]; simpl; [reflexivity|].
  intros H. apply andb_true_iff in H as [He Hr]. rewrite (IH Hr).
  destruct e; try reflexivity; discriminate.
Qed.

Lemma quiet_no_paper ev : forallb quiet ev = true -> papers_of ev = [].
Proof.
  unfold papers_of. induction ev as [|e r IH]; simpl; [reflexivity|].
  intros H. apply andb_true_iff in H as [He Hr].
  destruct e; try (apply IH, Hr); discriminate.
Qed.

Lemma no_chapter_quiet c o s :
  nonempty_items (aiChapter (settings c)) = [] ->
  exists rest,
    events_of (handleGenerate c o true s)
    = SetIsGenerating true :: SetGeneratedPaper None :: rest /\
    forallb quiet rest = true.
Proof.
  intros Hno. apply handleGenerate_shape; try reflexivity.
  intros d s1. unfold ai_branch, try_catch, ai_try. rewrite Hno. reflexivity.
Qed.

End NoChapter.

(** X3 (no chapter, no request).  When the chapter field holds no chapter,
    as it does after [handleClearAISettings], a run of [handleGenerate] with
    the AI sends no request to the service, waits for nothing, and shows no
    paper: the only paper event is the clearing at the start. *)
Theorem no_chapter_no_request (c : Component) (o : Oracle) (s : Run.Store) :
  Generator.nonempty_items (aiChapter (settings c)) = [] ->
  forallb Delay.neutral (Run.events_of (Generator.handleGenerate c o true s)) = true /\
  papers_of (Run.events_of (Generator.handleGenerate c o true s)) = [None].
Proof.
  intros Hno. destruct (no_chapter_quiet c o s Hno) as (rest & -> & Hq). split.
  - simpl. now apply quiet_neutral.
  - unfold papers_of. simpl. fold (papers_of rest). now rewrite quiet_no_paper.
Qed.

Lemma no_chapter_no_request_witness :
  forallb Delay.neutral
    (Run.events_of
       (Generator.handleGenerate
          (demo_component
             (fst (Panel.handleClearAISettings (ai_settings "2x5" "Cell" three_types) en)))
          (oracle_with ai_one) true demo_store)) = true /\
  papers_of
    (Run.events_of
       (Generator.handleGenerate
          (demo_component
             (fst (Panel.handleClearAISettings (ai_settings "2x5" "Cell" three_types) en)))
          (oracle_with ai_one) true demo_store)) = [None].
Proof.
  apply (no_chapter_no_request
           (demo_component
              (fst (Panel.handleClearAISettings (ai_settings "2x5" "Cell" three_types) en)))
           (oracle_with ai_one) demo_store).
  reflexivity.
Defined.

(** X4 (the bank path is offline).  A run of [handleGenerate] without the
    AI never sends a request to the AI service and never waits, whatever the
    settings, the bank and the random draws. *)
Theorem bank_generation_makes_no_request (c : Component) (o : Oracle) (s : Run.Store) :
  forallb Delay.neutral (Run.events_of (Generator.handleGenerate c o false s)) = true.
Proof.
  destruct (handleGenerate_shape Delay.neutral (fun _ => eq_refl) (fun _ _ => eq_refl)
              (fun _ => eq_refl) c o false s) as (rest & -> & H).
  - intros d s1. apply bank_branch_neutral.
  - exact H.
Qed.

(* ===================================================================== *)
(** * The displayed total and the marks of a bank paper                   *)
(* ===================================================================== *)

Section DisplayedTotal.
Import Run Generator.

Lemma reduce_total (d : Distribution) (a : Z) :
  fold_left (fun acc '(count, marks) => acc + count * marks) d a = a + total_of d.
Proof.
  revert a. induction d as [|[count marks] rest IH]; intros a; simpl; [lia|].
  rewrite IH. unfold total_of. lia.
Qed.

Lemma parseDistribution_Some md d :
  Parser.parseDistribution md = Some d -> d = Parser.parse md.
Proof.
  unfold Parser.parseDistribution. destruct (_ && _); congruence.
Qed.

(** The distribution of a run comes from the parser or from the solver,
    according to the mode. *)
Lemma computeDistribution_Some c o s d :
  result_of (computeDistribution c o s) = Val (Some d) ->
  match generationMode (settings c) with
  | distribution_mode => d = Parser.parse (markDistribution (settings c))
  | totalMarks_mode => Solver.run (settings c) (rnd_move o) = Solver.Solved d
  end.
Proof.
  unfold computeDistribution. destruct (generationMode (settings c)).
  - destruct (Parser.parseDistribution _) as [d'|] eqn:E.
    + intros [= <-]. now apply parseDistribution_Some.
    + discriminate.
  - rewrite <- findDistribution_Some.
    destruct (Solver.findDistribution (settings c) (rnd_move o)) as [[d'|] ev];
      unfold result_of, bind, emit_all, showToast, emit, ret; simpl;
      [congruence | discriminate].
Qed.

Lemma sum_same_marks (g : list Question) (marks : Z) :
  Forall (fun q => q_marks q = marks) g ->
  Solver.sumZ (map q_marks g) = Z.of_nat (length g) * marks.
Proof.
  induction 1 as [|q r Hq _ IH]; simpl; [reflexivity|]. rewrite IH, Hq. lia.
Qed.

Lemma groups_marks (d : Distribution) (groups : list (list Question)) :
  Forall2 group_ok d groups ->
  Solver.sumZ (map q_marks (concat groups)) = total_of d.
Proof.
  induction 1 as [|[count marks] grp d groups [Hl Hm] _ IH]; simpl; [reflexivity|].
  simpl in Hl, Hm.
  rewrite map_app, sumZ_app, IH, (sum_same_marks grp marks Hm), Hl. reflexivity.
Qed.

(** The marks of a successful sampling add up to the distribution's total. *)
Lemma sampled_marks questions selectedClass avoidPrevious shuffle d qs :
  nonneg_counts d ->
  List.NoDup (map q_id questions) ->
  Bank.generateFromBank questions selectedClass avoidPrevious shuffle d = Bank.Questions qs ->
  Solver.sumZ (map q_marks qs) = total_of d.
Proof.
  intros Hnn Hnd Hrun. unfold Bank.generateFromBank in Hrun.
  set (pool := Bank.sourcePool questions selectedClass avoidPrevious) in *.
  destruct (Bank.missingMessages pool (Bank.requiredCounts d)) as [|m r] eqn:E;
    [|discriminate].
  simpl in Hrun. injection Hrun as <-.
  assert (Hpool : List.NoDup (map q_id pool)).
  { unfold pool, Bank.sourcePool. destruct avoidPrevious;
      repeat apply NoDup_map_filter; assumption. }
  destruct (select_groups_spec shuffle d 0%nat pool [] Hnn Hpool
              (no_missing_sufficient pool d E))
    as (groups & rest_pool & Heq & Hall & _).
  simpl in Heq. rewrite Heq. now apply groups_marks.
Qed.

End DisplayedTotal.

(** X5 (the displayed total and the total of a bank paper).  Let a run
    compute a distribution whose counts are not negative, and let the
    sampling of a bank with pairwise distinct identifiers succeed for it.  In
    distribution mode [calculatedTotal] displays a number, and the marks of
    the sampled questions add up to that number.  In total-marks mode
    [calculatedTotal] displays the total-marks field as it was typed, and the
    marks add up to the integer that [parseInt] reads from that field, which
    need not be what the field shows. *)
Theorem bank_paper_matches_displayed_total
    (c : Component) (o : Oracle) (s : Run.Store) (d : Distribution)
    (bank qs : list Question) :
  Run.result_of (Generator.computeDistribution c o s) = Run.Val (Some d) ->
  nonneg_counts d ->
  List.NoDup (map q_id bank) ->
  Bank.generateFromBank bank (selectedClass c) (avoidPrevious c) (shuffle o) d
  = Bank.Questions qs ->
  match generationMode (settings c) with
  | distribution_mode =>
      Panel.calculatedTotal (settings c)
      = Panel.TotalNumber (Solver.sumZ (map q_marks qs))
  | totalMarks_mode =>
      Panel.calculatedTotal (settings c) = Panel.TotalText (totalMarks (settings c)) /\
      JS.parseInt (totalMarks (settings c)) = Some (Solver.sumZ (map q_marks qs))
  end.
Proof.
  intros Hd Hnn Hnd Hrun.
  rewrite (sampled_marks _ _ _ _ _ _ Hnn Hnd Hrun).
  apply computeDistribution_Some in Hd. unfold Panel.calculatedTotal.
  destruct (generationMode (settings c)); simpl.
  - subst d. now rewrite reduce_total.
  - split; [reflexivity|].
    apply run_Solved_inv in Hd as (t & res & Ht & Hpos & Hw & ->).
    unfold Solver.target in Ht. rewrite Ht. f_equal.
    rewrite tally_total. apply walk_sum in Hw; [|lia]. simpl in Hw. lia.
Qed.

Lemma bank_paper_matches_displayed_total_witness :
  Panel.calculatedTotal (ai_settings "2x5, 1x10" "" [])
  = Panel.TotalNumber
      (Solver.sumZ (map q_marks [mkq "a" 10 5 []; mkq "b" 10 5 []; mkq "c" 10 10 []])).
Proof.
  apply (bank_paper_matches_displayed_total
           (demo_component (ai_settings "2x5, 1x10" "" [])) (oracle_with ai_one)
           demo_store [(2, 5); (1, 10)] demo_bank).
  - reflexivity.
  - repeat constructor; simpl; lia.
  - vm_compute. repeat constructor; simpl; intuition discriminate.
  - reflexivity.
Defined.

(** In total-marks mode the panel shows the field as typed, while the solver
    reads it with [parseInt]: for the field "12.9" the panel shows 12.9 and
    the paper sampled from the bank is worth 12. *)
Example displayed_total_as_typed :
  Panel.calculatedTotal (settings_with totalMarks_mode "" "12.9" "5, 2")
  = Panel.TotalText "12.9" /\
  Run.result_of
    (Generator.computeDistribution
       (demo_component (settings_with totalMarks_mode "" "12.9" "5, 2"))
       (oracle_with ai_one) demo_store)
  = Run.Val (Some [(2, 5); (1, 2)]) /\
  Bank.generateFromBank [mkq "a" 10 5 []; mkq "b" 10 5 []; mkq "e" 10 2 []]
    10 true identity_shuffle [(2, 5); (1, 2)]
  = Bank.Questions [mkq "a" 10 5 []; mkq "b" 10 5 []; mkq "e" 10 2 []] /\
  Solver.sumZ (map q_marks [mkq "a" 10 5 []; mkq "b" 10 5 []; mkq "e" 10 2 []]) = 12.
Proof. repeat split; vm_compute; reflexivity. Qed.

(* ===================================================================== *)
(** * The answer key of an exported paper                                 *)
(* ===================================================================== *)

Section AnswerKey.
Import Exporter.

Lemma findIndex_from_app (pre l : list Question) (i : Z) (id : string) :
  Forall (fun p => q_id p <> id) pre ->
  findIndex_from i id (pre ++ l) = findIndex_from (i + Z.of_nat (length pre)) id l.
Proof.
  intros H. revert i. induction H as [|p pre Hp _ IH]; intros i; simpl.
  - f_equal. lia.
  - apply String.eqb_neq in Hp. rewrite Hp, IH. f_equal. lia.
Qed.

(** With distinct identifiers, [findIndex] on the identifier of a question
    gives the position of that question. *)
Lemma findIndex_position (pre rest : list Question) (q : Question) :
  List.NoDup (map q_id (pre ++ q :: rest)) ->
  findIndex (q_id q) (pre ++ q :: rest) = Z.of_nat (length pre).
Proof.
  intros Hnd. unfold findIndex. rewrite findIndex_from_app.
  - simpl. now rewrite String.eqb_refl.
  - apply Forall_forall. intros p Hp E. apply list_elem_of_In in Hp.
    rewrite map_app in Hnd. simpl in Hnd.
    apply NoDup_ListNoDup, NoDup_app in Hnd as (_ & Hdisj & _).
    apply (Hdisj (q_id p)).
    + apply list_elem_of_In, in_map, Hp.
    + rewrite E. apply list_elem_of_In. now left.
Qed.

Lemma answer_rows_from (all rest pre : list Question) :
  all = pre ++ rest ->
  List.NoDup (map q_id all) ->
  map (fun q => {| ar_No := findIndex (q_id q) all + 1; ar_Answer := q_answer q |})
      (List.filter (fun q => truthy (q_answer q)) rest)
  = omap id (imap (fun index q =>
                     if truthy (q_answer q)
                     then Some {| ar_No := Z.of_nat (length pre + index) + 1;
                                  ar_Answer := q_answer q |}
                     else None) rest).
Proof.
  revert pre. induction rest as [|q rest IH]; intros pre Hall Hnd; [reflexivity|].
  assert (Hrest : omap id (imap (fun index q0 =>
                     if truthy (q_answer q0)
                     then Some {| ar_No := Z.of_nat (length pre + S index) + 1;
                                  ar_Answer := q_answer q0 |}
                     else None) rest)
                  = map (fun q0 => {| ar_No := findIndex (q_id q0) all + 1;
                                      ar_Answer := q_answer q0 |})
                        (List.filter (fun q0 => truthy (q_answer q0)) rest)).
  { rewrite (IH (pre ++ [q])); [|now rewrite <- app_assoc | assumption].
    f_equal. apply imap_ext. intros j x _. simpl.
    rewrite length_app. simpl.
    replace (length pre + 1 + j)%nat with (length pre + S j)%nat by lia.
    reflexivity. }
  simpl. unfold compose. simpl in Hrest.
  destruct (truthy (q_answer q)) eqn:Ha; simpl.
  - f_equal; [|symmetry; exact Hrest]. f_equal.
    subst all. rewrite (findIndex_position pre rest q Hnd). lia.
  - symmetry. exact Hrest.
Qed.

Lemma omap_zip_imap {A B C} (f : nat -> A -> B) (g : B * A -> option C) (l : list A) :
  omap g (zip (imap f l) l) = omap id (imap (fun i x => g (f i x, x)) l).
Proof.
  revert f. induction l as [|x r IH]; intros f; [reflexivity|].
  simpl. rewrite IH. reflexivity.
Qed.

End AnswerKey.

(** X6 (numbering of the answer key).  When the questions of a paper have
    pairwise distinct identifiers, the rows of the answer sheet are, in the
    order of the paper, the questions that have an answer, each under the
    number that the question sheet gives to that same question. *)
Theorem answer_key_numbering (paper : Paper) :
  List.NoDup (map q_id (p_questions paper)) ->
  Exporter.answerData paper
  = omap (fun '(row, q) =>
            if Exporter.truthy (q_answer q)
            then Some {| Exporter.ar_No := Exporter.qr_No row;
                         Exporter.ar_Answer := q_answer q |}
            else None)
         (zip (Exporter.questionData paper) (p_questions paper)).
Proof.
  intros Hnd. unfold Exporter.answerData, Exporter.questionData.
  rewrite (answer_rows_from (p_questions paper) (p_questions paper) [] eq_refl Hnd).
  rewrite omap_zip_imap. reflexivity.
Qed.

Lemma answer_key_numbering_witness :
  Exporter.answerData
    (Generator.paper_of (demo_component (ai_settings "" "" [])) (oracle_with ai_one)
       [mkq "a" 10 5 [];
        {| q_id := "b"; q_class := 10; q_chapter := "Cell"; q_text := "Name the organelle.";
           q_answer := Some "Ribosome"; q_marks := 1; q_difficulty := Easy;
           q_usedIn := []; q_source := Manual; q_year := 2024; q_semester := First;
           q_tags := []; q_imageDataURL := None |}] Manual)
  = [ {| Exporter.ar_No := 2; Exporter.ar_Answer := Some "Ribosome" |} ].
Proof.
  apply (answer_key_numbering
           (Generator.paper_of (demo_component (ai_settings "" "" [])) (oracle_with ai_one)
              [mkq "a" 10 5 [];
               {| q_id := "b"; q_class := 10; q_chapter := "Cell";
                  q_text := "Name the organelle.";
                  q_answer := Some "Ribosome"; q_marks := 1; q_difficulty := Easy;
                  q_usedIn := []; q_source := Manual; q_year := 2024; q_semester := First;
                  q_tags := []; q_imageDataURL := None |}] Manual)).
  simpl. repeat constructor; simpl; intuition discriminate.
Defined.

(** Without distinct identifiers the numbering goes astray: two questions
    under one identifier are both answered under the number of the first. *)
Example answers_of_a_repeated_identifier :
  map Exporter.ar_No
    (Exporter.answerData
       (Generator.paper_of (demo_component (ai_settings "" "" [])) (oracle_with ai_one)
          [ {| q_id := "x"; q_class := 10; q_chapter := ""; q_text := "first";
               q_answer := Some "A"; q_marks := 1; q_difficulty := Easy;
               q_usedIn := []; q_source := Generated; q_year := 2024;
               q_semester := First; q_tags := []; q_imageDataURL := None |};
            {| q_id := "x"; q_class := 10; q_chapter := ""; q_text := "second";
               q_answer := Some "B"; q_marks := 1; q_difficulty := Easy;
               q_usedIn := []; q_source := Generated; q_year := 2024;
               q_semester := First; q_tags := []; q_imageDataURL := None |} ] Generated))
  = [1; 1].
Proof. reflexivity. Qed.

(* ===================================================================== *)
(** * Saving and deleting papers: the usage marks of the bank             *)
(* ===================================================================== *)

Section UsageMarks.
Import App.

Lemma with_usedIn_same (q : Question) : with_usedIn q (q_usedIn q) = q.
Proof. now destruct q. Qed.

Lemma with_usedIn_twice (q : Question) (u v : list UsedIn) :
  with_usedIn (with_usedIn q u) v = with_usedIn q v.
Proof. reflexivity. Qed.

Lemma update_usedIn_ids ids f qs :
  map q_id (fst (update_usedIn ids f qs)) = map q_id qs.
Proof.
  unfold update_usedIn. simpl. rewrite map_map. apply map_ext.
  intros q. now destruct (Panel.includes ids (q_id q)).
Qed.

Lemma update_usedIn_rest ids f qs :
  map (fun q => with_usedIn q []) (fst (update_usedIn ids f qs))
  = map (fun q => with_usedIn q []) qs.
Proof.
  unfold update_usedIn. simpl. rewrite map_map. apply map_ext.
  intros q. now destruct (Panel.includes ids (q_id q)).
Qed.

Lemma update_usedIn_In ids f qs q :
  In q (fst (update_usedIn ids f qs)) ->
  exists q0, In q0 qs /\ q_id q0 = q_id q /\
             q = (if Panel.includes ids (q_id q0) then with_usedIn q0 (f q0) else q0).
Proof.
  unfold update_usedIn. simpl. intros H. apply in_map_iff in H as (q0 & <- & H0).
  exists q0. split; [assumption|]. split; [|reflexivity].
  now destruct (Panel.includes ids (q_id q0)).
Qed.

(** Each update sent to the database carries what the bank now holds. *)
Lemma update_usedIn_sent ids f qs id u :
  In (UpdateUsedIn id u) (snd (update_usedIn ids f qs)) ->
  exists q, In q (fst (update_usedIn ids f qs)) /\ q_id q = id /\ q_usedIn q = u /\
            In id ids.
Proof.
  unfold update_usedIn. simpl. intros H.
  apply list_elem_of_In, list_elem_of_omap in H as (q0 & H0 & E).
  apply list_elem_of_In in H0.
  destruct (Panel.includes ids (q_id q0)) eqn:Hi; [|discriminate].
  injection E as <- <-. exists (with_usedIn q0 (f q0)). repeat split.
  - apply in_map_iff. exists q0. now rewrite Hi.
  - now apply includes_In.
Qed.

Lemma update_usedIn_only_updates ids f qs e :
  In e (snd (update_usedIn ids f qs)) -> exists id u, e = UpdateUsedIn id u.
Proof.
  unfold update_usedIn. simpl. intros H.
  apply list_elem_of_In, list_elem_of_omap in H as (q0 & _ & E).
  destruct (Panel.includes ids (q_id q0)); [|discriminate].
  injection E as <-. eauto.
Qed.

Lemma filter_paper_absent (id : string) (u : list UsedIn) :
  existsb (fun use => String.eqb (ui_paperId use) id) u = false ->
  List.filter (fun use => negb (String.eqb (ui_paperId use) id)) u = u.
Proof.
  induction u as [|x r IH]; simpl; [reflexivity|]. intros H.
  apply orb_false_iff in H as [Hx Hr]. rewrite Hx. simpl. now rewrite IH.
Qed.

Lemma filter_paper_removes (id : string) (u : list UsedIn) :
  existsb (fun use => String.eqb (ui_paperId use) id)
          (List.filter (fun use => negb (String.eqb (ui_paperId use) id)) u) = false.
Proof.
  induction u as [|x r IH]; simpl; [reflexivity|].
  destruct (String.eqb (ui_paperId x) id) eqn:E; simpl; [exact IH|].
  now rewrite E, IH.
Qed.

Lemma filter_papers_absent (id : string) (ps : list Paper) :
  Forall (fun p => p_id p <> id) ps ->
  List.filter (fun p => negb (String.eqb (p_id p) id)) ps = ps.
Proof.
  induction 1 as [|p r Hp _ IH]; simpl; [reflexivity|].
  apply String.eqb_neq in Hp. rewrite Hp. simpl. now rewrite IH.
Qed.

End UsageMarks.

Section SamplingFromThePool.
Import Bank.

(** Whatever the counts, the second loop only takes questions of the pool. *)
Lemma select_groups_from_pool (shuffle : nat -> list nat) (d : Distribution) :
  forall (k : nat) (pool acc : list Question) (q : Question),
    In q (select_groups shuffle k d pool acc) -> In q acc \/ In q pool.
Proof.
  induction d as [|[count marks] rest IH]; intros k pool acc q; simpl; [auto|].
  intros H. apply IH in H as [H|H].
  - apply in_app_or in H as [H|H]; [now left|]. right.
    unfold slice0 in H. destruct (count <? 0); apply In_take in H;
      (eapply Permutation_in in H; [|apply permute_Permutation]);
      now apply filter_In in H.
  - right. now apply filter_In in H.
Qed.

Lemma generateFromBank_from_pool questions selectedClass avoidPrevious shuffle d qs q :
  generateFromBank questions selectedClass avoidPrevious shuffle d = Questions qs ->
  In q qs -> In q (sourcePool questions selectedClass avoidPrevious).
Proof.
  unfold generateFromBank. destruct (0 <? length _)%nat; [discriminate|].
  intros [= <-] H. apply select_groups_from_pool in H as [[]|H]. exact H.
Qed.

End SamplingFromThePool.

(** X7 (a saved paper marks its questions as used).  After [handleSavePaper]
    has saved a paper, a sampling of the bank that avoids previous questions
    returns none of the questions of that paper, whatever the distribution,
    the class and the shuffles. *)
Theorem saved_questions_are_avoided
    (st : App.State) (user : string) (paper savedPaper : Paper) (more : list Paper)
    (selectedClass : Z) (shuffle : nat -> list nat) (d : Distribution)
    (qs : list Question) :
  App.session_user st = Some user ->
  Bank.generateFromBank
    (App.bank (fst (App.handleSavePaper st paper (App.Written savedPaper more))))
    selectedClass true shuffle d = Bank.Questions qs ->
  Forall (fun q => ~ In (q_id q) (map q_id (p_questions paper))) qs.
Proof.
  intros Hu Hrun. apply Forall_forall. intros q Hq Hin.
  apply list_elem_of_In in Hq.
  apply (generateFromBank_from_pool _ _ _ _ _ _ _ Hrun), sourcePool_In in Hq
    as (Hb & _ & Hunused).
  specialize (Hunused eq_refl).
  unfold App.handleSavePaper in Hb. rewrite Hu in Hb. simpl in Hb.
  apply update_usedIn_In in Hb as (q0 & _ & Hid & ->).
  rewrite <- Hid in Hin. apply includes_In in Hin. rewrite Hin in Hunused.
  simpl in Hunused. now destruct (q_usedIn q0).
Qed.

Lemma saved_questions_are_avoided_witness :
  Forall (fun q => ~ In (q_id q) (map q_id [mkq "a" 10 5 []])) [mkq "b" 10 5 []].
Proof.
  apply (saved_questions_are_avoided
           {| App.session_user := Some "u1"; App.bank := demo_bank; App.papers := [];
              App.language := en |}
           "u1"
           (Generator.paper_of (demo_component (ai_settings "1x5" "" [])) (oracle_with ai_one)
              [mkq "a" 10 5 []] Manual)
           (Generator.paper_of (demo_component (ai_settings "1x5" "" [])) (oracle_with ai_one)
              [mkq "a" 10 5 []] Manual)
           [] 10 identity_shuffle [(1, 5)]).
  - reflexivity.
  - vm_compute. reflexivity.
Defined.

(** X8 (saving then deleting a paper).  Deleting a paper that was just
    saved gives back the state before the saving, usage marks included, when
    the row returned by the database lists the questions of the paper and its
    identifier is new: no paper of the archive and no usage mark of the bank
    bears it. *)
Theorem save_then_delete_restores
    (st : App.State) (user : string) (paper savedPaper : Paper) (more : list Paper) :
  App.session_user st = Some user ->
  map q_id (p_questions savedPaper) = map q_id (p_questions paper) ->
  Forall (fun p => p_id p <> p_id savedPaper) (App.papers st) ->
  Forall (fun q => App.refers_to (p_id savedPaper) q = false) (App.bank st) ->
  fst (App.handleDeletePaper
         (fst (App.handleSavePaper st paper (App.Written savedPaper more)))
         (p_id savedPaper) App.Deleted)
  = st.
Proof.
  intros Hu Hrow Hpapers Hbank.
  unfold App.handleSavePaper. rewrite Hu. simpl.
  unfold App.handleDeletePaper. simpl. rewrite Hu.
  unfold App.find_paper. simpl. rewrite String.eqb_refl. simpl.
  rewrite (filter_papers_absent _ _ Hpapers), Hrow.
  destruct st as [su bk ps lg]. simpl in *. unfold App.set_papers, App.set_bank. simpl.
  f_equal. rewrite map_map.
  rewrite <- (map_id bk) at 2. apply map_ext_in. intros q Hq.
  rewrite Forall_forall in Hbank. apply list_elem_of_In in Hq.
  specialize (Hbank q Hq). unfold App.refers_to in Hbank.
  destruct (Panel.includes (map q_id (p_questions paper)) (q_id q)) eqn:Hi; simpl.
  - rewrite Hi. rewrite with_usedIn_twice. simpl.
    rewrite List.filter_app. simpl. rewrite String.eqb_refl. simpl.
    rewrite app_nil_r, (filter_paper_absent _ _ Hbank). apply with_usedIn_same.
  - now rewrite Hi.
Qed.

Lemma save_then_delete_restores_witness :
  fst (App.handleDeletePaper
         (fst (App.handleSavePaper
                 {| App.session_user := Some "u1"; App.bank := demo_bank;
                    App.papers := []; App.language := en |}
                 (Generator.paper_of (demo_component (ai_settings "1x5" "" []))
                    (oracle_with ai_one) [mkq "a" 10 5 []] Manual)
                 (App.Written
                    (Generator.paper_of (demo_component (ai_settings "1x5" "" []))
                       (oracle_with ai_one) [mkq "a" 10 5 []] Manual) [])))
         "2025-01-01T00:00:00.000Z" App.Deleted)
  = {| App.session_user := Some "u1"; App.bank := demo_bank; App.papers := [];
       App.language := en |}.
Proof.
  apply (save_then_delete_restores
           {| App.session_user := Some "u1"; App.bank := demo_bank; App.papers := [];
              App.language := en |}
           "u1"
           (Generator.paper_of (demo_component (ai_settings "1x5" "" [])) (oracle_with ai_one)
              [mkq "a" 10 5 []] Manual)
           (Generator.paper_of (demo_component (ai_settings "1x5" "" [])) (oracle_with ai_one)
              [mkq "a" 10 5 []] Manual)
           []).
  - reflexivity.
  - reflexivity.
  - simpl. constructor.
  - simpl. repeat constructor.
Defined.

(* ===================================================================== *)
(** * What the handlers of the application keep                           *)
(* ===================================================================== *)

Section Handlers.
Import App.

Lemma NoDup_filter_ids (p : Question -> bool) (qs : list Question) :
  List.NoDup (map q_id qs) -> List.NoDup (map q_id (List.filter p qs)).
Proof. apply NoDup_map_filter. Qed.

Lemma replace_row_ids (id : string) (row : Question) (qs : list Question) :
  q_id row = id ->
  map q_id (map (fun q => if String.eqb (q_id q) id then row else q) qs) = map q_id qs.
Proof.
  intros Hrow. rewrite map_map. apply map_ext. intros q.
  destruct (String.eqb_spec (q_id q) id); congruence.
Qed.

Lemma handleSavePaper_bank st paper reply :
  bank (fst (handleSavePaper st paper reply)) = bank st \/
  exists f, bank (fst (handleSavePaper st paper reply))
            = fst (update_usedIn (map q_id (p_questions paper)) f (bank st)).
Proof.
  unfold handleSavePaper. destruct (session_user st); [|now left].
  destruct reply as [|savedPaper more]; [now left|]. right. eexists. reflexivity.
Qed.

Lemma handleDeletePaper_bank st id reply :
  bank (fst (handleDeletePaper st id reply)) = bank st \/
  exists ids f, bank (fst (handleDeletePaper st id reply))
                = fst (update_usedIn ids f (bank st)).
Proof.
  unfold handleDeletePaper. destruct (session_user st); [|now left].
  destruct (find_paper id (papers st)); [|now left].
  destruct reply; [now left|]. right. eexists _, _. reflexivity.
Qed.

End Handlers.

(** X9 (saving and deleting papers change usage marks only).  Whatever the
    reply of the database, [handleSavePaper] and [handleDeletePaper] leave
    in the bank the same questions in the same order, equal to what they
    were in every field but [usedIn]. *)
Theorem paper_handlers_change_only_usage
    (st : App.State) (paper : Paper) (saved : App.Rows Paper)
    (id : string) (deleted : App.Deletion) :
  map (fun q => App.with_usedIn q []) (App.bank (fst (App.handleSavePaper st paper saved)))
  = map (fun q => App.with_usedIn q []) (App.bank st) /\
  map (fun q => App.with_usedIn q []) (App.bank (fst (App.handleDeletePaper st id deleted)))
  = map (fun q => App.with_usedIn q []) (App.bank st).
Proof.
  split.
  - destruct (handleSavePaper_bank st paper saved) as [->|(f & ->)];
      [reflexivity | apply update_usedIn_rest].
  - destruct (handleDeletePaper_bank st id deleted) as [->|(ids & f & ->)];
      [reflexivity | apply update_usedIn_rest].
Qed.

(** X10 (the identifiers of the bank stay distinct).  If the questions of
    the bank have pairwise distinct identifiers, they still have after
    [handleSavePaper], [handleDeletePaper] and [handleDeleteQuestion],
    whatever the database replies; after an edit by [handleQuestionSubmit]
    when the row returned bears the identifier of the edited question; and
    after an insertion when the row returned bears an identifier that the
    bank does not hold. *)
Theorem bank_ids_stay_distinct
    (st : App.State) (paper : Paper) (saved : App.Rows Paper)
    (id : string) (deleted : App.Deletion)
    (editing : option Question) (questionData : Question) (written : App.Rows Question) :
  List.NoDup (map q_id (App.bank st)) ->
  match written, editing with
  | App.Written row _, Some _ => q_id row = q_id questionData
  | App.Written row _, None => ~ In (q_id row) (map q_id (App.bank st))
  | App.Failed, _ => True
  end ->
  List.NoDup (map q_id (App.bank (fst (App.handleSavePaper st paper saved)))) /\
  List.NoDup (map q_id (App.bank (fst (App.handleDeletePaper st id deleted)))) /\
  List.NoDup (map q_id (App.bank (fst (App.handleDeleteQuestion st id deleted)))) /\
  List.NoDup (map q_id (App.bank (fst (App.handleQuestionSubmit st editing questionData
                                         written)))).
Proof.
  intros Hnd Hrow. split; [|split; [|split]].
  - destruct (handleSavePaper_bank st paper saved) as [->|(f & ->)];
      [assumption | now rewrite update_usedIn_ids].
  - destruct (handleDeletePaper_bank st id deleted) as [->|(ids & f & ->)];
      [assumption | now rewrite update_usedIn_ids].
  - unfold App.handleDeleteQuestion. destruct (App.session_user st); [|assumption].
    destruct deleted; [assumption|]. simpl. now apply NoDup_filter_ids.
  - unfold App.handleQuestionSubmit. destruct (App.session_user st); [|assumption].
    destruct editing as [e|], written as [|row more]; simpl; try assumption.
    + now rewrite replace_row_ids.
    + now constructor.
Qed.

Lemma bank_ids_stay_distinct_witness :
  List.NoDup (map q_id demo_bank) /\
  List.NoDup (map q_id (mkq "e" 10 1 [] :: demo_bank)).
Proof.
  pose proof (bank_ids_stay_distinct
                {| App.session_user := Some "u1"; App.bank := demo_bank;
                   App.papers := []; App.language := en |}
                (Generator.paper_of (demo_component (ai_settings "1x5" "" []))
                   (oracle_with ai_one) [mkq "a" 10 5 []] Manual)
                App.Failed "p1" App.DeleteFailed None (mkq "new" 10 1 [])
                (App.Written (mkq "e" 10 1 []) [])) as H.
  simpl in H. split; apply H.
  - repeat constructor; simpl; intuition discriminate.
  - intuition discriminate.
  - repeat constructor; simpl; intuition discriminate.
  - intuition discriminate.
Defined.

(** X11 (a deleted paper leaves no trace).  After [handleDeletePaper] has
    deleted a paper of the archive, no paper of the archive bears its
    identifier, no question listed in the deleted paper keeps a usage mark
    for it, and each update sent to the database carries the usage marks
    that the bank now holds for the question it names. *)
Theorem deleted_paper_leaves_no_trace
    (st : App.State) (user id : string) (paperToDelete : Paper) :
  App.session_user st = Some user ->
  App.find_paper id (App.papers st) = Some paperToDelete ->
  Forall (fun p => p_id p <> id)
         (App.papers (fst (App.handleDeletePaper st id App.Deleted))) /\
  Forall (fun q => In (q_id q) (map q_id (p_questions paperToDelete)) ->
                   App.refers_to id q = false)
         (App.bank (fst (App.handleDeletePaper st id App.Deleted))) /\
  (forall qid used_in,
      In (App.UpdateUsedIn qid used_in) (snd (App.handleDeletePaper st id App.Deleted)) ->
      exists q, In q (App.bank (fst (App.handleDeletePaper st id App.Deleted))) /\
                q_id q = qid /\ q_usedIn q = used_in).
Proof.
  intros Hu Hfind. unfold App.handleDeletePaper. rewrite Hu, Hfind. simpl.
  split; [|split].
  - apply Forall_forall. intros p Hp. apply list_elem_of_In, filter_In in Hp as [_ Hp].
    apply negb_true_iff in Hp. now apply String.eqb_neq.
  - apply Forall_forall. intros q Hq Hin. apply list_elem_of_In in Hq.
    apply in_map_iff in Hq as (q0 & <- & _).
    destruct (Panel.includes (map q_id (p_questions paperToDelete)) (q_id q0)) eqn:Hi.
    + unfold App.refers_to. simpl. apply filter_paper_removes.
    + apply includes_In in Hin. congruence.
  - intros qid used_in Hin. apply in_app_or in Hin as [Hin|[Hin|[]]]; [|discriminate].
    apply update_usedIn_sent in Hin as (q & Hq & Hid & Hused & _). eauto.
Qed.

Lemma deleted_paper_leaves_no_trace_witness :
  Forall (fun p => p_id p <> "p1")
         (App.papers
            (fst (App.handleDeletePaper
                    {| App.session_user := Some "u1";
                       App.bank := [mkq "a" 10 5 used_once; mkq "b" 10 5 []];
                       App.papers :=
                         [ {| p_id := "p1"; p_title := "Unit test"; p_year := 2023;
                              p_class := 10; p_semester := First; p_source := Manual;
                              p_questions := [mkq "a" 10 5 []];
                              p_createdAt := "2023-01-01" |} ];
                       App.language := en |} "p1" App.Deleted))).
Proof.
  refine (proj1 (deleted_paper_leaves_no_trace
                   {| App.session_user := Some "u1";
                      App.bank := [mkq "a" 10 5 used_once; mkq "b" 10 5 []];
                      App.papers :=
                        [ {| p_id := "p1"; p_title := "Unit test"; p_year := 2023;
                             p_class := 10; p_semester := First; p_source := Manual;
                             p_questions := [mkq "a" 10 5 []];
                             p_createdAt := "2023-01-01" |} ];
                      App.language := en |} "u1" "p1" _ _ _)).
  - reflexivity.
  - reflexivity.
Defined.

(* ===================================================================== *)
(** * The archive: grouping and ordering                                  *)
(* ===================================================================== *)

Section Grouping.
Import Archive.

Lemma get_set (acc : Groups) (k k' : string) (g : PaperGroup) :
  get (set acc k g) k' = if String.eqb k k' then Some g else get acc k'.
Proof.
  induction acc as [|[k0 g0] rest IH]; simpl.
  - reflexivity.
  - destruct (String.eqb_spec k0 k) as [->|Hne]; simpl.
    + destruct (String.eqb k k'); reflexivity.
    + rewrite IH. destruct (String.eqb_spec k0 k') as [->|Hne'];
        [|reflexivity].
      apply String.eqb_neq in Hne. rewrite String.eqb_sym in Hne. now rewrite Hne.
Qed.

Lemma get_None (acc : Groups) (k : string) :
  get acc k = None <-> ~ In k (map fst acc).
Proof.
  induction acc as [|[k0 g0] rest IH]; simpl; [tauto|].
  destruct (String.eqb_spec k0 k) as [->|Hne].
  - split; [discriminate | intros H; exfalso; apply H; now left].
  - rewrite IH. tauto.
Qed.

Lemma set_keys (acc : Groups) (k : string) (g : PaperGroup) :
  map fst (set acc k g)
  = match get acc k with
    | Some _ => map fst acc
    | None => map fst acc ++ [k]
    end.
Proof.
  induction acc as [|[k0 g0] rest IH]; simpl; [reflexivity|].
  destruct (String.eqb_spec k0 k) as [->|Hne]; simpl; [reflexivity|].
  rewrite IH. now destruct (get rest k).
Qed.

Lemma set_NoDup (acc : Groups) (k : string) (g : PaperGroup) :
  List.NoDup (map fst acc) -> List.NoDup (map fst (set acc k g)).
Proof.
  intros Hnd. rewrite set_keys. destruct (get acc k) eqn:E; [assumption|].
  apply get_None in E. apply NoDup_ListNoDup, NoDup_app.
  split; [now apply NoDup_ListNoDup|]. split.
  - intros x Hx Hx'. apply list_elem_of_In in Hx, Hx'.
    destruct Hx' as [<-|[]]. contradiction.
  - apply NoDup_ListNoDup. constructor; [intros []|constructor].
Qed.

End Grouping.

Section GroupingInvariant.
Import Archive.

Lemma group_of_snoc_other (seen : list Paper) (paper : Paper) (k : string) :
  paper_key paper <> k -> group_of (seen ++ [paper]) k = group_of seen k.
Proof.
  intros Hne. unfold group_of. rewrite List.filter_app. simpl.
  apply String.eqb_neq in Hne. rewrite Hne. now rewrite app_nil_r.
Qed.

Lemma group_of_snoc_same (seen : list Paper) (paper : Paper) :
  group_of (seen ++ [paper]) (paper_key paper)
  = Some match group_of seen (paper_key paper) with
         | Some g => push_paper g paper
         | None => {| pg_year := p_year paper; pg_classNum := p_class paper;
                      pg_semester := p_semester paper; pg_papers := [paper] |}
         end.
Proof.
  unfold group_of. rewrite List.filter_app. simpl. rewrite String.eqb_refl.
  destruct (List.filter _ seen); reflexivity.
Qed.

(** One step of the reduction keeps the table in line with [group_of]. *)
Lemma add_paper_get (acc : Groups) (seen : list Paper) (paper : Paper) :
  (forall k, get acc k = group_of seen k) ->
  forall k, get (add_paper acc paper) k = group_of (seen ++ [paper]) k.
Proof.
  intros Hacc k. unfold add_paper.
  destruct (String.eqb_spec (paper_key paper) k) as [<-|Hne].
  - rewrite group_of_snoc_same, <- Hacc.
    destruct (get acc (paper_key paper)) as [g|] eqn:E.
    + rewrite E, get_set, String.eqb_refl. reflexivity.
    + rewrite get_set, String.eqb_refl, get_set, String.eqb_refl. reflexivity.
  - rewrite (group_of_snoc_other _ _ _ Hne), <- Hacc.
    pose proof Hne as Hne'. apply String.eqb_neq in Hne'.
    destruct (get acc (paper_key paper)) as [g|] eqn:E.
    + rewrite E, get_set, Hne'. reflexivity.
    + rewrite get_set, String.eqb_refl, !get_set, Hne'. reflexivity.
Qed.

Lemma add_paper_NoDup (acc : Groups) (paper : Paper) :
  List.NoDup (map fst acc) -> List.NoDup (map fst (add_paper acc paper)).
Proof.
  intros Hnd. unfold add_paper.
  destruct (get acc (paper_key paper)) as [g|] eqn:E.
  - rewrite E. now apply set_NoDup.
  - rewrite get_set, String.eqb_refl. now apply set_NoDup, set_NoDup.
Qed.

Lemma reduce_groups (rest : list Paper) :
  forall (acc : Groups) (seen : list Paper),
    (forall k, get acc k = group_of seen k) ->
    List.NoDup (map fst acc) ->
    (forall k, get (fold_left add_paper rest acc) k = group_of (seen ++ rest) k) /\
    List.NoDup (map fst (fold_left add_paper rest acc)).
Proof.
  induction rest as [|paper rest IH]; intros acc seen Hget Hnd; simpl.
  - now rewrite app_nil_r.
  - replace (seen ++ paper :: rest) with ((seen ++ [paper]) ++ rest)
      by now rewrite <- app_assoc.
    apply IH; [now apply add_paper_get | now apply add_paper_NoDup].
Qed.

Lemma get_In (acc : Groups) (k : string) (g : PaperGroup) :
  List.NoDup (map fst acc) -> (In (k, g) acc <-> get acc k = Some g).
Proof.
  induction acc as [|[k0 g0] rest IH]; simpl; intros Hnd.
  - split; [tauto | discriminate].
  - inversion Hnd as [|? ? Hnotin Hnd']; subst.
    destruct (String.eqb_spec k0 k) as [->|Hne].
    + split.
      * intros [[= ->]|Hin]; [reflexivity|].
        exfalso. apply Hnotin. apply in_map_iff. now exists (k, g).
      * intros [= ->]. now left.
    + rewrite <- (IH Hnd'). split; [|tauto].
      intros [[= -> ->]|Hin]; [contradiction | assumption].
Qed.

End GroupingInvariant.

(** X12 (the archive groups papers by key).  [groupedPapers] holds each key
    once; under a key it holds exactly the papers whose year, class and
    semester render to that key, in the order of the archive and under the
    year, class and semester of the first of them; and it holds nothing
    under a key that no paper has. *)
Theorem groupedPapers_partition (papers : list Paper) :
  List.NoDup (map fst (Archive.groupedPapers papers)) /\
  (forall k, Archive.get (Archive.groupedPapers papers) k = Archive.group_of papers k) /\
  (forall k g, In (k, g) (Archive.groupedPapers papers) <->
               Archive.group_of papers k = Some g).
Proof.
  destruct (reduce_groups papers [] [] (fun _ => eq_refl) (List.NoDup_nil _))
    as [Hget Hnd].
  simpl in Hget. split; [exact Hnd|]. split; [exact Hget|].
  intros k g. unfold Archive.groupedPapers. rewrite <- Hget. now apply get_In.
Qed.

Section StableSort.
Import Archive.

Context {A : Type} (cmp : A -> A -> Z).

Lemma insert_sorted_Permutation (x : A) (l : list A) :
  Permutation (insert_sorted cmp x l) (x :: l).
Proof.
  induction l as [|y rest IH]; simpl; [reflexivity|].
  destruct (cmp x y <=? 0); [reflexivity|].
  rewrite IH. apply perm_swap.
Qed.

Lemma sort_Permutation (l : list A) : Permutation (sort cmp l) l.
Proof.
  unfold sort. induction l as [|x rest IH]; simpl; [reflexivity|].
  rewrite insert_sorted_Permutation. now constructor.
Qed.

Hypothesis cmp_total : forall x y, cmp x y <= 0 \/ cmp y x <= 0.
Hypothesis cmp_trans : forall x y z, cmp x y <= 0 -> cmp y z <= 0 -> cmp x z <= 0.

Lemma insert_sorted_sorted (x : A) (l : list A) :
  StronglySorted (fun a b => cmp a b <= 0) l ->
  StronglySorted (fun a b => cmp a b <= 0) (insert_sorted cmp x l).
Proof.
  induction 1 as [|y rest Hs IH Hy]; simpl.
  - repeat constructor.
  - destruct (Z.leb_spec (cmp x y) 0) as [Hle|Hgt].
    + constructor; [now constructor|]. constructor; [assumption|].
      eapply Forall_impl; [exact Hy|]. intros z Hz. now apply cmp_trans with y.
    + constructor; [assumption|].
      apply Forall_forall. intros z Hz. apply list_elem_of_In in Hz.
      eapply Permutation_in in Hz; [|apply insert_sorted_Permutation].
      destruct Hz as [<-|Hz].
      * destruct (cmp_total x y); [lia | assumption].
      * rewrite Forall_forall in Hy. apply Hy. now apply list_elem_of_In.
Qed.

Lemma sort_sorted (l : list A) :
  StronglySorted (fun a b => cmp a b <= 0) (sort cmp l).
Proof.
  unfold sort. induction l as [|x rest IH]; simpl; [constructor|].
  now apply insert_sorted_sorted.
Qed.

(** Elements that the comparator does not separate keep their order. *)
Lemma insert_sorted_filter (P : A -> bool) (x : A) (l : list A) :
  (forall y, P x = true -> P y = true -> cmp x y <= 0) ->
  List.filter P (insert_sorted cmp x l) = List.filter P (x :: l).
Proof.
  intros HP. induction l as [|y rest IH]; simpl; [reflexivity|].
  destruct (Z.leb_spec (cmp x y) 0) as [Hle|Hgt]; [reflexivity|].
  simpl in *. rewrite IH.
  destruct (P x) eqn:Hx; [|reflexivity].
  destruct (P y) eqn:Hy; [|reflexivity].
  specialize (HP y eq_refl Hy). lia.
Qed.

Lemma sort_stable (P : A -> bool) (l : list A) :
  (forall x y, P x = true -> P y = true -> cmp x y <= 0) ->
  List.filter P (sort cmp l) = List.filter P l.
Proof.
  intros HP. unfold sort. induction l as [|x rest IH]; simpl; [reflexivity|].
  rewrite insert_sorted_filter by (intros y; apply HP).
  simpl. now rewrite IH.
Qed.

End StableSort.

Section OrderOfGroups.
Import Archive.

Lemma StronglySorted_weaken {A} (R R' : A -> A -> Prop) (l : list A) :
  (forall a b, R a b -> R' a b) -> StronglySorted R l -> StronglySorted R' l.
Proof.
  intros HR. induction 1 as [|x rest _ IH Hx]; constructor; [assumption|].
  eapply Forall_impl; [exact Hx|]. intros y. apply HR.
Qed.

Lemma compare_le (a b : PaperGroup) :
  compare a b <= 0 <->
  pg_year b < pg_year a \/ (pg_year a = pg_year b /\ pg_classNum b <= pg_classNum a).
Proof.
  unfold compare. destruct (Z.eqb_spec (pg_year b - pg_year a) 0); lia.
Qed.

Lemma same_rank_compare (g a b : PaperGroup) :
  same_rank g a = true -> same_rank g b = true -> compare a b <= 0.
Proof.
  unfold same_rank. rewrite !andb_true_iff, !Z.eqb_eq, compare_le. lia.
Qed.

End OrderOfGroups.

Section OrderOfKeys.
Import Archive.

(** One step of the reduction appends the key of the paper when it is new
    and leaves the keys as they are otherwise. *)
Lemma add_paper_keys (acc : Groups) (paper : Paper) :
  map fst (add_paper acc paper)
  = if Panel.includes (map fst acc) (paper_key paper)
    then map fst acc
    else map fst acc ++ [paper_key paper].
Proof.
  unfold add_paper. destruct (get acc (paper_key paper)) as [g|] eqn:E.
  - rewrite E, set_keys, E.
    destruct (Panel.includes (map fst acc) (paper_key paper)) eqn:Hi; [reflexivity|].
    apply includes_false, get_None in Hi. congruence.
  - rewrite get_set, String.eqb_refl, set_keys, get_set, String.eqb_refl, set_keys, E.
    apply get_None, includes_false in E. now rewrite E.
Qed.

Lemma includes_snoc (xs : list string) (k x : string) :
  negb (Panel.includes (xs ++ [k]) x)
  = negb (String.eqb x k) && negb (Panel.includes xs x).
Proof.
  unfold Panel.includes. rewrite existsb_app. simpl. rewrite orb_false_r.
  destruct (existsb (String.eqb x) xs), (String.eqb x k); reflexivity.
Qed.

Lemma reduce_keys (rest : list Paper) :
  forall acc : Groups,
    map fst (fold_left add_paper rest acc)
    = map fst acc ++
      List.filter (fun k => negb (Panel.includes (map fst acc) k))
                  (first_keys (map paper_key rest)).
Proof.
  induction rest as [|paper rest IH]; intros acc; simpl.
  - now rewrite app_nil_r.
  - rewrite IH, add_paper_keys, filter_filter.
    destruct (Panel.includes (map fst acc) (paper_key paper)) eqn:Hi; simpl.
    + f_equal. apply filter_ext_in. intros x _.
      destruct (String.eqb_spec x (paper_key paper)) as [->|Hne]; simpl;
        [now rewrite Hi | reflexivity].
    + rewrite <- app_assoc. simpl. do 2 f_equal. apply filter_ext.
      intros x. apply includes_snoc.
Qed.

Lemma filter_all {A} (l : list A) : List.filter (fun _ => true) l = l.
Proof. induction l as [|x r IH]; simpl; [reflexivity | now rewrite IH]. Qed.

(** The keys of [groupedPapers] are enumerated in the order in which they
    first occur among the papers. *)
Lemma groupedPapers_keys (papers : list Paper) :
  map fst (groupedPapers papers) = first_keys (map paper_key papers).
Proof.
  unfold groupedPapers. rewrite reduce_keys. simpl. apply filter_all.
Qed.

Lemma omap_cons {A B} (f : A -> option B) (x : A) (l : list A) :
  omap f (x :: l) = match f x with Some y => y :: omap f l | None => omap f l end.
Proof. reflexivity. Qed.

Lemma omap_pointwise {A B} (f g : A -> option B) (l : list A) :
  (forall x, In x l -> f x = g x) -> omap f l = omap g l.
Proof.
  induction l as [|x r IH]; intros H; [reflexivity|].
  rewrite !omap_cons, (H x) by now left.
  rewrite IH; [reflexivity|]. intros y Hy. apply H. now right.
Qed.

(** A table without repeated keys lists its values in the order of its
    keys. *)
Lemma values_by_keys (acc : Groups) :
  List.NoDup (map fst acc) -> omap (get acc) (map fst acc) = map snd acc.
Proof.
  induction acc as [|[k0 g0] rest IH]; intros Hnd; [reflexivity|].
  inversion Hnd as [|? ? Hnotin Hnd']; subst.
  change (omap (get ((k0, g0) :: rest)) (k0 :: map fst rest) = g0 :: map snd rest).
  assert (Hhead : get ((k0, g0) :: rest) k0 = Some g0)
    by (simpl; now rewrite String.eqb_refl).
  rewrite omap_cons, Hhead. f_equal. rewrite <- (IH Hnd').
  apply omap_pointwise. intros k Hk. simpl.
  destruct (String.eqb_spec k0 k) as [->|Hne]; [contradiction | reflexivity].
Qed.

End OrderOfKeys.

(** X13 (the order of the archive).  [sortedGroups] lists the groups of
    [groupedPapers], each once, by year from the latest to the earliest and,
    within a year, by class from the highest to the lowest; groups of the
    same year and class stay in the order in which their keys first occur in
    the archive: [groupedPapers] enumerates its keys in the order of their
    first occurrence among the papers, its groups are the groups of those
    keys in that order, and the sort keeps groups of one year and class in
    that order. *)
Theorem sortedGroups_ordered (papers : list Paper) :
  Permutation (Archive.sortedGroups papers) (map snd (Archive.groupedPapers papers)) /\
  StronglySorted
    (fun a b => Archive.pg_year b < Archive.pg_year a \/
                (Archive.pg_year a = Archive.pg_year b /\
                 Archive.pg_classNum b <= Archive.pg_classNum a))
    (Archive.sortedGroups papers) /\
  (forall g, List.filter (Archive.same_rank g) (Archive.sortedGroups papers)
             = List.filter (Archive.same_rank g) (map snd (Archive.groupedPapers papers))) /\
  map fst (Archive.groupedPapers papers)
  = Archive.first_keys (map Archive.paper_key papers) /\
  map snd (Archive.groupedPapers papers)
  = omap (Archive.group_of papers) (Archive.first_keys (map Archive.paper_key papers)) /\
  (forall g, List.filter (Archive.same_rank g) (Archive.sortedGroups papers)
             = List.filter (Archive.same_rank g)
                 (omap (Archive.group_of papers)
                       (Archive.first_keys (map Archive.paper_key papers)))).
Proof.
  assert (Hvalues : map snd (Archive.groupedPapers papers)
                    = omap (Archive.group_of papers)
                           (Archive.first_keys (map Archive.paper_key papers))).
  { destruct (reduce_groups papers [] [] (fun _ => eq_refl) (List.NoDup_nil _))
      as [Hget Hnd].
    simpl in Hget. fold (Archive.groupedPapers papers) in Hget, Hnd.
    rewrite <- (values_by_keys _ Hnd), groupedPapers_keys.
    apply omap_pointwise. intros k _. apply Hget. }
  assert (Hstable : forall g,
             List.filter (Archive.same_rank g) (Archive.sortedGroups papers)
             = List.filter (Archive.same_rank g)
                           (map snd (Archive.groupedPapers papers))).
  { intros g. apply sort_stable. intros x y. apply same_rank_compare. }
  unfold Archive.sortedGroups in *. split; [apply sort_Permutation|]. split.
  - eapply StronglySorted_weaken; [|apply sort_sorted].
    + intros a b. apply compare_le.
    + intros x y. rewrite !compare_le. lia.
    + intros x y z. rewrite !compare_le. lia.
  - split; [exact Hstable|]. split; [apply groupedPapers_keys|].
    split; [exact Hvalues|]. intros g. rewrite <- Hvalues. apply Hstable.
Qed.

(* ===================================================================== *)
(** * Lists typed as text: [split], [join] and the tags of a question     *)
(* ===================================================================== *)

Section SplitJoin.
Import QuestionForm.

Lemma append_cons (c : ascii) (a b : string) :
  String c a +:+ b = String c (a +:+ b).
Proof. reflexivity. Qed.

Lemma split_not_nil (sep : ascii) (s : string) : JS.split sep s <> [].
Proof.
  destruct s as [|c r]; simpl; [discriminate|].
  destruct (Ascii.eqb c sep); [discriminate|].
  destruct (JS.split sep r); discriminate.
Qed.

Lemma split_no_sep (sep : ascii) (t : string) :
  has_char sep t = false -> JS.split sep t = [t].
Proof.
  induction t as [|c r IH]; simpl; [reflexivity|]. intros H.
  apply orb_false_iff in H as [Hc Hr]. rewrite Hc, (IH Hr). reflexivity.
Qed.

(** A separator after a part that holds none ends the first item. *)
Lemma split_first (sep : ascii) (a b : string) :
  has_char sep a = false ->
  JS.split sep (a +:+ String sep b) = a :: JS.split sep b.
Proof.
  induction a as [|c r IH]; simpl; intros H.
  - change (JS.split sep (String sep b) = "" :: JS.split sep b). simpl.
    now rewrite Ascii.eqb_refl.
  - apply orb_false_iff in H as [Hc Hr]. rewrite Hc, (IH Hr). reflexivity.
Qed.

(** A separator before a part that holds none starts the last item. *)
Lemma split_last (sep : ascii) (a b : string) :
  has_char sep b = false ->
  JS.split sep (a +:+ String sep b) = JS.split sep a ++ [b].
Proof.
  intros Hb. induction a as [|c r IH].
  - change (JS.split sep (String sep b) = [""] ++ [b]). simpl.
    now rewrite Ascii.eqb_refl, (split_no_sep sep b Hb).
  - rewrite append_cons. simpl. rewrite IH.
    destruct (Ascii.eqb c sep); [reflexivity|].
    pose proof (split_not_nil sep r) as Hne.
    destruct (JS.split sep r) as [|x xs]; [contradiction | reflexivity].
Qed.

(** Joining what was split gives the text back. *)
Lemma join_split (sep : ascii) (s : string) :
  JS.join (String sep "") (JS.split sep s) = s.
Proof.
  induction s as [|c r IH]; [reflexivity|]. simpl.
  pose proof (split_not_nil sep r) as Hne.
  destruct (Ascii.eqb_spec c sep) as [->|Hc].
  - destruct (JS.split sep r) as [|x xs]; [contradiction|].
    change (JS.join (String sep "") ("" :: x :: xs))
      with ("" +:+ String sep "" +:+ JS.join (String sep "") (x :: xs)).
    rewrite IH. reflexivity.
  - destruct (JS.split sep r) as [|x xs]; [contradiction|].
    destruct xs as [|y ys].
    + simpl in *. now rewrite IH.
    + change (JS.join (String sep "") (String c x :: y :: ys))
        with (String c x +:+ String sep "" +:+ JS.join (String sep "") (y :: ys)).
      change (JS.join (String sep "") (x :: y :: ys))
        with (x +:+ String sep "" +:+ JS.join (String sep "") (y :: ys)) in IH.
      rewrite append_cons, IH. reflexivity.
Qed.

Lemma split_after_space (s : string) :
  JS.split ","%char (String " "%char s)
  = match JS.split ","%char s with
    | x :: xs => String " "%char x :: xs
    | [] => [String " "%char EmptyString]
    end.
Proof. reflexivity. Qed.

Lemma split_joined_tags (t : string) (r : list string) :
  Forall (fun x => has_char ","%char x = false) (t :: r) ->
  JS.split ","%char (JS.join ", " (t :: r)) = t :: map (String " "%char) r.
Proof.
  revert t. induction r as [|u r IH]; intros t H.
  - inversion H; subst. now apply split_no_sep.
  - inversion H as [|? ? Ht Hr]; subst.
    change (JS.join ", " (t :: u :: r))
      with (t +:+ String ","%char (String " "%char (JS.join ", " (u :: r)))).
    rewrite (split_first _ _ _ Ht), split_after_space, (IH u Hr). reflexivity.
Qed.

Lemma trim_after_space (u : string) : JS.trim (String " "%char u) = JS.trim u.
Proof. reflexivity. Qed.

Lemma nonempty_items_joined (tags : list string) :
  Forall clean_tag tags ->
  Generator.nonempty_items (JS.join ", " tags) = tags.
Proof.
  intros H. destruct tags as [|t r]; [reflexivity|].
  unfold Generator.nonempty_items. rewrite split_joined_tags.
  - inversion H as [|? ? (Hne & Htrim & _) Hr]; subst. simpl.
    rewrite Htrim. apply String.eqb_neq in Hne. rewrite Hne. simpl. f_equal.
    clear H Hne Htrim. induction Hr as [|u r (Hne & Htrim & _) _ IH]; simpl;
      [reflexivity|].
    rewrite trim_after_space, Htrim. apply String.eqb_neq in Hne. rewrite Hne.
    simpl. now rewrite IH.
  - eapply Forall_impl; [exact H|]. intros x (_ & _ & Hx). exact Hx.
Qed.

Lemma split_items_no_sep (sep : ascii) (s : string) :
  Forall (fun x => has_char sep x = false) (JS.split sep s).
Proof.
  induction s as [|c r IH]; simpl; [repeat constructor|].
  destruct (Ascii.eqb c sep) eqn:E; [now constructor|].
  destruct (JS.split sep r) as [|x xs]; [repeat constructor; simpl; now rewrite E|].
  inversion IH as [|? ? Hx Hxs]; subst. constructor; [|assumption].
  simpl. now rewrite E, Hx.
Qed.

Lemma trim_start_keeps (ch : ascii) (s : string) :
  has_char ch s = false -> has_char ch (JS.trim_start s) = false.
Proof.
  induction s as [|c r IH]; simpl; [auto|]. intros H.
  apply orb_false_iff in H as [Hc Hr].
  destruct (JS.is_ws c); [auto|]. simpl. now rewrite Hc, Hr.
Qed.

Lemma trim_end_keeps (ch : ascii) (s : string) :
  has_char ch s = false -> has_char ch (JS.trim_end s) = false.
Proof.
  induction s as [|c r IH]; simpl; [auto|]. intros H.
  apply orb_false_iff in H as [Hc Hr]. specialize (IH Hr).
  destruct (JS.trim_end r) as [|c' e].
  - destruct (JS.is_ws c); simpl; [reflexivity | now rewrite Hc].
  - simpl in *. now rewrite Hc, IH.
Qed.

Lemma trim_start_fixed (s : string) : JS.trim_start (JS.trim_start s) = JS.trim_start s.
Proof.
  induction s as [|c r IH]; simpl; [reflexivity|].
  destruct (JS.is_ws c) eqn:E; [exact IH|]. simpl. now rewrite E.
Qed.

Lemma trim_end_fixed (s : string) : JS.trim_end (JS.trim_end s) = JS.trim_end s.
Proof.
  induction s as [|c r IH]; simpl; [reflexivity|].
  destruct (JS.trim_end r) as [|c' e] eqn:E.
  - destruct (JS.is_ws c) eqn:W; simpl; [reflexivity | now rewrite W].
  - change (JS.trim_end (String c (String c' e)))
      with (match JS.trim_end (String c' e) with
            | EmptyString => if JS.is_ws c then EmptyString else String c EmptyString
            | String a b => String c (String a b)
            end).
    now rewrite IH.
Qed.

(** What has no white space in front keeps its front when its end is
    trimmed. *)
Lemma trim_start_of_trim_end (s : string) :
  JS.trim_start s = s -> JS.trim_start (JS.trim_end s) = JS.trim_end s.
Proof.
  destruct s as [|c r]; [reflexivity|]. simpl.
  destruct (JS.is_ws c) eqn:W.
  - intros H. exfalso.
    assert (Hlen : forall x, (String.length (JS.trim_start x) <= String.length x)%nat).
    { induction x as [|c0 x IHx]; simpl; [lia|].
      destruct (JS.is_ws c0); simpl; lia. }
    specialize (Hlen r). rewrite H in Hlen. simpl in Hlen. lia.
  - intros _. destruct (JS.trim_end r); simpl; now rewrite W.
Qed.

Lemma trim_fixed (x : string) : JS.trim (JS.trim x) = JS.trim x.
Proof.
  unfold JS.trim.
  rewrite (trim_start_of_trim_end _ (trim_start_fixed x)). apply trim_end_fixed.
Qed.

Lemma nonempty_items_clean (s : string) :
  Forall clean_tag (Generator.nonempty_items s).
Proof.
  unfold Generator.nonempty_items. apply Forall_forall. intros y Hy.
  apply list_elem_of_In, filter_In in Hy as [Hy Hne].
  apply in_map_iff in Hy as (x & <- & Hx).
  pose proof (split_items_no_sep ","%char s) as Hsep.
  rewrite Forall_forall in Hsep. apply list_elem_of_In, Hsep in Hx.
  split; [|split].
  - apply negb_true_iff in Hne. now apply String.eqb_neq.
  - apply trim_fixed.
  - unfold JS.trim. now apply trim_end_keeps, trim_start_keeps.
Qed.

End SplitJoin.

(** X14 (a list typed with commas).  The expression
    [s.split(',').map(x => x.trim()).filter(Boolean)], by which
    [handleGenerate] reads the chapters and the keywords and [handleSubmit]
    the tags, gives only items that are not empty, hold no comma and have no
    white space at either end; and it gives back, as they are, the items of
    such a list joined with [', ']. *)
Theorem comma_list_round_trip (s : string) :
  Forall QuestionForm.clean_tag (Generator.nonempty_items s) /\
  (forall items,
      Forall QuestionForm.clean_tag items ->
      Generator.nonempty_items (JS.join ", " items) = items) /\
  Generator.nonempty_items (JS.join ", " (Generator.nonempty_items s))
  = Generator.nonempty_items s.
Proof.
  pose proof (nonempty_items_clean s) as Hclean.
  split; [exact Hclean|]. split.
  - intros items. apply nonempty_items_joined.
  - now apply nonempty_items_joined.
Qed.

Lemma comma_list_round_trip_witness :
  Generator.nonempty_items (JS.join ", " ["Cell"; "Life processes"])
  = ["Cell"; "Life processes"].
Proof.
  apply (proj1 (proj2 (comma_list_round_trip "")) ["Cell"; "Life processes"]).
  repeat constructor; discriminate.
Defined.

(** X15 (an edit without change).  Submitting the form as the effect filled
    it from a question gives the question back: the same identifier, usage
    marks, source and tags and the same fields of the form, but for the
    answer, which a question without one gets as the empty string, and for
    an empty image, which is dropped.  The question has an identifier and
    its tags are as the form can give them back. *)
Theorem edit_without_change (q : Question) (now : string) :
  q_id q <> EmptyString ->
  Forall QuestionForm.clean_tag (q_tags q) ->
  QuestionForm.handleSubmit (fst (QuestionForm.fill q)) (snd (QuestionForm.fill q))
                            (Some q) now
  = {| q_id := q_id q; q_class := q_class q; q_chapter := q_chapter q;
       q_text := q_text q;
       q_answer := Some (QuestionForm.or_empty (q_answer q));
       q_marks := q_marks q; q_difficulty := q_difficulty q;
       q_usedIn := q_usedIn q; q_source := q_source q; q_year := q_year q;
       q_semester := q_semester q; q_tags := q_tags q;
       q_imageDataURL := QuestionForm.or_nothing (q_imageDataURL q) |}.
Proof.
  intros Hid Htags. unfold QuestionForm.handleSubmit, QuestionForm.fill. simpl.
  rewrite (nonempty_items_joined _ Htags).
  apply String.eqb_neq in Hid. rewrite Hid. f_equal.
  unfold QuestionForm.or_nothing.
  destruct (Exporter.truthy (q_imageDataURL q)) eqn:E; [now rewrite E | reflexivity].
Qed.

Lemma edit_without_change_witness :
  QuestionForm.handleSubmit (fst (QuestionForm.fill (mkq "a" 10 5 used_once)))
                            (snd (QuestionForm.fill (mkq "a" 10 5 used_once)))
                            (Some (mkq "a" 10 5 used_once)) "2025-06-01T00:00:00.000Z"
  = {| q_id := "a"; q_class := 10; q_chapter := ""; q_text := "a";
       q_answer := Some ""; q_marks := 5; q_difficulty := Moderate;
       q_usedIn := used_once; q_source := Manual; q_year := 2024;
       q_semester := First; q_tags := []; q_imageDataURL := None |}.
Proof.
  apply (edit_without_change (mkq "a" 10 5 used_once) "2025-06-01T00:00:00.000Z").
  - discriminate.
  - constructor.
Defined.

(** X16 (the title of an uploaded paper).  When no title is typed,
    [titleToUse] is the name of the file without its last extension; a name
    that has nothing before its last dot, or no dot at all, is used
    whole. *)
Theorem titleToUse_strips_extension (title : string) :
  JS.trim title = EmptyString ->
  (forall stem ext,
      QuestionForm.has_char "."%char ext = false ->
      Archive.titleToUse title (stem +:+ String "."%char ext)
      = if String.eqb stem "" then stem +:+ String "."%char ext else stem) /\
  (forall name,
      QuestionForm.has_char "."%char name = false ->
      Archive.titleToUse title name = name).
Proof.
  intros Ht. unfold Archive.titleToUse. rewrite Ht. simpl negb. cbv iota. split.
  - intros stem ext Hext. rewrite (split_last _ _ _ Hext).
    unfold Bank.slice0. change (-1 <? 0) with true. cbv iota.
    replace (Z.to_nat (Z.of_nat (length (JS.split "."%char stem ++ [ext])) + -1))
      with (length (JS.split "."%char stem)) by (rewrite length_app; simpl; lia).
    rewrite take_app_length, join_split.
    now destruct (String.eqb stem "").
  - intros name Hname. rewrite (split_no_sep _ _ Hname). reflexivity.
Qed.

Lemma titleToUse_strips_extension_witness :
  Archive.titleToUse "  " "half-yearly.2024.pdf" = "half-yearly.2024".
Proof.
  apply (proj1 (titleToUse_strips_extension "  " eq_refl) "half-yearly.2024" "pdf").
  reflexivity.
Defined.

(* ===================================================================== *)
(** * The AI path: what each request does, and what the loops keep        *)
(* ===================================================================== *)

Section OneRequest.
Import Run Generator Requests.

Lemma wp_generateQuestionsAI_counted o criteria existing pl s
      (Q : Res (list GeneratedItem) -> Store -> list Event -> Prop) :
  heap s !! existing = Some pl ->
  (forall s', heap s' = heap s -> ai_calls s' = S (ai_calls s) ->
     match ai_service o (ai_calls s) criteria pl with
     | Resolved batch => Q (Val batch) s' [AICall criteria pl (Resolved batch)]
     | Rejected e => Q (Exn e) s' [AICall criteria pl (Rejected e)]
     end) ->
  wp (generateQuestionsAI o criteria existing) s Q.
Proof.
  intros Hl HQ. unfold wp, generateQuestionsAI, result_of, store_of, events_of.
  rewrite Hl. simpl.
  specialize (HQ {| heap := heap s; ai_calls := S (ai_calls s) |} eq_refl eq_refl).
  destruct (ai_service o (ai_calls s) criteria pl); exact HQ.
Qed.

Lemma wp_filter_counted p l s (Q : Res nat -> Store -> list Event -> Prop) :
  (forall s' l',
      heap s !! l' = None ->
      heap s' !! l' = Some (List.filter p (default [] (heap s !! l))) ->
      (forall l0 b, heap s !! l0 = Some b -> heap s' !! l0 = Some b) ->
      ai_calls s' = ai_calls s ->
      Q (Val l') s' []) ->
  wp (arr_filter p l) s Q.
Proof.
  intros HQ. unfold arr_filter. apply wp_bind.
  change (wp (arr_new (List.filter p (default [] (heap s !! l)))) s
             (fun r2 s2 ev2 => Q r2 s2 ([] ++ ev2))).
  apply wp_new. intros s' l' H1 H2 H3 H4. now apply HQ.
Qed.

(** One request, exactly: it waits when [finalQuestions] is not empty,
    sends the criteria with the pool as it stands, and on an answer appends
    the questions made from it to both arrays. *)
Lemma wp_ai_request_exact c o aiChapters marks pool fq request acc pl s
      (Q : Res unit -> Store -> list Event -> Prop) :
  heap s !! fq = Some acc -> heap s !! pool = Some pl -> fq <> pool ->
  (forall s',
      heap s' !! fq
      = Some (acc ++ fresh_of c o aiChapters (ai_calls s) marks
                       (ai_service o (ai_calls s)
                          (criteria_for c o aiChapters (ai_calls s) marks request) pl)) ->
      heap s' !! pool
      = Some (pl ++ fresh_of c o aiChapters (ai_calls s) marks
                      (ai_service o (ai_calls s)
                         (criteria_for c o aiChapters (ai_calls s) marks request) pl)) ->
      ai_calls s' = S (ai_calls s) ->
      Q (match ai_service o (ai_calls s)
                 (criteria_for c o aiChapters (ai_calls s) marks request) pl with
         | Resolved _ => Val tt
         | Rejected e => Exn e
         end) s'
        (request_events acc (criteria_for c o aiChapters (ai_calls s) marks request) pl
           (ai_service o (ai_calls s)
              (criteria_for c o aiChapters (ai_calls s) marks request) pl))) ->
  wp (ai_request c o aiChapters marks pool fq request) s Q.
Proof.
  intros Hfq Hpool Hne HQ. unfold ai_request.
  apply wp_bind. eapply wp_length; [eassumption|].
  assert (Hwait : forall (Q' : Res unit -> Store -> list Event -> Prop),
             Q' (Val tt) s (if (0 <? length acc)%nat then [Timeout 1500] else []) ->
             wp (if (0 <? length acc)%nat then emit (Timeout 1500) else ret tt) s Q').
  { intros Q' H. destruct (0 <? length acc)%nat; [now apply wp_emit | now apply wp_ret]. }
  apply wp_bind, Hwait. apply wp_bind, wp_get_calls. apply wp_bind.
  eapply wp_generateQuestionsAI_counted; [eassumption|].
  intros s1 Hheap Hcalls.
  match goal with
  | |- match ai_service o ?n ?cr0 pl with _ => _ end =>
      change cr0 with (criteria_for c o aiChapters (ai_calls s) marks request)
  end.
  set (cr := criteria_for c o aiChapters (ai_calls s) marks request) in *.
  unfold request_events in HQ.
  destruct (ai_service o (ai_calls s) cr pl) as [batch|e] eqn:Hs; simpl in HQ.
  - destruct (0 <? length batch)%nat eqn:Hb.
    + apply wp_bind. eapply wp_push; [rewrite Hheap; eassumption|].
      intros s2 Hfq2 Hpres2 Hc2.
      eapply wp_push; [rewrite Hpres2, Hheap by congruence; eassumption|].
      intros s3 Hpool3 Hpres3 Hc3. simpl. rewrite ?app_nil_r.
      apply HQ; [rewrite Hpres3 by assumption; exact Hfq2 | exact Hpool3 | congruence].
    + apply wp_ret. simpl. rewrite ?app_nil_r.
      assert (batch = []) as -> by (destruct batch; [reflexivity | discriminate]).
      apply HQ; [| | exact Hcalls]; simpl; rewrite ?app_nil_r, Hheap; assumption.
  - simpl. rewrite ?app_nil_r.
    apply HQ; [| | exact Hcalls]; simpl; rewrite ?app_nil_r, Hheap; assumption.
Qed.

End OneRequest.

Section Loops.
Import Run Generator Requests.

Variables (c : Component) (o : Oracle) (aiChapters : list string).
Variable allowed : Z -> Partition.Request -> Prop.
Variable I : list (Z * Partition.Request) -> list Question -> list Question ->
             nat -> list Event -> Prop.

Hypothesis I_step :
  forall done acc pl call ev marks request,
    allowed marks request ->
    I done acc pl call ev ->
    I (done ++ [(marks, request)])
      (acc ++ fresh_of c o aiChapters call marks
                (ai_service o call (criteria_for c o aiChapters call marks request) pl))
      (pl ++ fresh_of c o aiChapters call marks
               (ai_service o call (criteria_for c o aiChapters call marks request) pl))
      (S call)
      (ev ++ request_events acc (criteria_for c o aiChapters call marks request) pl
               (ai_service o call (criteria_for c o aiChapters call marks request) pl)).

Lemma rejected_last_after (e : Thrown) (pre ev : list Event) :
  rejected_last e ev -> rejected_last e (pre ++ ev).
Proof.
  intros (pre' & cr & pl & ->). exists (pre ++ pre'), cr, pl. now rewrite app_assoc.
Qed.

Lemma wp_requests_inv marks pool fq (requests : list Partition.Request) :
  fq <> pool ->
  Forall (allowed marks) requests ->
  forall done acc pl s ev0 (Q : Res unit -> Store -> list Event -> Prop),
    heap s !! fq = Some acc -> heap s !! pool = Some pl ->
    I done acc pl (ai_calls s) ev0 ->
    (forall res s' ev done' acc' pl',
        heap s' !! fq = Some acc' -> heap s' !! pool = Some pl' ->
        I done' acc' pl' (ai_calls s') (ev0 ++ ev) ->
        (res = Val tt -> done' = done ++ map (pair marks) requests) ->
        (forall e, res = Exn e -> rejected_last e ev) ->
        Q res s' ev) ->
    wp (for_each requests (ai_request c o aiChapters marks pool fq)) s Q.
Proof.
  intros Hne Hall.
  induction Hall as [|request rest Hreq _ IH]; intros done acc pl s ev0 Q Hfq Hpool HI HQ;
    simpl.
  - apply wp_ret. apply (HQ _ _ _ done acc pl); try assumption.
    + now rewrite app_nil_r.
    + intros _. now rewrite app_nil_r.
    + discriminate.
  - apply wp_bind. eapply wp_ai_request_exact; [eassumption | eassumption | assumption |].
    intros s1 Hfq1 Hpool1 Hc1.
    pose proof (I_step _ _ _ _ _ marks request Hreq HI) as HI1.
    set (cr := criteria_for c o aiChapters (ai_calls s) marks request) in *.
    destruct (ai_service o (ai_calls s) cr pl) as [batch|e] eqn:Hs.
    + rewrite <- Hc1 in HI1.
      eapply IH; [exact Hfq1 | exact Hpool1 | exact HI1 |].
      intros res s2 ev2 done2 acc2 pl2 Hfq2 Hpool2 HI2 Hdone Hrej.
      apply (HQ _ _ _ done2 acc2 pl2); try assumption.
      * now rewrite app_assoc.
      * intros Hres. rewrite (Hdone Hres), <- app_assoc. reflexivity.
      * intros e He. now apply rejected_last_after, Hrej.
    + rewrite <- Hc1 in HI1.
      apply (HQ _ _ _ _ _ _ Hfq1 Hpool1 HI1); [discriminate|].
      intros e' [= <-]. unfold request_events.
      exists (if (0 <? length acc)%nat then [Timeout 1500] else []), cr, pl. reflexivity.
Qed.

Lemma wp_groups_inv pool fq (d : Distribution) :
  fq <> pool ->
  Forall (fun '(count, marks) =>
            Forall (allowed marks) (Partition.group_requests (settings c) count)) d ->
  forall done acc pl s ev0 (Q : Res unit -> Store -> list Event -> Prop),
    heap s !! fq = Some acc -> heap s !! pool = Some pl ->
    I done acc pl (ai_calls s) ev0 ->
    (forall res s' ev done' acc' pl',
        heap s' !! fq = Some acc' -> heap s' !! pool = Some pl' ->
        I done' acc' pl' (ai_calls s') (ev0 ++ ev) ->
        (res = Val tt -> done' = done ++ all_requests (settings c) d) ->
        (forall e, res = Exn e -> rejected_last e ev) ->
        Q res s' ev) ->
    wp (for_each d (fun '(count, marks) =>
          for_each (Partition.group_requests (settings c) count)
                   (ai_request c o aiChapters marks pool fq))) s Q.
Proof.
  intros Hne Hall.
  induction Hall as [|[count marks] rest Hgroup _ IH];
    intros done acc pl s ev0 Q Hfq Hpool HI HQ; simpl.
  - apply wp_ret. apply (HQ _ _ _ done acc pl); try assumption.
    + now rewrite app_nil_r.
    + intros _. now rewrite app_nil_r.
    + discriminate.
  - apply wp_bind.
    eapply (wp_requests_inv marks pool fq _ Hne Hgroup); [eassumption | eassumption | exact HI |].
    intros res s1 ev1 done1 acc1 pl1 Hfq1 Hpool1 HI1 Hdone1 Hrej1.
    destruct res as [[]|e].
    + eapply IH; [exact Hfq1 | exact Hpool1 | exact HI1 |].
      intros res s2 ev2 done2 acc2 pl2 Hfq2 Hpool2 HI2 Hdone2 Hrej2.
      apply (HQ _ _ _ done2 acc2 pl2); try assumption.
      * now rewrite app_assoc.
      * intros Hres. rewrite (Hdone2 Hres), (Hdone1 eq_refl), <- app_assoc. reflexivity.
      * intros e He. now apply rejected_last_after, Hrej2.
    + apply (HQ _ _ _ done1 acc1 pl1); try assumption. discriminate.
Qed.

(** The body of the inner [try], under an invariant of its requests. *)
Lemma ai_try_inv (d : Distribution) (s : Store) :
  nonempty_items (aiChapter (settings c)) = aiChapters ->
  aiChapters <> [] ->
  Forall (fun '(count, marks) =>
            Forall (allowed marks) (Partition.group_requests (settings c) count)) d ->
  I [] [] (initial_pool c (default [] (heap s !! questions c))) (ai_calls s) [] ->
  exists done acc pl call ev,
    I done acc pl call ev /\
    ((result_of (ai_try c o d s) = Val tt /\
      done = all_requests (settings c) d /\
      events_of (ai_try c o d s)
      = ev ++ [SetGeneratedPaper (Some (paper_of c o acc Generated))]) \/
     (exists e, result_of (ai_try c o d s) = Exn e /\
                events_of (ai_try c o d s) = ev /\ rejected_last e ev)).
Proof.
  intros Hch Hne Hall HI.
  change (wp (ai_try c o d) s
             (fun res _ evs =>
                exists done acc pl call ev,
                  I done acc pl call ev /\
                  ((res = Val tt /\ done = all_requests (settings c) d /\
                    evs = ev ++ [SetGeneratedPaper (Some (paper_of c o acc Generated))]) \/
                   (exists e, res = Exn e /\ evs = ev /\ rejected_last e ev)))).
  unfold ai_try, showToast. rewrite Hch.
  destruct (length aiChapters =? 0)%nat eqn:E.
  { apply length_eqb_0 in E. contradiction. }
  apply wp_bind, wp_filter_counted. intros s1 pool Hfresh1 Hpool Hpres1 Hc1.
  apply wp_bind, wp_new. intros s2 fq Hfresh2 Hfq Hpres2 Hc2.
  apply wp_bind.
  eapply (wp_groups_inv pool fq d) with (done := []) (acc := []) (ev0 := []);
    [intros ->; congruence | exact Hall | exact Hfq | apply Hpres2; exact Hpool | |].
  { rewrite Hc2, Hc1. exact HI. }
  intros res s3 ev done' acc' pl' Hfq3 Hpool3 HI3 Hdone Hrej. simpl in HI3.
  destruct res as [[]|e].
  - unfold createPaper. apply wp_bind, wp_bind.
    eapply wp_read; [eassumption|]. apply wp_ret. apply wp_emit. simpl.
    exists done', acc', pl', (ai_calls s3), ev. split; [exact HI3|]. left.
    repeat split. now rewrite (Hdone eq_refl).
  - simpl. exists done', acc', pl', (ai_calls s3), ev. split; [exact HI3|]. right.
    exists e. repeat split. now apply Hrej.
Qed.

End Loops.

(* ===================================================================== *)
(** * The AI path: the requests sent and the paper made                   *)
(* ===================================================================== *)

Section RequestsOfARun.
Import Run Generator Requests.

Lemma chapter_for_In o aiChapters call :
  aiChapters <> [] -> In (chapter_for o aiChapters call) aiChapters.
Proof.
  intros Hne. unfold chapter_for. apply nth_In, random_index_lt.
  destruct aiChapters; [contradiction | simpl; lia].
Qed.

Lemma sumZ_bound (l : list Z) (x : Z) :
  Forall (fun c => 0 <= c) l -> In x l -> x <= Solver.sumZ l.
Proof.
  induction 1 as [|c r Hc Hr IH]; simpl; [tauto|].
  assert (0 <= Solver.sumZ r).
  { clear IH. induction Hr as [|c' r' Hc' _ IH']; simpl; lia. }
  intros [->|Hin]; [lia | specialize (IH Hin); lia].
Qed.

(** The requests of a group: each asks for a positive count and names one
    of the selected types. *)
Lemma requestsToMake_In count types request :
  0 < count -> types <> [] ->
  In request (Partition.requestsToMake count types) ->
  0 < Partition.r_count request /\
  exists ty, Partition.r_type request = Some ty /\ In ty types.
Proof.
  intros Hc Hne. unfold Partition.requestsToMake.
  destruct (length types <=? 1)%nat.
  - intros [<-|[]]. simpl. split; [assumption|].
    destruct types as [|ty r]; [contradiction|]. exists ty. split; [reflexivity | now left].
  - intros Hin. apply in_flat_map in Hin as (i & Hi & Hin).
    apply in_seq in Hi.
    destruct (Z.gtb_spec (Partition.subCount count (Z.of_nat (length types)) i) 0);
      [|contradiction].
    destruct Hin as [<-|[]]. simpl. split; [lia|].
    destruct (lookup_lt_is_Some_2 types i ltac:(lia)) as [ty Hty].
    exists ty. split; [assumption|]. eapply list_elem_of_In, list_elem_of_lookup_2, Hty.
Qed.

Lemma group_requests_shares s count :
  0 <= count ->
  Partition.group_requests s count
  = Partition.requests_of_shares
      (Partition.even_split count (length (Partition.selectedTypes s)))
      (Partition.selectedTypes s).
Proof.
  intros Hc. pose proof (selectedTypes_nonempty s) as Hne.
  unfold Partition.group_requests. destruct (Z.leb_spec count 0).
  - assert (count = 0) as -> by lia. now rewrite zero_shares_no_request.
  - destruct (Partition.selectedTypes s) as [|ty [|ty2 r]] eqn:E.
    + contradiction.
    + unfold Partition.requestsToMake, Partition.requests_of_shares,
        Partition.even_split. simpl.
      rewrite Z.div_1_r, Z.mod_1_r. simpl.
      replace (count + 0) with count by lia.
      destruct (Z.gtb_spec count 0); [reflexivity | lia].
    + apply requestsToMake_many; [lia | simpl; lia].
Qed.

Lemma group_requests_sum s count :
  0 <= count ->
  Solver.sumZ (map Partition.r_count (Partition.group_requests s count)) = count.
Proof.
  intros Hc. pose proof (selectedTypes_nonempty s) as Hne.
  rewrite (group_requests_shares s count Hc), requests_of_shares_sum.
  - apply even_split_sum; [assumption|].
    destruct (Partition.selectedTypes s); [contradiction | simpl; lia].
  - now apply even_split_nonneg.
  - apply even_split_length.
Qed.

Lemma group_requests_In s count request :
  In request (Partition.group_requests s count) ->
  0 < count /\ 0 < Partition.r_count request <= count /\
  exists ty, Partition.r_type request = Some ty /\ In ty (Partition.selectedTypes s).
Proof.
  intros Hin. pose proof Hin as Hin'. unfold Partition.group_requests in Hin.
  destruct (Z.leb_spec count 0); [contradiction|]. split; [assumption|].
  destruct (requestsToMake_In _ _ _ H (selectedTypes_nonempty s) Hin) as (Hpos & Hty).
  split; [|exact Hty]. split; [assumption|].
  rewrite <- (group_requests_sum s count) by lia.
  apply sumZ_bound; [|now apply in_map].
  apply Forall_forall. intros x Hx. apply list_elem_of_In, in_map_iff in Hx as (rq & <- & Hrq).
  unfold Partition.group_requests in Hrq.
  destruct (Z.leb_spec count 0); [contradiction|].
  destruct (requestsToMake_In _ _ _ H (selectedTypes_nonempty s) Hrq). lia.
Qed.

End RequestsOfARun.

Section BranchEvents.
Import Run Generator Requests.

Lemma all_from_a_group s d :
  Forall (fun '(count, marks) =>
            Forall (from_a_group s d marks) (Partition.group_requests s count)) d.
Proof.
  apply Forall_forall. intros [count marks] Hin. apply list_elem_of_In in Hin.
  apply Forall_forall. intros request Hr. apply list_elem_of_In in Hr.
  exists count. split; assumption.
Qed.

(** The events of the branch: those of the [try], then those of the
    [catch] when the [try] throws. *)
Lemma ai_branch_events c o d s :
  events_of (ai_branch c o d s)
  = events_of (ai_try c o d s) ++
    match result_of (ai_try c o d s) with
    | Val _ => []
    | Exn e => events_of (ai_catch c o d e (store_of (ai_try c o d s)))
    end.
Proof.
  unfold ai_branch, try_catch, events_of, result_of, store_of.
  destruct (ai_try c o d s) as [[[u|e] s1] ev1]; simpl; [now rewrite app_nil_r|].
  now destruct (ai_catch c o d e s1) as [[r2 s2] ev2].
Qed.

Lemma ai_branch_result c o d s :
  result_of (ai_try c o d s) = Val tt -> result_of (ai_branch c o d s) = Val tt.
Proof.
  unfold ai_branch, try_catch, result_of.
  destruct (ai_try c o d s) as [[[u|e] s1] ev1]; simpl; [auto | discriminate].
Qed.

Lemma wp_createPaper c o qs source s (Q : Res Paper -> Store -> list Event -> Prop) :
  (forall content, Q (Val (paper_of c o content source)) s []) ->
  wp (createPaper c o qs source) s Q.
Proof. intros HQ. apply HQ. Qed.

(** A paper shown by the [catch] clause is made of bank questions. *)
Lemma ai_catch_papers c o d e s paper :
  In (SetGeneratedPaper (Some paper)) (events_of (ai_catch c o d e s)) ->
  p_source paper = Manual.
Proof.
  revert paper.
  change (wp (ai_catch c o d e) s
             (fun _ _ ev => forall paper,
                  In (SetGeneratedPaper (Some paper)) ev -> p_source paper = Manual)).
  unfold ai_catch, showToast, isQuotaError.
  apply wp_bind, wp_emit. apply wp_bind.
  destruct e as [|v].
  { apply wp_throw. intros paper [H|[]]. discriminate. }
  apply wp_ret. apply wp_bind.
  assert (Htoast : forall (Q' : Res unit -> Store -> list Event -> Prop),
             (forall m, Q' (Val tt) s [ShowToast m error]) ->
             wp (if quota_view o v
                 then emit (ShowToast (Tr "apiQuotaError" (lang c)) error)
                 else emit (ShowToast (Tr "apiError" (lang c)) error)) s Q').
  { intros Q' H. destruct (quota_view o v); apply wp_emit, H. }
  apply Htoast. intros m. apply wp_bind, wp_emit.
  apply wp_bind, wp_silent; [apply silent_generateFromBank|].
  intros [[err|qs]|e] s1; simpl.
  - apply wp_emit. intros paper H. simpl in H. intuition discriminate.
  - apply wp_bind, wp_createPaper. intros content.
    apply wp_bind, wp_emit. apply wp_emit. intros paper H. simpl in H.
    destruct H as [H|[H|[H|[H|[H|[]]]]]]; try discriminate.
    now injection H as <-.
  - intros paper H. simpl in H. intuition discriminate.
Qed.

Lemma ai_catch_no_request c o d e s cr pl r :
  ~ In (AICall cr pl r) (events_of (ai_catch c o d e s)).
Proof.
  intros Hin. pose proof (ai_catch_neutral c o d e s) as Hn.
  rewrite forallb_forall in Hn. apply Hn in Hin. discriminate.
Qed.

Lemma ai_try_no_chapter c o d s :
  nonempty_items (aiChapter (settings c)) = [] ->
  ai_try c o d s
  = (Val tt, s, [ShowToast (Lit "Please provide at least one chapter for AI generation.")
                           error]).
Proof. intros H. unfold ai_try. rewrite H. reflexivity. Qed.

Lemma fresh_generated c o aiChapters d call marks r q :
  aiChapters <> [] ->
  (exists count, In (count, marks) d /\ 0 < count) ->
  In q (fresh_of c o aiChapters call marks r) ->
  generated_for c aiChapters d q.
Proof.
  intros Hne Hmarks Hin. destruct r as [batch|e]; [|contradiction].
  simpl in Hin. unfold newQuestions in Hin.
  apply list_elem_of_In, elem_of_lookup_imap_1 in Hin as (j & g & -> & _).
  unfold generated_for. simpl. repeat split; try reflexivity.
  - now apply chapter_for_In.
  - exact Hmarks.
Qed.

End BranchEvents.

(** X17 (what a generated paper holds).  A paper shown by the AI branch with
    the source [Generated] is made only of questions of the selected class,
    never used, of source [Generated], each worth the marks of a group of
    the distribution that asks for at least one question, in a chapter of
    the chapter field, with the difficulty, the year and the semester of the
    form and the keywords as tags. *)
Theorem generated_paper_is_well_formed
    (c : Component) (o : Oracle) (d : Distribution) (s : Run.Store) (paper : Paper) :
  In (SetGeneratedPaper (Some paper)) (Run.events_of (Generator.ai_branch c o d s)) ->
  p_source paper = Generated ->
  Forall (Requests.generated_for c (Generator.nonempty_items (aiChapter (settings c))) d)
         (p_questions paper) /\
  p_class paper = selectedClass c /\ p_year paper = year c /\
  p_semester paper = semester c.
Proof.
  intros Hin Hsrc. rewrite ai_branch_events in Hin.
  destruct (Generator.nonempty_items (aiChapter (settings c))) as [|ch chs] eqn:Hch.
  { rewrite (ai_try_no_chapter c o d s Hch) in Hin. simpl in Hin.
    destruct Hin as [Hin|[]]. discriminate. }
  destruct (ai_try_inv c o (ch :: chs) (Requests.from_a_group (settings c) d)
              (fun _ acc _ _ ev =>
                 Forall (Requests.generated_for c (ch :: chs) d) acc /\
                 forall p, ~ In (SetGeneratedPaper p) ev)) with (d := d) (s := s)
    as (done & acc & pl & call & ev & [Hacc Hev] & Hrun).
  - intros done acc pl call ev marks request (count & Hcount & Hreq) [Hacc Hev].
    split.
    + apply Forall_app. split; [assumption|].
      apply Forall_forall. intros q Hq. apply list_elem_of_In in Hq.
      eapply fresh_generated; [discriminate | | exact Hq].
      exists count. split; [assumption|].
      now destruct (group_requests_In _ _ _ Hreq).
    + intros p Hp. apply in_app_or in Hp as [Hp|Hp]; [now apply (Hev p)|].
      unfold Requests.request_events in Hp.
      apply in_app_or in Hp as [Hp|[Hp|[]]]; [|discriminate].
      destruct (0 <? length acc)%nat; [|contradiction].
      destruct Hp as [Hp|[]]. discriminate.
  - exact Hch.
  - discriminate.
  - apply all_from_a_group.
  - split; [constructor | tauto].
  - destruct Hrun as [(Hres & _ & Hevs)|(e & Hres & Hevs & _)];
      rewrite Hres, Hevs in Hin.
    + rewrite app_nil_r in Hin. apply in_app_or in Hin as [Hin|[Hin|[]]].
      * now apply Hev in Hin.
      * injection Hin as <-. simpl. auto.
    + apply in_app_or in Hin as [Hin|Hin]; [now apply Hev in Hin|].
      apply ai_catch_papers in Hin. congruence.
Qed.

Lemma generated_paper_is_well_formed_witness :
  Forall (Requests.generated_for (demo_component (ai_settings "2x5" "Cell" []))
            (Generator.nonempty_items "Cell") [(2, 5)])
         (Generator.newQuestions (demo_component (ai_settings "2x5" "Cell" []))
            (oracle_with ai_one) 0 "Cell" 5 [one_item]).
Proof.
  refine (proj1 (generated_paper_is_well_formed
                   (demo_component (ai_settings "2x5" "Cell" [])) (oracle_with ai_one)
                   [(2, 5)] demo_store
                   (Generator.paper_of (demo_component (ai_settings "2x5" "Cell" []))
                      (oracle_with ai_one)
                      (Generator.newQuestions (demo_component (ai_settings "2x5" "Cell" []))
                         (oracle_with ai_one) 0 "Cell" 5 [one_item])
                      Generated) _ _)).
  - vm_compute. right. left. reflexivity.
  - reflexivity.
Defined.

(** X18 (what a request asks).  Every request that the AI branch sends to
    the service is for the selected class and for a chapter of the chapter
    field; it asks for a positive number of questions, at most the count of
    a group of the distribution, worth the marks of that group; it names one
    of the selected types, or the short answer when none is selected; and it
    carries the difficulty, the keywords, the answers checkbox, the syllabus
    switch and the language of the form. *)
Theorem requests_follow_the_settings
    (c : Component) (o : Oracle) (d : Distribution) (s : Run.Store)
    (cr : Criteria) (existing : list Question) (r : AIResult) :
  In (AICall cr existing r) (Run.events_of (Generator.ai_branch c o d s)) ->
  Requests.criteria_follow c (Generator.nonempty_items (aiChapter (settings c))) d cr.
Proof.
  intros Hin. rewrite ai_branch_events in Hin.
  destruct (Generator.nonempty_items (aiChapter (settings c))) as [|ch chs] eqn:Hch.
  { rewrite (ai_try_no_chapter c o d s Hch) in Hin. simpl in Hin.
    destruct Hin as [Hin|[]]. discriminate. }
  destruct (ai_try_inv c o (ch :: chs) (Requests.from_a_group (settings c) d)
              (fun _ _ _ _ ev =>
                 forall cr' pl' r',
                   In (AICall cr' pl' r') ev ->
                   Requests.criteria_follow c (ch :: chs) d cr')) with (d := d) (s := s)
    as (done & acc & pl & call & ev & Hev & Hrun).
  - intros done acc pl call ev marks request (count & Hcount & Hreq) Hev cr' pl' r' Hin'.
    apply in_app_or in Hin' as [Hin'|Hin']; [now apply (Hev cr' pl' r')|].
    unfold Requests.request_events in Hin'.
    apply in_app_or in Hin' as [Hin'|[Hin'|[]]].
    + destruct (0 <? length acc)%nat; [|contradiction].
      destruct Hin' as [Hin'|[]]. discriminate.
    + injection Hin' as <- _ _.
      destruct (group_requests_In _ _ _ Hreq) as (_ & Hrc & Hty).
      unfold Requests.criteria_follow. simpl. repeat split; try reflexivity.
      * apply (chapter_for_In o (ch :: chs) call). discriminate.
      * exists count. split; [assumption | exact Hrc].
      * exact Hty.
  - exact Hch.
  - discriminate.
  - apply all_from_a_group.
  - intros cr' pl' r' [].
  - destruct Hrun as [(Hres & _ & Hevs)|(e & Hres & Hevs & _)];
      rewrite Hres, Hevs in Hin.
    + rewrite app_nil_r in Hin. apply in_app_or in Hin as [Hin|[Hin|[]]].
      * now apply Hev in Hin.
      * discriminate.
    + apply in_app_or in Hin as [Hin|Hin]; [now apply Hev in Hin|].
      now apply ai_catch_no_request in Hin.
Qed.

Lemma requests_follow_the_settings_witness :
  Requests.criteria_follow (demo_component (ai_settings "2x5" "Cell" [])) ["Cell"] [(2, 5)]
    (Requests.criteria_for (demo_component (ai_settings "2x5" "Cell" []))
       (oracle_with ai_one) ["Cell"] 0 5
       {| Partition.r_count := 2; Partition.r_type := Some "Short Answer" |}).
Proof.
  refine (requests_follow_the_settings
            (demo_component (ai_settings "2x5" "Cell" [])) (oracle_with ai_one)
            [(2, 5)] demo_store _ (Requests.initial_pool
                                     (demo_component (ai_settings "2x5" "Cell" []))
                                     demo_bank)
            (Resolved [one_item]) _).
  vm_compute. left. reflexivity.
Defined.

(* ===================================================================== *)
(** * The AI path: counts honoured, and the pool handed to each request   *)
(* ===================================================================== *)

Section MarksOfBatches.
Import Run Generator Requests.

Lemma imap_marks (marks : Z) (l : list GeneratedItem) :
  forall f : nat -> GeneratedItem -> Question,
    (forall j g, q_marks (f j g) = marks) ->
    map q_marks (imap f l) = replicate (length l) marks.
Proof.
  induction l as [|g l IH]; intros f Hf; [reflexivity|].
  simpl. rewrite Hf. f_equal. apply IH. intros j g'. apply Hf.
Qed.

Lemma newQuestions_marks c o call chapter marks batch :
  map q_marks (newQuestions c o call chapter marks batch)
  = replicate (length batch) marks.
Proof. unfold newQuestions. now apply imap_marks. Qed.

Lemma requests_replicate (marks : Z) (l : list Partition.Request) :
  Forall (fun rq => 0 <= Partition.r_count rq) l ->
  flat_map (fun '((m, rq) : Z * Partition.Request) =>
              replicate (Z.to_nat (Partition.r_count rq)) m)
           (map (pair marks) l)
  = replicate (Z.to_nat (Solver.sumZ (map Partition.r_count l))) marks.
Proof.
  induction 1 as [|rq l Hrq Hl IH]; simpl; [reflexivity|].
  assert (0 <= Solver.sumZ (map Partition.r_count l)).
  { clear IH. induction Hl as [|rq' l' Hrq' _ IH']; simpl; lia. }
  rewrite IH, Z2Nat.inj_add, replicate_add by assumption. reflexivity.
Qed.

Lemma group_replicate s count marks :
  flat_map (fun '((m, rq) : Z * Partition.Request) =>
              replicate (Z.to_nat (Partition.r_count rq)) m)
           (map (pair marks) (Partition.group_requests s count))
  = replicate (Z.to_nat count) marks.
Proof.
  rewrite requests_replicate.
  - destruct (Z.leb_spec count 0) as [Hle|Hgt].
    + unfold Partition.group_requests. apply Z.leb_le in Hle. rewrite Hle. simpl.
      apply Z.leb_le in Hle. now replace (Z.to_nat count) with 0%nat by lia.
    + rewrite group_requests_sum by lia. reflexivity.
  - apply Forall_forall. intros rq Hrq. apply list_elem_of_In in Hrq.
    apply group_requests_In in Hrq. lia.
Qed.

Lemma all_requests_replicate s d :
  flat_map (fun '((m, rq) : Z * Partition.Request) =>
              replicate (Z.to_nat (Partition.r_count rq)) m)
           (all_requests s d)
  = flat_map (fun '((count, marks) : Z * Z) => replicate (Z.to_nat count) marks) d.
Proof.
  unfold all_requests. induction d as [|[count marks] rest IH]; [reflexivity|].
  simpl. rewrite flat_map_app, IH, group_replicate. reflexivity.
Qed.

Lemma sum_replicate (n : nat) (x : Z) :
  Solver.sumZ (replicate n x) = Z.of_nat n * x.
Proof. induction n as [|n IH]; simpl replicate; simpl Solver.sumZ; lia. Qed.

Lemma marks_total d :
  nonneg_counts d ->
  Solver.sumZ (flat_map (fun '((count, marks) : Z * Z) => replicate (Z.to_nat count) marks) d)
  = total_of d.
Proof.
  induction 1 as [|[count marks] rest Hc _ IH]; [reflexivity|].
  simpl in *. rewrite sumZ_app, IH, sum_replicate, Z2Nat.id by assumption.
  unfold total_of. lia.
Qed.

Lemma all_resolved_app ev1 ev2 :
  all_resolved ev1 -> all_resolved ev2 -> all_resolved (ev1 ++ ev2).
Proof. intros H1 H2. apply Forall_app. now split. Qed.

Lemma resolved_not_rejected e ev : all_resolved ev -> ~ rejected_last e ev.
Proof.
  intros Hall (pre & cr & pl & ->). unfold all_resolved in Hall.
  apply Forall_app in Hall as [_ Hall]. inversion Hall as [|? ? Hx _]; subst.
  exact Hx.
Qed.

End MarksOfBatches.

(** X19 (a service that honours the counts).  When the chapter field holds
    a chapter and the service answers every request of a positive count with
    exactly as many questions as asked, the AI branch ends with a generated
    paper whose questions are, group after group in the order of the
    distribution, [count] questions worth [marks]; with counts that are not
    negative their marks add up to the total of the distribution. *)
Theorem honoured_counts_fill_the_distribution
    (c : Component) (o : Oracle) (d : Distribution) (s : Run.Store) :
  Generator.nonempty_items (aiChapter (settings c)) <> [] ->
  (forall call cr pl,
      0 < c_count cr ->
      exists batch, ai_service o call cr pl = Resolved batch /\
                    Z.of_nat (length batch) = c_count cr) ->
  exists ev paper,
    Run.events_of (Generator.ai_branch c o d s) = ev ++ [SetGeneratedPaper (Some paper)] /\
    p_source paper = Generated /\
    map q_marks (p_questions paper)
    = flat_map (fun '((count, marks) : Z * Z) => replicate (Z.to_nat count) marks) d /\
    (nonneg_counts d -> Solver.sumZ (map q_marks (p_questions paper)) = total_of d).
Proof.
  intros Hch Hhon.
  destruct (ai_try_inv c o (Generator.nonempty_items (aiChapter (settings c)))
              (Requests.from_a_group (settings c) d)
              (fun done acc _ _ ev =>
                 map q_marks acc
                 = flat_map (fun '((m, rq) : Z * Partition.Request) =>
              replicate (Z.to_nat (Partition.r_count rq)) m)
                            done /\
                 Requests.all_resolved ev)) with (d := d) (s := s)
    as (done & acc & pl & call & ev & [Hacc Hev] & Hrun).
  - intros done acc pl call ev marks request (count & Hcount & Hreq) [Hacc Hev].
    destruct (group_requests_In _ _ _ Hreq) as (_ & Hrc & _).
    destruct (Hhon call (Requests.criteria_for c o
                           (Generator.nonempty_items (aiChapter (settings c)))
                           call marks request) pl) as (batch & Hs & Hlen);
      [simpl; lia|].
    rewrite Hs. simpl in Hlen. split.
    + rewrite map_app, flat_map_app, Hacc. f_equal. simpl.
      rewrite newQuestions_marks, app_nil_r. f_equal. lia.
    + apply all_resolved_app; [assumption|]. unfold Requests.request_events.
      apply all_resolved_app; [|repeat constructor].
      destruct (0 <? length acc)%nat; repeat constructor.
  - reflexivity.
  - exact Hch.
  - apply all_from_a_group.
  - split; [reflexivity | constructor].
  - destruct Hrun as [(Hres & -> & Hevs)|(e & _ & _ & Hrej)].
    + exists ev, (Generator.paper_of c o acc Generated).
      rewrite ai_branch_events, Hres, Hevs, app_nil_r. split; [reflexivity|].
      split; [reflexivity|]. simpl. rewrite Hacc, all_requests_replicate.
      split; [reflexivity|]. apply marks_total.
    + exfalso. eapply resolved_not_rejected; eassumption.
Qed.

Lemma honoured_counts_fill_the_distribution_witness :
  exists ev paper,
    Run.events_of
      (Generator.ai_branch (demo_component (ai_settings "7x2" "Cell" three_types))
         (oracle_with ai_exact) [(7, 2)] demo_store)
    = ev ++ [SetGeneratedPaper (Some paper)] /\
    p_source paper = Generated /\
    map q_marks (p_questions paper) = [2; 2; 2; 2; 2; 2; 2] /\
    (nonneg_counts [(7, 2)] -> Solver.sumZ (map q_marks (p_questions paper)) = 14).
Proof.
  apply (honoured_counts_fill_the_distribution
           (demo_component (ai_settings "7x2" "Cell" three_types))
           (oracle_with ai_exact) [(7, 2)] demo_store).
  - vm_compute. discriminate.
  - intros call cr pl Hpos. eexists. split; [reflexivity|].
    rewrite length_replicate. lia.
Defined.

Section PoolOfARequest.
Import Run Generator Requests.

Lemma produced_count_app ev1 ev2 :
  produced_count (ev1 ++ ev2) = (produced_count ev1 + produced_count ev2)%nat.
Proof.
  induction ev1 as [|e r IH]; simpl; [reflexivity|].
  destruct e; rewrite IH; lia.
Qed.

Lemma pools_grow_app pool0 qs ev1 :
  forall n ev2,
    pools_grow pool0 qs n (ev1 ++ ev2) <->
    pools_grow pool0 qs n ev1 /\
    pools_grow pool0 qs (n + produced_count ev1) ev2.
Proof.
  induction ev1 as [|e r IH]; intros n ev2; simpl.
  - rewrite Nat.add_0_r. tauto.
  - destruct e; rewrite ?IH; try tauto.
    rewrite Nat.add_assoc. tauto.
Qed.

Lemma pools_grow_more pool0 qs more ev :
  forall n,
    (n + produced_count ev <= length qs)%nat ->
    pools_grow pool0 qs n ev -> pools_grow pool0 (qs ++ more) n ev.
Proof.
  induction ev as [|e r IH]; intros n Hn; simpl; [tauto|].
  destruct e; simpl in Hn; try (apply IH; exact Hn).
  intros [-> Hr]. split.
  - rewrite take_app_le by lia. reflexivity.
  - apply IH; [lia | exact Hr].
Qed.

Lemma neutral_no_pool pool0 qs n ev :
  forallb Delay.neutral ev = true ->
  pools_grow pool0 qs n ev /\ produced_count ev = 0%nat.
Proof.
  revert n. induction ev as [|e r IH]; intros n; simpl; [tauto|].
  intros H. apply andb_true_iff in H as [He Hr].
  destruct e; try discriminate; apply IH, Hr.
Qed.

Lemma fresh_length c o aiChapters call marks r :
  length (fresh_of c o aiChapters call marks r) = batch_size r.
Proof. destruct r; simpl; [apply newQuestions_length | reflexivity]. Qed.

End PoolOfARequest.

(** X20 (each request sees the questions made so far).  In a run of the AI
    branch there is a list of questions of which every request is handed,
    after the questions of the bank of the selected class (the unused ones
    when previous questions are avoided), exactly the first ones: as many as
    the earlier requests of the run produced.  The list has as many questions
    as all the requests produced, and it is the content of the generated
    paper when one is shown. *)
Theorem requests_see_earlier_questions
    (c : Component) (o : Oracle) (d : Distribution) (s : Run.Store)
    (bank : list Question) :
  Run.heap s !! questions c = Some bank ->
  exists qs,
    Requests.pools_grow (Requests.initial_pool c bank) qs 0
                        (Run.events_of (Generator.ai_branch c o d s)) /\
    Requests.produced_count (Run.events_of (Generator.ai_branch c o d s)) = length qs /\
    (forall paper,
        In (SetGeneratedPaper (Some paper)) (Run.events_of (Generator.ai_branch c o d s)) ->
        p_source paper = Generated -> p_questions paper = qs).
Proof.
  intros Hbank. rewrite ai_branch_events.
  destruct (Generator.nonempty_items (aiChapter (settings c))) as [|ch chs] eqn:Hch.
  { rewrite (ai_try_no_chapter c o d s Hch). exists []. simpl. repeat split.
    intros paper [H|[]]. discriminate. }
  destruct (ai_try_inv c o (ch :: chs) (fun _ _ => True)
              (fun _ acc pl _ ev =>
                 pl = Requests.initial_pool c bank ++ acc /\
                 Requests.produced_count ev = length acc /\
                 Requests.pools_grow (Requests.initial_pool c bank) acc 0 ev /\
                 forall p, ~ In (SetGeneratedPaper p) ev)) with (d := d) (s := s)
    as (done & acc & pl & call & ev & (Hpl & Hcount & Hgrow & Hnop) & Hrun).
  - intros done acc pl call ev marks request _ (-> & Hcount & Hgrow & Hnop).
    set (cr := Requests.criteria_for c o (ch :: chs) call marks request).
    set (r := ai_service o call cr (Requests.initial_pool c bank ++ acc)).
    assert (Hre : Requests.produced_count
                    (Requests.request_events acc cr
                       (Requests.initial_pool c bank ++ acc) r)
                  = Requests.batch_size r).
    { unfold Requests.request_events. rewrite produced_count_app. simpl.
      destruct (0 <? length acc)%nat; simpl; lia. }
    split; [now rewrite app_assoc|]. split; [|split].
    + rewrite produced_count_app, Hre, length_app, fresh_length. lia.
    + apply pools_grow_app. split.
      * apply pools_grow_more; [lia | exact Hgrow].
      * simpl. rewrite Hcount. unfold Requests.request_events.
        apply pools_grow_app. split.
        -- destruct (0 <? length acc)%nat; simpl; exact I.
        -- simpl. split; [|exact I].
           replace (length acc + Requests.produced_count
                      (if (0 <? length acc)%nat then [Timeout 1500] else []))%nat
             with (length acc) by (destruct (0 <? length acc)%nat; simpl; lia).
           now rewrite take_app_length.
    + intros p Hp. apply in_app_or in Hp as [Hp|Hp]; [now apply (Hnop p)|].
      unfold Requests.request_events in Hp.
      apply in_app_or in Hp as [Hp|[Hp|[]]]; [|discriminate].
      destruct (0 <? length acc)%nat; [|contradiction].
      destruct Hp as [Hp|[]]. discriminate.
  - exact Hch.
  - discriminate.
  - apply Forall_forall. intros [count marks] _. apply Forall_forall. auto.
  - rewrite Hbank. simpl. rewrite app_nil_r. repeat split. tauto.
  - exists acc.
    destruct Hrun as [(Hres & _ & Hevs)|(e & Hres & Hevs & _)]; rewrite Hres, Hevs.
    + rewrite app_nil_r. split; [|split].
      * apply pools_grow_app. split; [exact Hgrow | simpl; exact I].
      * rewrite produced_count_app. simpl. lia.
      * intros paper Hin _. apply in_app_or in Hin as [Hin|[Hin|[]]].
        -- now apply Hnop in Hin.
        -- now injection Hin as <-.
    + pose proof (ai_catch_neutral c o d e (Run.store_of (Generator.ai_try c o d s))) as Hn.
      destruct (neutral_no_pool (Requests.initial_pool c bank) acc
                  (0 + Requests.produced_count ev) _ Hn) as [Hg Hz].
      split; [|split].
      * apply pools_grow_app. split; assumption.
      * rewrite produced_count_app, Hz. lia.
      * intros paper Hin Hsrc. apply in_app_or in Hin as [Hin|Hin].
        -- now apply Hnop in Hin.
        -- apply ai_catch_papers in Hin. congruence.
Qed.

Lemma requests_see_earlier_questions_witness :
  exists qs,
    Requests.pools_grow
      (Requests.initial_pool (demo_component (ai_settings "7x2" "Cell" three_types))
         demo_bank) qs 0
      (Run.events_of
         (Generator.ai_branch (demo_component (ai_settings "7x2" "Cell" three_types))
            (oracle_with ai_exact) [(7, 2)] demo_store)) /\
    Requests.produced_count
      (Run.events_of
         (Generator.ai_branch (demo_component (ai_settings "7x2" "Cell" three_types))
            (oracle_with ai_exact) [(7, 2)] demo_store)) = length qs /\
    (forall paper,
        In (SetGeneratedPaper (Some paper))
           (Run.events_of
              (Generator.ai_branch (demo_component (ai_settings "7x2" "Cell" three_types))
                 (oracle_with ai_exact) [(7, 2)] demo_store)) ->
        p_source paper = Generated -> p_questions paper = qs).
Proof.
  apply (requests_see_earlier_questions
           (demo_component (ai_settings "7x2" "Cell" three_types))
           (oracle_with ai_exact) [(7, 2)] demo_store demo_bank).
  reflexivity.
Defined.

(* ===================================================================== *)
(** * One run of [handleGenerate]: how it ends and what it shows          *)
(* ===================================================================== *)

Section OneRun.
Import Run Generator Requests.

Lemma shown_papers_app ev1 ev2 :
  shown_papers (ev1 ++ ev2) = shown_papers ev1 ++ shown_papers ev2.
Proof. unfold shown_papers. apply omap_app. Qed.

Lemma quiet_shown ev : forallb quiet ev = true -> shown_papers ev = [].
Proof.
  induction ev as [|e r IH]; simpl; [reflexivity|].
  intros H. apply andb_true_iff in H as [He Hr].
  unfold shown_papers in *. simpl.
  destruct e; try (apply IH, Hr); discriminate.
Qed.

Lemma computeDistribution_quiet c o s :
  forallb quiet (events_of (computeDistribution c o s)) = true.
Proof. apply computeDistribution_events; reflexivity. Qed.

(** The events of a run, piece by piece. *)
Lemma handleGenerate_events c o useAI s :
  result_of (handleGenerate c o useAI s) = Val tt /\
  exists evb tail,
    events_of (handleGenerate c o useAI s)
    = SetIsGenerating true :: SetGeneratedPaper None ::
      events_of (computeDistribution c o s) ++ evb ++ tail ++ [SetIsGenerating false] /\
    forallb quiet tail = true /\
    (evb = [] \/
     exists d s1, evb = events_of ((if useAI then ai_branch c o d
                                    else bank_branch c o d) s1)).
Proof.
  change (wp (handleGenerate c o useAI) s
             (fun res _ ev =>
                res = Val tt /\
                exists evb tail,
                  ev = SetIsGenerating true :: SetGeneratedPaper None ::
                       events_of (computeDistribution c o s) ++ evb ++ tail ++
                       [SetIsGenerating false] /\
                  forallb quiet tail = true /\
                  (evb = [] \/
                   exists d s1, evb = events_of ((if useAI then ai_branch c o d
                                                  else bank_branch c o d) s1)))).
  unfold handleGenerate, showToast.
  apply wp_bind, wp_emit. apply wp_bind, wp_emit.
  apply wp_try_finally, wp_try_catch, wp_bind, wp_events.
  set (evd := events_of (computeDistribution c o s)).
  intros [[d|]|e] s1.
  - apply wp_events. set (evb := events_of _).
    assert (Hb : evb = [] \/
                 exists d' s', evb = events_of ((if useAI then ai_branch c o d'
                                                 else bank_branch c o d') s'))
      by (right; eauto).
    intros [[]|e] s2.
    + apply wp_emit. split; [reflexivity|]. exists evb, []. simpl.
      rewrite <- !app_assoc. auto.
    + apply wp_bind, wp_emit. apply wp_emit. apply wp_emit. split; [reflexivity|].
      exists evb, [ConsoleError "Error generating paper:";
                   ShowToast (Lit "Paper generation failed. Check your settings.") error].
      simpl. rewrite <- !app_assoc. auto.
  - apply wp_ret. apply wp_emit. split; [reflexivity|]. exists [], []. simpl.
    rewrite <- !app_assoc. auto.
  - apply wp_bind, wp_emit. apply wp_emit. apply wp_emit. split; [reflexivity|].
    exists [], [ConsoleError "Error generating paper:";
                ShowToast (Lit "Paper generation failed. Check your settings.") error].
    simpl. rewrite <- !app_assoc. auto.
Qed.

Lemma bank_branch_shown c o d s :
  (length (shown_papers (events_of (bank_branch c o d s))) <= 1)%nat /\
  Forall (fun p => p_source p = Manual) (shown_papers (events_of (bank_branch c o d s))).
Proof.
  change (wp (bank_branch c o d) s
             (fun _ _ ev => (length (shown_papers ev) <= 1)%nat /\
                            Forall (fun p => p_source p = Manual) (shown_papers ev))).
  unfold bank_branch, showToast.
  apply wp_bind, wp_silent; [apply silent_generateFromBank|].
  intros [[err|qs]|e] s1; simpl.
  - apply wp_emit. simpl. split; [lia | constructor].
  - apply wp_bind, wp_createPaper. intros content. apply wp_emit.
    simpl. split; [lia|]. repeat constructor.
  - split; [lia | constructor].
Qed.

Lemma ai_catch_shown c o d e s :
  (length (shown_papers (events_of (ai_catch c o d e s))) <= 1)%nat.
Proof.
  change (wp (ai_catch c o d e) s
             (fun _ _ ev => (length (shown_papers ev) <= 1)%nat)).
  unfold ai_catch, showToast, isQuotaError.
  apply wp_bind, wp_emit. apply wp_bind.
  destruct e as [|v]; [apply wp_throw; simpl; lia|].
  apply wp_ret. apply wp_bind.
  assert (Htoast : forall (Q' : Res unit -> Store -> list Event -> Prop),
             (forall m, Q' (Val tt) s [ShowToast m error]) ->
             wp (if quota_view o v
                 then emit (ShowToast (Tr "apiQuotaError" (lang c)) error)
                 else emit (ShowToast (Tr "apiError" (lang c)) error)) s Q').
  { intros Q' H. destruct (quota_view o v); apply wp_emit, H. }
  apply Htoast. intros m. apply wp_bind, wp_emit.
  apply wp_bind, wp_silent; [apply silent_generateFromBank|].
  intros [[err|qs]|e] s1; simpl.
  - apply wp_emit. simpl. lia.
  - apply wp_bind, wp_createPaper. intros content.
    apply wp_bind, wp_emit. apply wp_emit. simpl. lia.
  - lia.
Qed.

Lemma ai_branch_shown c o d s :
  (length (shown_papers (events_of (ai_branch c o d s))) <= 1)%nat.
Proof.
  rewrite ai_branch_events.
  destruct (nonempty_items (aiChapter (settings c))) as [|ch chs] eqn:Hch.
  { rewrite (ai_try_no_chapter c o d s Hch). simpl. lia. }
  destruct (ai_try_inv c o (ch :: chs) (fun _ _ => True)
              (fun _ _ _ _ ev => shown_papers ev = [])) with (d := d) (s := s)
    as (done & acc & pl & call & ev & Hev & Hrun).
  - intros done acc pl call ev marks request _ Hev.
    rewrite shown_papers_app, Hev. unfold request_events.
    destruct (0 <? length acc)%nat; reflexivity.
  - exact Hch.
  - discriminate.
  - apply Forall_forall. intros [count marks] _. apply Forall_forall. auto.
  - reflexivity.
  - destruct Hrun as [(Hres & _ & Hevs)|(e & Hres & Hevs & _)]; rewrite Hres, Hevs.
    + rewrite app_nil_r, shown_papers_app, Hev. simpl. lia.
    + rewrite shown_papers_app, Hev. simpl. apply ai_catch_shown.
Qed.

End OneRun.

(** X21 (a run always settles).  Whatever the settings, the bank, the random
    draws and the answers of the service, a run of [handleGenerate] ends
    without throwing; it starts by raising the busy flag and clearing the
    paper shown, and its last act is to lower the busy flag. *)
Theorem handleGenerate_always_settles
    (c : Component) (o : Oracle) (useAI : bool) (s : Run.Store) :
  Run.result_of (Generator.handleGenerate c o useAI s) = Run.Val tt /\
  exists mid,
    Run.events_of (Generator.handleGenerate c o useAI s)
    = SetIsGenerating true :: SetGeneratedPaper None :: mid ++ [SetIsGenerating false].
Proof.
  destruct (handleGenerate_events c o useAI s) as (Hres & evb & tail & Hev & _).
  split; [exact Hres|]. rewrite Hev.
  exists (Run.events_of (Generator.computeDistribution c o s) ++ evb ++ tail).
  now rewrite <- !app_assoc.
Qed.

(** X22 (one paper per run).  A run of [handleGenerate] shows at most one
    paper; without the AI, a paper shown has the source [Manual]. *)
Theorem one_paper_per_run (c : Component) (o : Oracle) (useAI : bool) (s : Run.Store) :
  (length (shown_papers (Run.events_of (Generator.handleGenerate c o useAI s))) <= 1)%nat /\
  (useAI = false ->
   Forall (fun p => p_source p = Manual)
          (shown_papers (Run.events_of (Generator.handleGenerate c o useAI s)))).
Proof.
  destruct (handleGenerate_events c o useAI s) as (_ & evb & tail & Hev & Htail & Hevb).
  rewrite Hev.
  change (SetIsGenerating true :: SetGeneratedPaper None ::
          Run.events_of (Generator.computeDistribution c o s) ++ evb ++ tail ++
          [SetIsGenerating false])
    with ([SetIsGenerating true; SetGeneratedPaper None] ++
          Run.events_of (Generator.computeDistribution c o s) ++ evb ++ tail ++
          [SetIsGenerating false]).
  rewrite !shown_papers_app, (quiet_shown _ (computeDistribution_quiet c o s)),
    (quiet_shown _ Htail).
  simpl. rewrite app_nil_r.
  destruct Hevb as [->|(d & s1 & ->)]; [simpl; split; [lia | constructor]|].
  destruct useAI.
  - split; [apply ai_branch_shown | discriminate].
  - destruct (bank_branch_shown c o d s1) as [Hlen Hsrc]. split; [exact Hlen | auto].
Qed.

Lemma one_paper_per_run_witness :
  Forall (fun p => p_source p = Manual)
         (shown_papers
            (Run.events_of
               (Generator.handleGenerate (demo_component (ai_settings "2x5" "" []))
                  (oracle_with ai_one) false demo_store))).
Proof.
  apply (proj2 (one_paper_per_run (demo_component (ai_settings "2x5" "" []))
                  (oracle_with ai_one) false demo_store)).
  reflexivity.
Defined.

(* ===================================================================== *)
(** * The shape of a solved distribution, and of a sampling               *)
(* ===================================================================== *)

Section SolvedShape.
Import Solver.

Lemma walk_moves fuel dp marks rnd :
  forall k cur acc res,
    Forall (fun m => In m marks) acc ->
    walk fuel dp marks rnd k cur acc = Finished res ->
    Forall (fun m => In m marks) res.
Proof.
  induction fuel as [|fuel IH]; intros k cur acc res Hacc; simpl.
  - destruct (cur >? 0); [discriminate|]. now intros [= <-].
  - destruct (cur >? 0); [|now intros [= <-]].
    destruct (length (possibleMoves dp marks cur) =? 0)%nat eqn:E; [discriminate|].
    assert (Hne : possibleMoves dp marks cur <> []).
    { intros H0. apply length_eqb_0 in H0. congruence. }
    pose proof (randomMove_In (rnd k) _ Hne) as Hin.
    apply possibleMoves_In in Hin as (Hin & _).
    apply IH. apply Forall_app. split; [assumption|]. now repeat constructor.
Qed.

Lemma map_set_In m k v k' v' :
  In (k', v') (JS.map_set m k v) -> (k' = k /\ v' = v) \/ In (k', v') m.
Proof.
  induction m as [|[a b] r IH]; simpl.
  - intros [[= <- <-]|[]]. now left.
  - destruct (Z.eqb_spec a k) as [->|Hne]; simpl.
    + intros [[= <- <-]|H]; [now left | right; now right].
    + intros [H|H]; [right; now left|].
      destruct (IH H) as [?|?]; [now left | right; now right].
Qed.

(** The tally holds each mark once, with the number of its occurrences,
    which is at least one. *)
Lemma tally_from (P : Z -> Prop) (l : list Z) :
  forall m,
    List.NoDup (map fst m) ->
    (forall k v, In (k, v) m -> 0 < v /\ P k) ->
    Forall P l ->
    List.NoDup (map fst (fold_left (fun m mark =>
                   JS.map_set m mark (JS.or_zero (JS.map_get m mark) + 1)) l m)) /\
    (forall k v,
        In (k, v) (fold_left (fun m mark =>
                     JS.map_set m mark (JS.or_zero (JS.map_get m mark) + 1)) l m) ->
        0 < v /\ P k).
Proof.
  induction l as [|x r IH]; intros m Hnd Hm Hl; simpl; [auto|].
  inversion Hl as [|? ? Hx Hr]; subst.
  apply IH; [now apply map_set_NoDup | | assumption].
  intros k v Hin. apply map_set_In in Hin as [[-> ->]|Hin]; [|now apply Hm].
  split; [|assumption].
  destruct (JS.map_get m x) as [v0|] eqn:E; simpl; [|lia].
  apply map_get_In, Hm in E. lia.
Qed.

Lemma to_distribution_marks m : map snd (to_distribution m) = map fst m.
Proof.
  unfold to_distribution. rewrite map_map. apply map_ext. now intros [k v].
Qed.

End SolvedShape.

(** X23 (the solver uses the allowed marks).  A distribution returned by
    [findDistribution] names no mark value twice; each of its pairs has a
    count of at least one and a mark value that is positive and is one of
    the numbers read from the allowed-marks field. *)
Theorem findDistribution_uses_allowed_marks
    (s : GeneratorSettings) (rnd : nat -> JS.unit_sample) (d : Distribution) :
  fst (Solver.findDistribution s rnd) = Some d ->
  List.NoDup (map snd d) /\
  Forall (fun group : Z * Z =>
            0 < fst group /\ 0 < snd group /\
            In (Some (snd group)) (Solver.parsedMarks s)) d.
Proof.
  intros H. apply findDistribution_Some, run_Solved_inv in H.
  destruct H as (t & res & _ & _ & Hw & ->).
  apply walk_moves in Hw; [|constructor].
  destruct (tally_from (fun m => In m (Solver.uniqueMarks s)) res []
              (List.NoDup_nil _) (fun _ _ F => match F with end) Hw) as [Hnd Hall].
  fold (Solver.tally res) in Hnd, Hall. split.
  - now rewrite to_distribution_marks.
  - apply Forall_forall. intros [count marks] Hin. apply list_elem_of_In in Hin.
    unfold Solver.to_distribution in Hin.
    apply in_map_iff in Hin as ([k v] & [= <- <-] & Hin).
    apply Hall in Hin as [Hv Hk]. simpl.
    unfold Solver.uniqueMarks in Hk. apply unique_In, keep_positive_In in Hk. tauto.
Qed.

Lemma findDistribution_uses_allowed_marks_witness :
  List.NoDup (map snd [(1, 2); (1, 5)]) /\
  Forall (fun group : Z * Z =>
            0 < fst group /\ 0 < snd group /\
            In (Some (snd group))
               (Solver.parsedMarks (settings_with totalMarks_mode "" "7" "2,5")))
         [(1, 2); (1, 5)].
Proof.
  apply (findDistribution_uses_allowed_marks (settings_with totalMarks_mode "" "7" "2,5")
           always_first [(1, 2); (1, 5)]).
  vm_compute. reflexivity.
Defined.

Section SampledShape.
Import Bank.

Lemma select_groups_asked (shuffle : nat -> list nat) (d : Distribution) :
  forall (k : nat) (pool acc : list Question) (q : Question),
    In q (select_groups shuffle k d pool acc) ->
    In q acc \/ (In q pool /\ BankSpec.asked d (q_marks q) = true).
Proof.
  induction d as [|[count marks] rest IH]; intros k pool acc q; simpl; [auto|].
  intros H. apply IH in H as [H|[H Ha]].
  - apply in_app_or in H as [H|H]; [now left|]. right.
    assert (Hf : In q (List.filter (has_marks marks) pool)).
    { unfold slice0 in H. destruct (count <? 0); apply In_take in H;
        (eapply Permutation_in in H; [|apply permute_Permutation]); exact H. }
    apply filter_In in Hf as [Hp Hm]. split; [assumption|].
    unfold has_marks in Hm. apply Z.eqb_eq in Hm. rewrite Hm, Z.eqb_refl. reflexivity.
  - right. apply filter_In in H as [H _]. split; [assumption|].
    rewrite Ha. apply orb_true_r.
Qed.

End SampledShape.

(** X24 (a sampling stays in its pool).  Whatever the distribution and the
    bank, even with negative counts or repeated identifiers, every question
    that [generateFromBank] returns is a question of the bank, of the
    selected class, worth a mark value that the distribution names, and,
    when previous questions are avoided, never used. *)
Theorem sampling_stays_in_the_pool
    (questions : list Question) (selectedClass : Z) (avoidPrevious : bool)
    (shuffle : nat -> list nat) (d : Distribution) (qs : list Question) :
  Bank.generateFromBank questions selectedClass avoidPrevious shuffle d
  = Bank.Questions qs ->
  Forall (fun q => In q questions /\ q_class q = selectedClass /\
                   (avoidPrevious = true -> q_usedIn q = []) /\
                   BankSpec.asked d (q_marks q) = true) qs.
Proof.
  unfold Bank.generateFromBank. destruct (0 <? length _)%nat; [discriminate|].
  intros [= <-]. apply Forall_forall. intros q Hq. apply list_elem_of_In in Hq.
  apply select_groups_asked in Hq as [[]|[Hq Ha]].
  apply sourcePool_In in Hq. tauto.
Qed.

Lemma sampling_stays_in_the_pool_witness :
  Forall (fun q => In q demo_bank /\ q_class q = 10 /\
                   (true = true -> q_usedIn q = []) /\
                   BankSpec.asked [(2, 5); (1, 10)] (q_marks q) = true)
         [mkq "a" 10 5 []; mkq "b" 10 5 []; mkq "c" 10 10 []].
Proof.
  apply (sampling_stays_in_the_pool demo_bank 10 true identity_shuffle [(2, 5); (1, 10)]).
  reflexivity.
Defined.

Section BankRun.
Import Run Generator.

Lemma computeDistribution_store c o s : store_of (computeDistribution c o s) = s.
Proof.
  unfold computeDistribution. destruct (generationMode (settings c)).
  - now destruct (Parser.parseDistribution _).
  - destruct (Solver.findDistribution (settings c) (rnd_move o)) as [[d|] ev];
      reflexivity.
Qed.

Lemma computeDistribution_silent_when_found c o s d :
  result_of (computeDistribution c o s) = Val (Some d) ->
  events_of (computeDistribution c o s) = [].
Proof.
  unfold computeDistribution. destruct (generationMode (settings c)).
  - destruct (Parser.parseDistribution _); [reflexivity | discriminate].
  - unfold Solver.findDistribution.
    destruct (Solver.run (settings c) (rnd_move o)); try discriminate. reflexivity.
Qed.

End BankRun.

(** X25 (what a run without the AI shows).  When a distribution is
    computed, a run of [handleGenerate] without the AI raises the busy flag,
    clears the paper shown, then shows what [generateFromBank] gives for
    that distribution on the content of the bank, its error as a toast or
    its questions as a paper of source [Manual], and lowers the busy flag:
    nothing else happens. *)
Theorem bank_run_shows_the_sampling
    (c : Component) (o : Oracle) (s : Run.Store) (bank : list Question)
    (d : Distribution) :
  Run.heap s !! questions c = Some bank ->
  Run.result_of (Generator.computeDistribution c o s) = Run.Val (Some d) ->
  Run.events_of (Generator.handleGenerate c o false s)
  = SetIsGenerating true :: SetGeneratedPaper None ::
    match Bank.generateFromBank bank (selectedClass c) (avoidPrevious c) (shuffle o) d with
    | Bank.Error err => [ShowToast (Lit err) error]
    | Bank.Questions qs => [SetGeneratedPaper (Some (Generator.paper_of c o qs Manual))]
    end ++ [SetIsGenerating false].
Proof.
  intros Hbank Hd.
  change (wp (Generator.handleGenerate c o false) s
             (fun _ _ ev =>
                ev = SetIsGenerating true :: SetGeneratedPaper None ::
                     match Bank.generateFromBank bank (selectedClass c) (avoidPrevious c)
                             (shuffle o) d with
                     | Bank.Error err => [ShowToast (Lit err) error]
                     | Bank.Questions qs =>
                         [SetGeneratedPaper (Some (Generator.paper_of c o qs Manual))]
                     end ++ [SetIsGenerating false])).
  unfold Generator.handleGenerate, Generator.showToast.
  apply wp_bind, wp_emit. apply wp_bind, wp_emit.
  apply wp_try_finally, wp_try_catch, wp_bind. red.
  rewrite Hd, (computeDistribution_store c o s),
    (computeDistribution_silent_when_found c o s d Hd).
  unfold Generator.bank_branch, Generator.showToast.
  apply wp_bind. eapply wp_generateFromBank; [exact Hbank|].
  intros r s1 _ Hr.
  destruct (Bank.generateFromBank bank (selectedClass c) (avoidPrevious c) (shuffle o) d)
    as [err|qs].
  - subst r. apply wp_emit. apply wp_emit. reflexivity.
  - destruct Hr as (fq & -> & Hfq). unfold Generator.createPaper.
    apply wp_bind, wp_bind. eapply wp_read; [exact Hfq|]. apply wp_ret.
    apply wp_emit. apply wp_emit. reflexivity.
Qed.

Lemma bank_run_shows_the_sampling_witness :
  Run.events_of
    (Generator.handleGenerate (demo_component (ai_settings "2x5" "" []))
       (oracle_with ai_one) false demo_store)
  = [SetIsGenerating true; SetGeneratedPaper None;
     SetGeneratedPaper
       (Some (Generator.paper_of (demo_component (ai_settings "2x5" "" []))
                (oracle_with ai_one) [mkq "a" 10 5 []; mkq "b" 10 5 []] Manual));
     SetIsGenerating false].
Proof.
  apply (bank_run_shows_the_sampling (demo_component (ai_settings "2x5" "" []))
           (oracle_with ai_one) demo_store demo_bank [(2, 5)]).
  - reflexivity.
  - reflexivity.
Defined.

(* ===================================================================== *)
(** * The keys of the archive tell year, class and semester apart         *)
(* ===================================================================== *)

Section Keys.
Import Archive.

Lemma string_of_uint_digits (d : Decimal.uint) :
  digits_only (NilEmpty.string_of_uint d) = true.
Proof. induction d; simpl; auto. Qed.

Lemma string_of_uint_nonempty (d : Decimal.uint) :
  d <> Decimal.Nil -> NilEmpty.string_of_uint d <> EmptyString.
Proof. destruct d; simpl; congruence. Qed.

(** A rendered integer is a run of digits, after a dash when negative. *)
Lemma show_shape (n : Z) :
  exists ds, ds <> EmptyString /\ digits_only ds = true /\
             (JS.show n = ds \/ JS.show n = String "-"%char ds).
Proof.
  unfold JS.show. destruct n as [|p|p]; simpl.
  - exists "0"%string. repeat split; [discriminate | now left].
  - exists (NilEmpty.string_of_uint (Pos.to_uint p)). split; [|split].
    + apply string_of_uint_nonempty, DecimalPos.Unsigned.to_uint_nonnil.
    + apply string_of_uint_digits.
    + now left.
  - exists (NilEmpty.string_of_uint (Pos.to_uint p)). split; [|split].
    + apply string_of_uint_nonempty, DecimalPos.Unsigned.to_uint_nonnil.
    + apply string_of_uint_digits.
    + now right.
Qed.

Lemma show_inj (a b : Z) : JS.show a = JS.show b -> a = b.
Proof.
  unfold JS.show. intros H. apply DecimalZ.to_int_inj.
  pose proof (NilEmpty.isi (Z.to_int a)) as Ha.
  pose proof (NilEmpty.isi (Z.to_int b)) as Hb.
  rewrite H in Ha. congruence.
Qed.

Lemma digits_dash_split (a b r r' : string) :
  digits_only a = true -> digits_only b = true ->
  a +:+ String "-"%char r = b +:+ String "-"%char r' -> a = b /\ r = r'.
Proof.
  revert b. induction a as [|c a IH]; intros [|c' b] Ha Hb H.
  - injection H as ->. auto.
  - injection H as <- _. discriminate.
  - injection H as -> _. discriminate.
  - injection H as -> H. simpl in Ha, Hb.
    destruct (JS.digit_of c'); [|discriminate].
    destruct (IH b Ha Hb H) as [-> ->]. auto.
Qed.

Lemma show_dash_split (n m : Z) (r r' : string) :
  JS.show n +:+ String "-"%char r = JS.show m +:+ String "-"%char r' ->
  n = m /\ r = r'.
Proof.
  intros H.
  destruct (show_shape n) as (dn & Hn0 & Hn & En).
  destruct (show_shape m) as (dm & Hm0 & Hm & Em).
  assert (Hs : JS.show n = JS.show m /\ r = r').
  { destruct En as [En|En], Em as [Em|Em]; rewrite En, Em in *.
    - destruct (digits_dash_split _ _ _ _ Hn Hm H) as [-> ->]. auto.
    - destruct dn as [|c dn]; [contradiction|]. injection H as -> _. discriminate.
    - destruct dm as [|c dm]; [contradiction|]. injection H as <- _. discriminate.
    - injection H as H. destruct (digits_dash_split _ _ _ _ Hn Hm H) as [-> ->]. auto. }
  destruct Hs as [Hs ->]. split; [now apply show_inj | reflexivity].
Qed.

(** The key determines the year, the class and the semester. *)
Lemma key_of_inj (y c y' c' : Z) (s s' : Semester) :
  key_of y c s = key_of y' c' s' -> y = y' /\ c = c' /\ s = s'.
Proof.
  unfold key_of. intros H.
  change ("-" +:+ JS.show c +:+ "-" +:+ semester_text s)
    with (String "-"%char (JS.show c +:+ String "-"%char (semester_text s))) in H.
  change ("-" +:+ JS.show c' +:+ "-" +:+ semester_text s')
    with (String "-"%char (JS.show c' +:+ String "-"%char (semester_text s'))) in H.
  apply show_dash_split in H as [-> H].
  apply show_dash_split in H as [-> H].
  repeat split. destruct s, s'; (reflexivity || discriminate).
Qed.

Lemma same_semester_eq (a b : Semester) : same_semester a b = true <-> a = b.
Proof. destruct a, b; simpl; split; congruence. Qed.

Lemma belongs_to_key (g : PaperGroup) (p : Paper) :
  belongs_to g p = String.eqb (paper_key p) (key_of (pg_year g) (pg_classNum g)
                                               (pg_semester g)).
Proof.
  unfold belongs_to, paper_key.
  destruct (String.eqb_spec (key_of (p_year p) (p_class p) (p_semester p))
              (key_of (pg_year g) (pg_classNum g) (pg_semester g))) as [E|Hne].
  - apply key_of_inj in E as (-> & -> & ->).
    rewrite !Z.eqb_refl. simpl. now apply same_semester_eq.
  - apply not_true_iff_false. intros H.
    apply andb_true_iff in H as [H Hs]. apply andb_true_iff in H as [Hy Hc].
    apply Z.eqb_eq in Hy, Hc. apply same_semester_eq in Hs.
    apply Hne. congruence.
Qed.

Lemma group_of_key (papers : list Paper) (k : string) (g : PaperGroup) :
  group_of papers k = Some g ->
  key_of (pg_year g) (pg_classNum g) (pg_semester g) = k /\
  pg_papers g = List.filter (fun p => String.eqb (paper_key p) k) papers /\
  pg_papers g <> [].
Proof.
  unfold group_of.
  destruct (List.filter _ papers) as [|p rest] eqn:E; [discriminate|].
  intros [= <-]. simpl. split; [|split; [reflexivity | discriminate]].
  assert (Hin : In p (List.filter (fun p0 => String.eqb (paper_key p0) k) papers))
    by (rewrite E; now left).
  apply filter_In in Hin as [_ Hk]. now apply String.eqb_eq in Hk.
Qed.

End Keys.

(** X26 (a group is a year, a class and a semester).  Each group of
    [groupedPapers] holds, in the order of the archive, exactly the papers
    that have its year, its class and its semester, and at least one; and
    two groups never have the same year, class and semester. *)
Theorem groups_are_by_year_class_semester (papers : list Paper) :
  Forall (fun g => Archive.pg_papers g = List.filter (Archive.belongs_to g) papers /\
                   Archive.pg_papers g <> [])
         (map snd (Archive.groupedPapers papers)) /\
  (forall k g k' g',
      In (k, g) (Archive.groupedPapers papers) ->
      In (k', g') (Archive.groupedPapers papers) ->
      Archive.pg_year g = Archive.pg_year g' ->
      Archive.pg_classNum g = Archive.pg_classNum g' ->
      Archive.pg_semester g = Archive.pg_semester g' ->
      k = k' /\ g = g').
Proof.
  destruct (reduce_groups papers [] [] (fun _ => eq_refl) (List.NoDup_nil _))
    as [Hget Hnd].
  simpl in Hget. fold (Archive.groupedPapers papers) in Hget, Hnd.
  assert (Hin : forall k g, In (k, g) (Archive.groupedPapers papers) ->
                            Archive.group_of papers k = Some g).
  { intros k g H. rewrite <- Hget. now apply get_In. }
  split.
  - apply Forall_forall. intros g Hg.
    apply list_elem_of_In, in_map_iff in Hg as ([k g0] & <- & Hg). simpl.
    apply Hin, group_of_key in Hg as (Hk & Hp & Hne). split; [|exact Hne].
    rewrite Hp. apply filter_ext. intros p. now rewrite belongs_to_key, Hk.
  - intros k g k' g' Hg Hg' Hy Hc Hs.
    apply Hin in Hg, Hg'.
    pose proof (group_of_key _ _ _ Hg) as (Hk & _).
    pose proof (group_of_key _ _ _ Hg') as (Hk' & _).
    assert (k = k') as <- by (rewrite <- Hk, <- Hk', Hy, Hc, Hs; reflexivity).
    split; [reflexivity | congruence].
Qed.

Lemma groups_are_by_year_class_semester_witness :
  "2024-10-1"%string = "2024-10-1"%string /\
  {| Archive.pg_year := 2024; Archive.pg_classNum := 10; Archive.pg_semester := First;
     Archive.pg_papers := [archived "p1" 2024 10 First; archived "p3" 2024 10 First] |}
  = {| Archive.pg_year := 2024; Archive.pg_classNum := 10; Archive.pg_semester := First;
       Archive.pg_papers := [archived "p1" 2024 10 First; archived "p3" 2024 10 First] |}.
Proof.
  apply (proj2 (groups_are_by_year_class_semester demo_archive)
           "2024-10-1"%string
           {| Archive.pg_year := 2024; Archive.pg_classNum := 10;
              Archive.pg_semester := First;
              Archive.pg_papers := [archived "p1" 2024 10 First;
                                    archived "p3" 2024 10 First] |}
           "2024-10-1"%string
           {| Archive.pg_year := 2024; Archive.pg_classNum := 10;
              Archive.pg_semester := First;
              Archive.pg_papers := [archived "p1" 2024 10 First;
                                    archived "p3" 2024 10 First] |}).
  - vm_compute. left. reflexivity.
  - vm_compute. left. reflexivity.
  - reflexivity.
  - reflexivity.
  - reflexivity.
Defined.

Example demo_archive_groups :
  map (fun g => (Archive.pg_year g, Archive.pg_classNum g, map p_id (Archive.pg_papers g)))
      (Archive.sortedGroups demo_archive)
  = [(2024, 10, ["p1"; "p3"]); (2023, 9, ["p2"])].
Proof. vm_compute. reflexivity. Qed.

(* ===================================================================== *)
(** * The panel, the export and the archive on small inputs               *)
(* ===================================================================== *)

Example calculatedTotal_examples :
  Panel.calculatedTotal (ai_settings "5x1, 5x2, 2x5" "" []) = Panel.TotalNumber 25 /\
  Panel.calculatedTotal (ai_settings "5x1, oops, 2x5" "" []) = Panel.TotalNumber 15 /\
  Panel.calculatedTotal (settings_with totalMarks_mode "5x1" "25 marks" "1, 2")
  = Panel.TotalText "25 marks".
Proof. vm_compute. repeat split; reflexivity. Qed.

Example first_keys_example :
  Archive.first_keys ["2024-10-1"; "2023-9-2"; "2024-10-1"; "2025-10-1"; "2023-9-2"]
  = ["2024-10-1"; "2023-9-2"; "2025-10-1"].
Proof. reflexivity. Qed.

Example handleQuestionTypeChange_examples :
  aiQuestionType (Panel.handleQuestionTypeChange (ai_settings "" "" ["Short Answer"])
                    "True/False")
  = ["Short Answer"; "True/False"] /\
  aiGenerateAnswers (Panel.handleQuestionTypeChange (ai_settings "" "" ["Short Answer"])
                       "True/False") = true /\
  aiGenerateAnswers (Panel.handleQuestionTypeChange (ai_settings "" "" [])
                       "Short Answer") = false /\
  aiQuestionType (Panel.handleQuestionTypeChange (ai_settings "" "" three_types)
                    "Multiple Choice")
  = ["Short Answer"; "True/False"].
Proof. vm_compute. repeat split; reflexivity. Qed.

Example titleToUse_examples :
  Archive.titleToUse " Unit test " "scan.pdf" = "Unit test" /\
  Archive.titleToUse "" "scan.final.pdf" = "scan.final" /\
  Archive.titleToUse "" ".hidden" = ".hidden" /\
  Archive.titleToUse "" "README" = "README".
Proof. vm_compute. repeat split; reflexivity. Qed.

Example export_examples :
  Exporter.replace_spaces "Class 10 Paper - 2025" = "Class_10_Paper_-_2025" /\
  map fst (Exporter.wb_sheets
             (Exporter.handleExportXLSX
                (Generator.paper_of (demo_component (ai_settings "" "" []))
                   (oracle_with ai_one) demo_bank Manual)))
  = ["Questions"] /\
  Exporter.wb_fileName
    (Exporter.handleExportXLSX
       (Generator.paper_of (demo_component (ai_settings "" "" []))
          (oracle_with ai_one) demo_bank Manual))
  = "Class_10_Paper_-_2025.xlsx".
Proof. vm_compute. repeat split; reflexivity. Qed.

Example nonempty_items_examples :
  Generator.nonempty_items " Cell , ,Heredity,," = ["Cell"; "Heredity"] /\
  Generator.nonempty_items "" = [].
Proof. vm_compute. repeat split; reflexivity. Qed.
